(** * unionV2: the bridge transfer routine of [src/utils.js]

    A shallow embedding of [getGasParams], [getProvider],
    [executeTransaction] and [sendToken].  The module talks to three
    collaborators whose code is not part of it:

    - the static tables of [config.js] ([CHAINS], [RPC_URLS], ...), a record
      [Config] of finite maps holding the entries of each table; the module
      reads them as plain objects, through [get], which also finds what
      every object inherits;
    - the local (pure, possibly throwing) functions of the ethers library
      ([parseUnits], [formatUnits], the constructors), an interface
      [Ethers] whose members are arbitrary;
    - the remote chain, an interface [Network] that answers every awaited
      remote call from the history of calls made so far.

    [async] functions become computations in a state-and-exception monad
    [M]: the state holds the module-level [providerCache] and the
    chronological list of remote calls with their answers. *)

From Stdlib Require Import ZArith List String Ascii Bool Lia.
From stdpp Require Import base gmap strings list.

Local Open Scope string_scope.
Local Open Scope list_scope.
Local Open Scope Z_scope.

(** ** Values *)

(** What a JavaScript [throw] carries.  One constructor per [new Error] of
    the module, one for the TypeErrors of the language itself, one for
    whatever the ethers library or the remote chain reject with. *)
Inductive error : Type :=
  | InvalidChainConfiguration (sourceChain destChain : string)
  | InvalidPrivateKeyFormat
  | AllRpcEndpointsFailed (chainId : string)
  | MissingBridgeAddress (sourceChain : string)
  | InsufficientBalance (need has : string)
  | TransactionFailedOnChain
  | JsTypeError (msg : string)
  | External (msg : string).

(** [error.message] *)
Definition message (e : error) : string :=
  (match e with
   | InvalidChainConfiguration s d =>
       "Invalid chain configuration: " ++ s ++ " → " ++ d
   | InvalidPrivateKeyFormat =>
       "Invalid private key format (must be 64 hex chars with 0x prefix)"
   | AllRpcEndpointsFailed c => "All RPC endpoints failed for " ++ c
   | MissingBridgeAddress s => "Missing bridge address for " ++ s
   | InsufficientBalance need has =>
       "Insufficient balance. Need " ++ need ++ ", has " ++ has
   | TransactionFailedOnChain => "Transaction failed on-chain"
   | JsTypeError m => m
   | External m => m
   end)%string.

Inductive result (A : Type) : Type :=
  | Ok (a : A)
  | Err (e : error).
Arguments Ok {A} a.
Arguments Err {A} e.

(** A numeric JavaScript value: a Number holding an integer, or a BigInt.
    BigInts are unbounded, so [Z] is exact for them. *)
Inductive jsnum : Type :=
  | JNumber (n : Z)
  | JBigInt (n : Z).

(** ToBoolean on a numeric value: only zero is falsy. *)
Definition truthy (v : jsnum) : bool :=
  match v with
  | JNumber n => negb (n =? 0)
  | JBigInt n => negb (n =? 0)
  end.

(** ToBoolean on a string that may be [null]/[undefined]. *)
Definition truthy_str (s : option string) : bool :=
  match s with
  | Some s => negb (s =? "")%string
  | None => false
  end.

(** ** Reading a table

    The tables of the configuration are plain objects and the module reads
    them as [table[key]].  Such a read finds the entries of the table
    itself and, at a name that every object inherits from
    [Object.prototype], the member of that name. *)
Definition Object_prototype : list string :=
  ["constructor"; "hasOwnProperty"; "isPrototypeOf"; "propertyIsEnumerable";
   "toLocaleString"; "toString"; "valueOf"; "__proto__"; "__defineGetter__";
   "__defineSetter__"; "__lookupGetter__"; "__lookupSetter__"].

(** What [table[key]] evaluates to: an entry of the table, the member of
    [Object.prototype] of that name (a function, or for [__proto__] the
    prototype itself: an object in both cases), or [undefined]. *)
Inductive property (A : Type) : Type :=
  | Own (a : A)
  | Inherited (name : string)
  | Undefined.
Arguments Own {A} a.
Arguments Inherited {A} name.
Arguments Undefined {A}.

(** [table[key]] *)
Definition get {A} (table : gmap string A) (key : string) : property A :=
  match table !! key with
  | Some a => Own a
  | None =>
      if bool_decide (key ∈ Object_prototype) then Inherited key
      else Undefined
  end.

(** ToBoolean of a value read where a string is expected: an object is
    truthy. *)
Definition truthy_ref (p : property string) : bool :=
  match p with
  | Own s => truthy_str (Some s)
  | Inherited _ => true
  | Undefined => false
  end.

(** [Number(v)] of a value read where a number is expected; [None] is NaN,
    which is what an object and [undefined] convert to. *)
Definition Number (p : property Z) : option Z :=
  match p with
  | Own n => Some n
  | Inherited _ => None
  | Undefined => None
  end.

(** The [overrideSettings] / [gasSettings] object; [None] is an absent key. *)
Record feeOverrides : Type := {
  o_maxFeePerGas : option jsnum;
  o_maxPriorityFeePerGas : option jsnum;
  o_gasLimit : option jsnum
}.

(** The default [{}] of both parameters. *)
Definition no_overrides : feeOverrides :=
  {| o_maxFeePerGas := None; o_maxPriorityFeePerGas := None;
     o_gasLimit := None |}.

(** The object [getGasParams] returns. *)
Record gasParams : Type := {
  maxFeePerGas : jsnum;
  maxPriorityFeePerGas : jsnum;
  gasLimit : jsnum
}.

(** ethers' [FeeData]: both fields are [null] on a chain without EIP-1559. *)
Record feeData : Type := {
  fd_maxFeePerGas : option Z;
  fd_maxPriorityFeePerGas : option Z
}.

(** A [JsonRpcProvider] as constructed by [getProvider]: what was passed
    as URL, and the [chainId] (NaN is [None]) and [name] of its network. *)
Record provider : Type := {
  pv_url : property string;
  pv_chainId : option Z;
  pv_name : string
}.

Record wallet : Type := {
  wl_privateKey : string;
  wl_provider : provider;
  wl_address : string
}.

Inductive abi : Type := AbiBridgeNative | AbiERC20 | AbiBridgeERC20.

(** [ct_target] is what was passed as the address: a string, an object,
    or [null]/[undefined]. *)
Record contract : Type := {
  ct_target : property string;
  ct_abi : abi;
  ct_runner : wallet
}.

(** An argument of a contract call: [undefined], a Number, a string, a
    BigInt, or the member of [Object.prototype] that a table read found. *)
Inductive arg : Type :=
  | ArgUndefined
  | ArgNum (n : Z)
  | ArgAddr (a : string)
  | ArgBig (n : Z)
  | ArgInherited (name : string).

(** The trailing overrides object of a contract call. *)
Record txOverrides : Type := {
  ov_value : option Z;
  ov_maxFeePerGas : jsnum;
  ov_maxPriorityFeePerGas : jsnum;
  ov_gasLimit : jsnum
}.

(** The fields of a [TransactionResponse] that the module reads. *)
Record txResponse : Type := {
  tx_hash : string;
  tx_gasLimit : Z;
  tx_maxFeePerGas : option Z;
  tx_maxPriorityFeePerGas : option Z
}.

(** The fields of a [TransactionReceipt] that the module reads;
    [status] is [1], [0] or [null]. *)
Record receipt : Type := {
  rc_hash : string;
  rc_status : option Z;
  rc_gasUsed : Z
}.

(** ** Remote calls and their history *)

Inductive event : Type :=
  | EvProbe (p : provider) (r : result unit)
  | EvFeeData (p : provider) (r : result feeData)
  | EvRead (c : contract) (method : string) (args : list arg) (r : result Z)
  | EvSend (c : contract) (method : string) (args : list arg)
           (ov : txOverrides) (r : result txResponse)
  | EvWait (tx : txResponse) (r : result receipt).

(** The remote chain.  Every answer may depend on everything that was
    asked before, so any sequential behaviour of the nodes is an instance.
    [net_probe] is the race of [provider.getBlockNumber()] against the
    [RPC_TIMEOUTS.request] timer: [Ok] when the block number wins. *)
Class Network : Type := {
  net_probe : list event -> provider -> result unit;
  net_getFeeData : list event -> provider -> result feeData;
  net_read : list event -> contract -> string -> list arg -> result Z;
  net_send : list event -> contract -> string -> list arg -> txOverrides ->
             result txResponse;
  net_wait : list event -> txResponse -> result receipt
}.

(** The local functions of the ethers library and of the language that the
    module calls.  None of them touches the network; each may throw. *)
Class Ethers : Type := {
  JsonRpcProvider_throws : property string -> option Z -> string ->
                           option error;
  Wallet_address : string -> result string;
  getAddress : string -> result string;
  Contract_throws : property string -> abi -> option error;
  parseEther : string -> result Z;
  parseUnits : string -> Z -> result Z;
  formatUnits : option jsnum -> Z -> result string;
  toLowerCase : string -> string
}.

(** Modelled from the spec: [config.js] is imported by [utils.js] but is not
    among the source files.  The spec describes it as static tables: chain
    identifier to numeric chain ID and RPC URL(s), per-chain bridge contract
    address, per-chain wrapped-token address table.  Each table is a
    plain object (its prototype is [Object.prototype]) given by its own
    entries; the module reads it through [get].  [GAS_SETTINGS],
    [RPC_TIMEOUTS] and [TRANSACTION_SETTINGS] are never read for a value
    that the control flow depends on. *)
Class Config : Type := {
  CHAINS : gmap string Z;
  RPC_URLS : gmap string string;
  RPC_FALLBACKS : gmap string (list string);
  UNION_CONTRACT : gmap string string;
  TOKENS_WETH : gmap string string
}.

Record state : Type := {
  providerCache : gmap string provider;
  trace : list event
}.

Definition initial_state : state :=
  {| providerCache := ∅; trace := [] |}.

(** ** The monad of [async] functions *)

Definition M (A : Type) : Type := state -> result A * state.

Definition ret {A} (a : A) : M A := fun st => (Ok a, st).

Definition throw {A} (e : error) : M A := fun st => (Err e, st).

Definition bind {A B} (m : M A) (f : A -> M B) : M B :=
  fun st =>
    match m st with
    | (Ok a, st') => f a st'
    | (Err e, st') => (Err e, st')
    end.

(** [try { m } catch (error) { h error }] *)
Definition try_catch {A} (m : M A) (h : error -> M A) : M A :=
  fun st =>
    match m st with
    | (Ok a, st') => (Ok a, st')
    | (Err e, st') => h e st'
    end.

(** A local call that returns or throws. *)
Definition lift {A} (r : result A) : M A := fun st => (r, st).

(** A constructor that throws or not. *)
Definition guard (r : option error) : M unit :=
  match r with
  | Some e => throw e
  | None => ret tt
  end.

Declare Scope js_scope.
Delimit Scope js_scope with js.
Notation "x <- m ;; k" := (bind m (fun x => k))
  (at level 100, m at next level, right associativity) : js_scope.
Notation "m ;; k" := (bind m (fun _ => k))
  (at level 100, right associativity) : js_scope.
Local Open Scope js_scope.

(** An awaited remote call: ask the network, record the call. *)
Definition remote {A} (ask : list event -> result A)
    (record : result A -> event) : M A :=
  fun st =>
    let r := ask (trace st) in
    (r, {| providerCache := providerCache st;
           trace := trace st ++ [record r] |}).

(** ** [debugLog] *)

(** A value of the data object handed to [debugLog], as far as
    [JSON.stringify] cares: a string, a number, or anything else that it
    prints or skips.  It throws a TypeError on a BigInt.  What is printed
    on the console is not modelled. *)
Inductive logval : Type :=
  | LStr
  | LNum (v : jsnum)
  | LOther.

(** [safeData] replaces a truthy [value] or [amount] by its string. *)
Definition serialisable (field : string * logval) : bool :=
  match field with
  | (k, LNum (JBigInt n)) =>
      ((k =? "value")%string || (k =? "amount")%string) && negb (n =? 0)
  | _ => true
  end.

Definition debugLog (msg : string) (data : list (string * logval)) : M unit :=
  if forallb serialisable data then ret tt
  else throw (JsTypeError "Do not know how to serialize a BigInt").

(** ** [getGasParams] *)

(** [ethers.parseUnits(n, "gwei")] for the two literals of the module. *)
Definition gwei (n : Z) : Z := n * 10 ^ 9.

(** The unit ["gwei"] of [formatUnits] is nine decimals. *)
Definition gwei_unit : Z := 9.

(** [live * 125n / 100n]: mixing [null] with a BigInt throws; BigInt
    division truncates toward zero. *)
Definition markup (live : option Z) : result Z :=
  match live with
  | Some v => Ok (Z.quot (v * 125) 100)
  | None =>
      Err (JsTypeError "Cannot mix BigInt and other types, use explicit conversions")
  end.

(** [override || (live * 125n / 100n) || fallback] *)
Definition fee_or (override : option jsnum) (live : option Z) (fallback : Z)
    : result jsnum :=
  match override with
  | Some v =>
      if truthy v then Ok v
      else match markup live with
           | Ok m => Ok (if truthy (JBigInt m) then JBigInt m else JBigInt fallback)
           | Err e => Err e
           end
  | None =>
      match markup live with
      | Ok m => Ok (if truthy (JBigInt m) then JBigInt m else JBigInt fallback)
      | Err e => Err e
      end
  end.

(** [overrideSettings.gasLimit || 500000] *)
Definition gasLimit_or (override : option jsnum) : jsnum :=
  match override with
  | Some v => if truthy v then v else JNumber 500000
  | None => JNumber 500000
  end.

Definition default_gasParams : gasParams :=
  {| maxFeePerGas := JBigInt (gwei 20);
     maxPriorityFeePerGas := JBigInt (gwei 15);
     gasLimit := JNumber 500000 |}.

(** ** The transfer request *)

(** The destructured parameter of [sendToken]. [amount] is the decimal
    string of the request; [None] is [null] or [undefined]. *)
Record request : Type := {
  sourceChain : string;
  destChain : string;
  asset : string;
  amount : string;
  privateKey : option string;
  gasSettings : feeOverrides;
  recipient : option string;
  referral : option string
}.

(** [[0-9a-fA-F]] *)
Definition is_hex_digit (c : ascii) : bool :=
  let n := nat_of_ascii c in
  ((48 <=? n) && (n <=? 57) || (65 <=? n) && (n <=? 70)
   || (97 <=? n) && (n <=? 102))%nat.

Fixpoint all_hex (s : string) : bool :=
  match s with
  | EmptyString => true
  | String c s' => is_hex_digit c && all_hex s'
  end.

(** [/^0x[0-9a-fA-F]{64}$/]; without the [m] flag [$] is the end of input. *)
Definition matches_key_pattern (s : string) : bool :=
  match s with
  | String "0" (String "x" digits) =>
      (String.length digits =? 64)%nat && all_hex digits
  | _ => false
  end.

(** ToBoolean of [CHAINS[chainId]]: a number other than 0, or an object. *)
Definition chain_ok (n : property Z) : bool :=
  match n with
  | Own n => truthy (JNumber n)
  | Inherited _ => true
  | Undefined => false
  end.

(** [CHAINS[destChain]] as an argument. *)
Definition arg_of_num (n : property Z) : arg :=
  match n with
  | Own n => ArgNum n
  | Inherited name => ArgInherited name
  | Undefined => ArgUndefined
  end.

(** [bridgeAddress] or [tokenAddress] as an argument. *)
Definition arg_of_addr (a : property string) : arg :=
  match a with
  | Own a => ArgAddr a
  | Inherited name => ArgInherited name
  | Undefined => ArgUndefined
  end.

(** Spreading a value that is not iterable.  The text of the message is
    the engine's. *)
Definition not_iterable : error :=
  JsTypeError "Spread syntax requires ...iterable[Symbol.iterator] to be a function".

(** [ethers.ZeroAddress] *)
Definition ZeroAddress : string :=
  "0x0000000000000000000000000000000000000000".

(** [referral || ethers.ZeroAddress] *)
Definition referral_or_zero (referral : option string) : string :=
  match referral with
  | Some r => if truthy_str (Some r) then r else ZeroAddress
  | None => ZeroAddress
  end.

Section Program.

Context {lib : Ethers} {net : Network} {cfg : Config}.

Definition getFeeData (p : provider) : M feeData :=
  remote (fun t => net_getFeeData t p) (EvFeeData p).

Definition getGasParams (p : provider) (overrideSettings : feeOverrides)
    : M gasParams :=
  try_catch
    (feeData <- getFeeData p ;;
     mf <- lift (fee_or (o_maxFeePerGas overrideSettings)
                        (fd_maxFeePerGas feeData) (gwei 20)) ;;
     mp <- lift (fee_or (o_maxPriorityFeePerGas overrideSettings)
                        (fd_maxPriorityFeePerGas feeData) (gwei 15)) ;;
     let calculatedParams :=
       {| maxFeePerGas := mf;
          maxPriorityFeePerGas := mp;
          gasLimit := gasLimit_or (o_gasLimit overrideSettings) |} in
     lift (formatUnits (Some mf) gwei_unit) ;;
     lift (formatUnits (Some mp) gwei_unit) ;;
     debugLog "Calculated gas parameters"
       [("maxFeeGwei", LStr); ("maxPriorityGwei", LStr);
        ("gasLimit", LNum (gasLimit calculatedParams))] ;;
     ret calculatedParams)
    (fun error =>
       debugLog "Failed to get dynamic gas params, using defaults"
         [("error", LStr)] ;;
       ret default_gasParams).

(** ** [getProvider] *)

(** [...(RPC_FALLBACKS[chainId] || [])]: the elements that the spread
    contributes.  An array is truthy even when empty; an inherited member
    is truthy and is not iterable, so that spreading it throws. *)
Definition fallbacks (chainId : string) : result (list string) :=
  match get RPC_FALLBACKS chainId with
  | Own urls => Ok urls
  | Inherited _ => Err not_iterable
  | Undefined => Ok []
  end.

(** The array [[RPC_URLS[chainId], ...(RPC_FALLBACKS[chainId] || []),
    'https://ethereum-sepolia.publicnode.com']] before [.filter(Boolean)]. *)
Definition candidates (chainId : string) : result (list (property string)) :=
  match fallbacks chainId with
  | Ok urls =>
      Ok ([get RPC_URLS chainId]
          ++ map Own urls
          ++ [Own "https://ethereum-sepolia.publicnode.com"%string])
  | Err e => Err e
  end.

(** [.filter(Boolean)] *)
Fixpoint filter_Boolean (l : list (property string))
    : list (property string) :=
  match l with
  | [] => []
  | v :: l' =>
      if truthy_ref v then v :: filter_Boolean l' else filter_Boolean l'
  end.

Definition endpoints (chainId : string) : result (list (property string)) :=
  match candidates chainId with
  | Ok l => Ok (filter_Boolean l)
  | Err e => Err e
  end.

(** [new ethers.JsonRpcProvider(url, { chainId, name })] *)
Definition JsonRpcProvider (url : property string) (chainId : option Z)
    (name : string) : M provider :=
  guard (JsonRpcProvider_throws url chainId name) ;;
  ret {| pv_url := url; pv_chainId := chainId; pv_name := name |}.

(** The awaited [Promise.race] of the block-number read and the timer. *)
Definition probe (p : provider) : M unit :=
  remote (fun t => net_probe t p) (EvProbe p).

(** [providerCache.set(chainId, provider)] *)
Definition providerCache_set (chainId : string) (p : provider) : M unit :=
  fun st =>
    (Ok tt, {| providerCache := <[chainId := p]> (providerCache st);
               trace := trace st |}).

(** The [for (const url of endpoints)] loop and the [throw] after it. *)
Fixpoint getProvider_loop (chainId : string) (urls : list (property string))
    : M provider :=
  match urls with
  | [] => throw (AllRpcEndpointsFailed chainId)
  | url :: rest =>
      try_catch
        (provider <- JsonRpcProvider url (Number (get CHAINS chainId))
                       (toLowerCase chainId) ;;
         probe provider ;;
         debugLog "Connected to RPC" [("url", LStr); ("chainId", LStr)] ;;
         providerCache_set chainId provider ;;
         ret provider)
        (fun error =>
           debugLog "RPC endpoint failed" [("url", LStr); ("error", LStr)] ;;
           getProvider_loop chainId rest)
  end.

Definition getProvider (chainId : string) : M provider :=
  fun st =>
    match providerCache st !! chainId with
    | None =>
        (urls <- lift (endpoints chainId) ;; getProvider_loop chainId urls) st
    | Some p => (Ok p, st)
    end.

(** ** [executeTransaction] *)

Definition send (c : contract) (method : string) (args : list arg)
    (ov : txOverrides) : M txResponse :=
  remote (fun t => net_send t c method args ov) (EvSend c method args ov).

(** [txResponse.wait()] *)
Definition wait (tx : txResponse) : M receipt :=
  remote (fun t => net_wait t tx) (EvWait tx).

Definition executeTransaction (c : contract) (method : string)
    (args : list arg) (overrides : txOverrides) (operationName : string)
    : M receipt :=
  txResponse <- send c method args overrides ;;
  lift (formatUnits (option_map JBigInt (tx_maxFeePerGas txResponse))
          gwei_unit) ;;
  lift (formatUnits (option_map JBigInt (tx_maxPriorityFeePerGas txResponse))
          gwei_unit) ;;
  debugLog "Transaction submitted"
    [("operation", LStr); ("hash", LStr); ("gasLimit", LStr);
     ("maxFeePerGas", LStr); ("maxPriorityFeePerGas", LStr)] ;;
  receipt <- wait txResponse ;;
  debugLog "Transaction mined"
    [("status", LStr); ("confirmations", LOther); ("gasUsed", LStr)] ;;
  if bool_decide (rc_status receipt = Some 1) then ret receipt
  else throw TransactionFailedOnChain.

(** ** [sendToken] *)

(** [new ethers.Wallet(privateKey, provider)] and [wallet.getAddress()] *)
Definition Wallet (key : string) (p : provider) : M wallet :=
  a <- lift (Wallet_address key) ;;
  ret {| wl_privateKey := key; wl_provider := p; wl_address := a |}.

(** [new ethers.Contract(target, abi, wallet)] *)
Definition Contract (target : property string) (a : abi) (w : wallet)
    : M contract :=
  guard (Contract_throws target a) ;;
  ret {| ct_target := target; ct_abi := a; ct_runner := w |}.

(** An awaited read-only contract call. *)
Definition read (c : contract) (method : string) (args : list arg) : M Z :=
  remote (fun t => net_read t c method args) (EvRead c method args).

(** [{ ...gasParams }] with an optional [value] and [gasLimit]. *)
Definition spread (value : option Z) (g : gasParams) (limit : option jsnum)
    : txOverrides :=
  {| ov_value := value;
     ov_maxFeePerGas := maxFeePerGas g;
     ov_maxPriorityFeePerGas := maxPriorityFeePerGas g;
     ov_gasLimit := default (gasLimit g) limit |}.

(** Lines 157-195: the branch [if (isNative)]. *)
Definition sendToken_native (rq : request) (w : wallet)
    (recipientAddress : string) (bridgeAddress : property string)
    (g : gasParams) : M string :=
  bridge <- Contract bridgeAddress AbiBridgeNative w ;;
  tx <- try_catch
          (value <- lift (parseEther (amount rq)) ;;
           executeTransaction bridge "depositNative"
             [arg_of_num (get CHAINS (destChain rq));
              ArgAddr recipientAddress;
              ArgAddr (referral_or_zero (referral rq))]
             (spread (Some value) g None)
             "nativeDeposit")
          (fun _ =>
             value <- lift (parseEther (amount rq)) ;;
             executeTransaction bridge "depositNative"
               [arg_of_num (get CHAINS (destChain rq));
                ArgAddr recipientAddress]
               (spread (Some value) g None)
               "nativeDeposit") ;;
  ret (rc_hash tx).

(** Lines 197-281: the ERC20 transfer, WETH included. *)
Definition sendToken_erc20 (rq : request) (w : wallet)
    (senderAddress recipientAddress : string)
    (bridgeAddress : property string) (g : gasParams)
    (isWETH : bool) (tokenAddress : property string) : M string :=
  erc20 <- Contract tokenAddress AbiERC20 w ;;
  decimals <- try_catch (read erc20 "decimals" []) (fun _ => ret 18) ;;
  parsedAmount <- lift (parseUnits (amount rq) decimals) ;;
  balance <- read erc20 "balanceOf" [ArgAddr senderAddress] ;;
  (if balance <? parsedAmount then
     has <- lift (formatUnits (Some (JBigInt balance)) decimals) ;;
     throw (InsufficientBalance (amount rq) has)
   else ret tt) ;;
  allowance <- read erc20 "allowance"
                 [ArgAddr senderAddress; arg_of_addr bridgeAddress] ;;
  (if allowance <? parsedAmount then
     executeTransaction erc20 "approve"
       [arg_of_addr bridgeAddress; ArgBig (parsedAmount * 2)]
       (spread None g (Some (JNumber (if isWETH then 200000 else 100000))))
       "tokenApproval" ;;
     ret tt
   else ret tt) ;;
  bridge <- Contract bridgeAddress AbiBridgeERC20 w ;;
  tx <- try_catch
          (executeTransaction bridge "depositERC20"
             [arg_of_addr tokenAddress; ArgBig parsedAmount;
              arg_of_num (get CHAINS (destChain rq)); ArgAddr recipientAddress;
              ArgAddr (referral_or_zero (referral rq))]
             (spread None g (Some (JNumber (if isWETH then 350000 else 300000))))
             "tokenBridgeTransfer")
          (fun _ =>
             executeTransaction bridge "depositERC20"
               [arg_of_addr tokenAddress; ArgBig parsedAmount;
                arg_of_num (get CHAINS (destChain rq));
                ArgAddr recipientAddress]
               (spread None g (Some (JNumber (if isWETH then 350000 else 300000))))
               "tokenBridgeTransfer") ;;
  ret (rc_hash tx).

(** Lines 124-155 and the dispatch: everything inside the outer [try]. *)
Definition sendToken_body (rq : request) : M string :=
  debugLog "Starting bridge transfer"
    [("sourceChain", LStr); ("destChain", LStr); ("asset", LStr);
     ("amount", LStr); ("recipient", LOther); ("referral", LOther)] ;;
  (if negb (chain_ok (get CHAINS (sourceChain rq)))
      || negb (chain_ok (get CHAINS (destChain rq)))
   then throw (InvalidChainConfiguration (sourceChain rq) (destChain rq))
   else ret tt) ;;
  key <- match privateKey rq with
         | Some k =>
             if matches_key_pattern k then ret k
             else throw InvalidPrivateKeyFormat
         | None => throw InvalidPrivateKeyFormat
         end ;;
  provider <- getProvider (sourceChain rq) ;;
  wallet <- Wallet key provider ;;
  let senderAddress := wl_address wallet in
  recipientAddress <- match recipient rq with
                      | Some r =>
                          if truthy_str (Some r) then lift (getAddress r)
                          else ret senderAddress
                      | None => ret senderAddress
                      end ;;
  gasParams <- getGasParams provider (gasSettings rq) ;;
  let bridgeAddress := get UNION_CONTRACT (sourceChain rq) in
  (if truthy_ref bridgeAddress then ret tt
   else throw (MissingBridgeAddress (sourceChain rq))) ;;
  let isNative :=
    ((asset rq =? "native") || (asset rq =? "NATIVE"))%string in
  let isWETH := (asset rq =? "WETH")%string in
  let tokenAddress :=
    if isNative then Undefined
    else if isWETH then get TOKENS_WETH (sourceChain rq)
    else Own (asset rq) in
  if isNative then
    sendToken_native rq wallet recipientAddress bridgeAddress gasParams
  else
    sendToken_erc20 rq wallet senderAddress recipientAddress bridgeAddress
      gasParams isWETH tokenAddress.

Definition sendToken (rq : request) : M string :=
  try_catch (sendToken_body rq)
    (fun error =>
       debugLog "Bridge transfer failed"
         [("error", LOther); ("troubleshooting", LOther)] ;;
       throw error).

End Program.

(** ** Observations on a run *)

(** The remote calls made between two states of one run. *)
Definition events_since (st st' : state) : list event :=
  drop (length (trace st)) (trace st').

Definition is_probe (e : event) : bool :=
  match e with EvProbe _ _ => true | _ => false end.

Definition is_wait (e : event) : bool :=
  match e with EvWait _ _ => true | _ => false end.

(** What [getProvider] and [getGasParams] ask: no contract is involved. *)
Definition is_setup (e : event) : bool :=
  match e with EvProbe _ _ | EvFeeData _ _ => true | _ => false end.

(** What [executeTransaction] asks. *)
Definition is_tx (e : event) : bool :=
  match e with EvSend _ _ _ _ _ | EvWait _ _ => true | _ => false end.

(** A submitted transaction: a contract call that is not a read. *)
Definition is_send (e : event) : bool :=
  match e with EvSend _ _ _ _ _ => true | _ => false end.

Definition is_approval (e : event) : bool :=
  match e with
  | EvSend _ method _ _ _ => (method =? "approve")%string
  | _ => false
  end.

Definition is_deposit (e : event) : bool :=
  match e with
  | EvSend _ method _ _ _ =>
      ((method =? "depositNative") || (method =? "depositERC20"))%string
  | _ => false
  end.

(** [JSON.stringify] of the log line of [getGasParams] goes through. *)
Definition is_bigint (v : jsnum) : bool :=
  match v with JBigInt _ => true | JNumber _ => false end.

(** What [erc20.decimals().catch(() => 18)] settles to. *)
Definition decimals_or_18 (r : result Z) : Z :=
  match r with Ok d => d | Err _ => 18 end.

(** The pattern of the signing key, as the spec words it: [0x] followed by
    64 hex digits. *)
Definition hex_key (s : string) : Prop :=
  exists digits : list ascii,
    s = String "0" (String "x" (string_of_list_ascii digits))
    /\ length digits = 64%nat
    /\ Forall (fun c => is_hex_digit c = true) digits.

Definition is_validation_error (e : error) : Prop :=
  match e with
  | InvalidChainConfiguration _ _ => True
  | InvalidPrivateKeyFormat => True
  | _ => False
  end.

(** Every cached connection answered a liveness probe earlier in the run. *)
Definition cache_probed (st : state) : Prop :=
  forall chainId p,
    providerCache st !! chainId = Some p -> In (EvProbe p (Ok tt)) (trace st).

(** The two exported functions of the module. *)
Inductive api_call : Type :=
  | CallGetProvider (chainId : string)
  | CallSendToken (rq : request).

(** A sequence of calls from outside, one after the other, whatever each
    returns. *)
Fixpoint run_calls `{Ethers, Network, Config}
    (calls : list api_call) (st : state) : state :=
  match calls with
  | [] => st
  | CallGetProvider c :: rest => run_calls rest (snd (getProvider c st))
  | CallSendToken rq :: rest => run_calls rest (snd (sendToken rq st))
  end.

(** The connection that the loop of [getProvider] builds for a URL. *)
Definition connection `{Ethers, Config} (chainId : string)
    (url : property string) : provider :=
  {| pv_url := url; pv_chainId := Number (get CHAINS chainId);
     pv_name := toLowerCase chainId |}.

(** The constructor accepts the URL, so that the URL is probed. *)
Definition constructible `{Ethers, Config} (chainId : string)
    (url : property string) : bool :=
  match JsonRpcProvider_throws url (Number (get CHAINS chainId))
          (toLowerCase chainId) with
  | None => true
  | Some _ => false
  end.

Definition is_failed_probe (e : event) : bool :=
  match e with EvProbe _ (Err _) => true | _ => false end.

Definition probed_url (e : event) : option (property string) :=
  match e with EvProbe p _ => Some (pv_url p) | _ => None end.

(** The deposit call carries the referral argument: the three-argument
    [depositNative] and the five-argument [depositERC20]. *)
Definition with_referral (method : string) (args : list arg) : bool :=
  ((method =? "depositNative")%string && (length args =? 3)%nat)
  || ((method =? "depositERC20")%string && (length args =? 5)%nat).

(** [tx.hash] of what [executeTransaction] returned or threw. *)
Definition hash_of (r : result receipt) : result string :=
  match r with
  | Ok rc => Ok (rc_hash rc)
  | Err e => Err e
  end.

(** ** Further observations *)

(** An override key that [||] lets through: present and truthy. *)
Definition supplied (o : option jsnum) : bool :=
  match o with
  | Some v => truthy v
  | None => false
  end.

(** The overrides object without its falsy entries. *)
Definition drop_falsy (ov : feeOverrides) : feeOverrides :=
  {| o_maxFeePerGas :=
       if supplied (o_maxFeePerGas ov) then o_maxFeePerGas ov else None;
     o_maxPriorityFeePerGas :=
       if supplied (o_maxPriorityFeePerGas ov) then o_maxPriorityFeePerGas ov
       else None;
     o_gasLimit := if supplied (o_gasLimit ov) then o_gasLimit ov else None |}.

(** [x || fallback] on a BigInt. *)
Definition bigint_or (x fallback : Z) : Z := if x =? 0 then fallback else x.

Definition is_read (e : event) : bool :=
  match e with EvRead _ _ _ _ => true | _ => false end.

Definition is_feeData (e : event) : bool :=
  match e with EvFeeData _ _ => true | _ => false end.

(** [asset === 'native' || asset === 'NATIVE'] *)
Definition isNative (a : string) : bool :=
  ((a =? "native") || (a =? "NATIVE"))%string.

(** [isNative ? null : (isWETH ? TOKENS.WETH[sourceChain] : asset)] *)
Definition tokenAddress `{Config} (rq : request) : property string :=
  if isNative (asset rq) then Undefined
  else if (asset rq =? "WETH")%string then get TOKENS_WETH (sourceChain rq)
  else Own (asset rq).

(** [recipient ? ethers.getAddress(recipient) : senderAddress] *)
Definition recipientAddress `{Ethers} (rq : request) (senderAddress : string)
    : result string :=
  match recipient rq with
  | Some r => if truthy_str (Some r) then getAddress r else Ok senderAddress
  | None => Ok senderAddress
  end.

(** The hardcoded last candidate of [getProvider]. *)
Definition public_endpoint : property string :=
  Own "https://ethereum-sepolia.publicnode.com".

(** ** A concrete configuration, library and network

    Used to run the model on examples. *)
Module Demo.

Definition cfg : Config :=
  {| CHAINS := {[ "SEPOLIA" := 11155111; "HOLESKY" := 17000 ]};
     RPC_URLS := {[ "SEPOLIA" := "https://primary.example" ]};
     RPC_FALLBACKS := {[ "SEPOLIA" := ["https://fallback.example"] ]};
     UNION_CONTRACT := {[ "SEPOLIA" := "0xB21d9e0000000000000000000000000000000001" ]};
     TOKENS_WETH := {[ "SEPOLIA" := "0x7b79995e5f793A07Bc00c21412e50Ecae098E7f9" ]} |}.

Fixpoint digits_value (s : string) (acc : Z) : option Z :=
  match s with
  | EmptyString => Some acc
  | String c s' =>
      let n := nat_of_ascii c in
      if ((48 <=? n) && (n <=? 57))%nat
      then digits_value s' (acc * 10 + Z.of_nat (n - 48))
      else None
  end.

(** Whole, unsigned amounts only. *)
Definition parse (s : string) (decimals : Z) : result Z :=
  match s with
  | EmptyString => Err (External "invalid FixedNumber string value")
  | _ =>
      match digits_value s 0 with
      | Some n => Ok (n * 10 ^ decimals)
      | None => Err (External "invalid FixedNumber string value")
      end
  end.

Fixpoint show_digits (fuel : nat) (n : Z) (acc : string) : string :=
  match fuel with
  | O => acc
  | S fuel' =>
      let acc' := String (ascii_of_nat (48 + Z.to_nat (n mod 10))) acc in
      if n / 10 =? 0 then acc' else show_digits fuel' (n / 10) acc'
  end.

Definition show (n : Z) : string :=
  show_digits (S (Z.to_nat (Z.log2 n))) n "".

(** Integer part, a point, the fraction without its trailing zeros. *)
Fixpoint show_fraction (fuel : nat) (scale frac : Z) : string :=
  match fuel with
  | O => ""
  | S fuel' =>
      let scale' := scale / 10 in
      if (frac =? 0) || (scale' =? 0) then ""
      else String (ascii_of_nat (48 + Z.to_nat (frac / scale')))
                  (show_fraction fuel' scale' (frac mod scale'))
  end.

Definition format (v : option jsnum) (decimals : Z) : result string :=
  match v with
  | Some (JBigInt n) | Some (JNumber n) =>
      if (n <? 0) || (decimals <? 0) then Err (External "unsupported")
      else
        let scale := 10 ^ decimals in
        let frac := show_fraction (Z.to_nat decimals) scale (n mod scale) in
        Ok (show (n / scale) ++ "."
            ++ (if (frac =? "")%string then "0" else frac))%string
  | None => Err (External "invalid BigNumberish value")
  end.

(** Lower case of the letters A to Z. *)
Fixpoint lower (s : string) : string :=
  match s with
  | EmptyString => EmptyString
  | String c s' =>
      let n := nat_of_ascii c in
      String (if ((65 <=? n) && (n <=? 90))%nat then ascii_of_nat (n + 32)
              else c)
             (lower s')
  end.

Definition lib : Ethers :=
  {| JsonRpcProvider_throws := fun url n _ =>
       match url, n with
       | Own _, Some _ => None
       | Own _, None => Some (External "invalid network object chainId")
       | _, _ => Some (JsTypeError "url.clone is not a function")
       end;
     Wallet_address := fun _ => Ok "0x5AEDA56215b167893e80B4fE645BA6d5Bab767DE";
     getAddress := fun a => Ok a;
     Contract_throws := fun t _ =>
       match t with
       | Own _ => None
       | _ => Some (External "invalid value for Contract target")
       end;
     parseEther := fun s => parse s 18;
     parseUnits := parse;
     formatUnits := format;
     toLowerCase := lower |}.

(** How the remote side behaves in one example. *)
Record scenario : Type := {
  sc_alive : string -> bool;
  sc_fee : result feeData;
  sc_decimals : result Z;
  sc_balance : Z;
  sc_allowance : Z;
  sc_accepts : list arg -> bool;
  sc_status : Z
}.

Definition net (s : scenario) : Network :=
  {| net_probe := fun _ p =>
       match pv_url p with
       | Own url =>
           if sc_alive s url then Ok tt else Err (External "RPC timeout")
       | _ => Err (External "RPC timeout")
       end;
     net_getFeeData := fun _ _ => sc_fee s;
     net_read := fun _ _ method _ =>
       if (method =? "decimals")%string then sc_decimals s
       else if (method =? "balanceOf")%string then Ok (sc_balance s)
       else Ok (sc_allowance s);
     net_send := fun t _ method args ov =>
       if sc_accepts s args then
         Ok {| tx_hash := ("0xhash" ++ show (Z.of_nat (length t)))%string;
               tx_gasLimit := 21000;
               tx_maxFeePerGas := Some 12;
               tx_maxPriorityFeePerGas := Some 6 |}
       else Err (External "no matching fragment");
     net_wait := fun _ tx =>
       Ok {| rc_hash := tx_hash tx;
             rc_status := Some (sc_status s);
             rc_gasUsed := 21000 |} |}.

(** Everything answers; an account with 5 tokens of 6 decimals and no
    allowance. *)
Definition healthy : scenario :=
  {| sc_alive := fun _ => true;
     sc_fee := Ok {| fd_maxFeePerGas := Some 10;
                     fd_maxPriorityFeePerGas := Some 5 |};
     sc_decimals := Ok 6;
     sc_balance := 5000000;
     sc_allowance := 0;
     sc_accepts := fun _ => true;
     sc_status := 1 |}.

Definition with_alive (s : scenario) (f : string -> bool) : scenario :=
  {| sc_alive := f; sc_fee := sc_fee s; sc_decimals := sc_decimals s;
     sc_balance := sc_balance s; sc_allowance := sc_allowance s;
     sc_accepts := sc_accepts s; sc_status := sc_status s |}.

Definition with_fee (s : scenario) (f : result feeData) : scenario :=
  {| sc_alive := sc_alive s; sc_fee := f; sc_decimals := sc_decimals s;
     sc_balance := sc_balance s; sc_allowance := sc_allowance s;
     sc_accepts := sc_accepts s; sc_status := sc_status s |}.

Definition with_allowance (s : scenario) (a : Z) : scenario :=
  {| sc_alive := sc_alive s; sc_fee := sc_fee s; sc_decimals := sc_decimals s;
     sc_balance := sc_balance s; sc_allowance := a;
     sc_accepts := sc_accepts s; sc_status := sc_status s |}.

Definition with_accepts (s : scenario) (f : list arg -> bool) : scenario :=
  {| sc_alive := sc_alive s; sc_fee := sc_fee s; sc_decimals := sc_decimals s;
     sc_balance := sc_balance s; sc_allowance := sc_allowance s;
     sc_accepts := f; sc_status := sc_status s |}.

Definition with_status (s : scenario) (n : Z) : scenario :=
  {| sc_alive := sc_alive s; sc_fee := sc_fee s; sc_decimals := sc_decimals s;
     sc_balance := sc_balance s; sc_allowance := sc_allowance s;
     sc_accepts := sc_accepts s; sc_status := n |}.

(** A bridge that does not know the referral parameter. *)
Definition legacy_bridge (args : list arg) : bool :=
  negb ((length args =? 3)%nat || (length args =? 5)%nat).

Definition key : string :=
  "0x0123456789abcdef0123456789ABCDEF0123456789abcdef0123456789ABCDEF".

Definition transfer (a amt : string) : request :=
  {| sourceChain := "SEPOLIA"; destChain := "HOLESKY"; asset := a;
     amount := amt; privateKey := Some key; gasSettings := no_overrides;
     recipient := None; referral := None |}.

Definition provider_at (url : string) : provider :=
  {| pv_url := Own url; pv_chainId := Some 11155111; pv_name := "sepolia" |}.

Definition a_provider : provider := provider_at "https://primary.example".

Definition a_wallet : wallet :=
  {| wl_privateKey := key; wl_provider := a_provider;
     wl_address := "0x5AEDA56215b167893e80B4fE645BA6d5Bab767DE" |}.

Definition bridge (a : abi) : contract :=
  {| ct_target := Own "0xB21d9e0000000000000000000000000000000001";
     ct_abi := a; ct_runner := a_wallet |}.

Definition a_token : string := "0x1c7D4B196Cb0C7B01d743Fbc6116a902379C7238".

Definition erc20 : contract :=
  {| ct_target := Own a_token; ct_abi := AbiERC20; ct_runner := a_wallet |}.

(** The primary endpoint is down, the fallback answers. *)
Definition primary_down : scenario :=
  with_alive healthy (fun url => negb (url =? "https://primary.example")%string).

(** No endpoint answers. *)
Definition all_down : scenario := with_alive healthy (fun _ => false).

(** The bridge is an older one. *)
Definition legacy : scenario := with_accepts healthy legacy_bridge.

Definition sender : string := "0x5AEDA56215b167893e80B4fE645BA6d5Bab767DE".

Definition bridge_address : string :=
  "0xB21d9e0000000000000000000000000000000001".

Definition native_args : list arg :=
  [ArgNum 17000; ArgAddr sender; ArgAddr ZeroAddress].

Definition native_overrides : txOverrides :=
  {| ov_value := Some 1000000000000000000;
     ov_maxFeePerGas := JBigInt 12;
     ov_maxPriorityFeePerGas := JBigInt 6;
     ov_gasLimit := JNumber 500000 |}.

(** A chain without EIP-1559 fees: the live max fee is [null]. *)
Definition pre_1559 : scenario :=
  with_fee healthy (Ok {| fd_maxFeePerGas := None;
                          fd_maxPriorityFeePerGas := Some 5 |}).

(** The live priority fee is zero. *)
Definition no_tip : scenario :=
  with_fee healthy (Ok {| fd_maxFeePerGas := Some 10;
                          fd_maxPriorityFeePerGas := Some 0 |}).

(** The node rejects every submission. *)
Definition rejecting : scenario := with_accepts healthy (fun _ => false).

(** A node whose transaction responses carry no EIP-1559 fee fields. *)
Definition legacy_node : Network :=
  {| net_probe := fun _ _ => Ok tt;
     net_getFeeData := fun _ _ => sc_fee healthy;
     net_read := fun _ _ _ _ => Ok 0;
     net_send := fun _ _ _ _ _ =>
       Ok {| tx_hash := "0xhash"; tx_gasLimit := 21000;
             tx_maxFeePerGas := None; tx_maxPriorityFeePerGas := None |};
     net_wait := fun _ tx =>
       Ok {| rc_hash := tx_hash tx; rc_status := Some 1;
             rc_gasUsed := 21000 |} |}.

(** A token whose balance cannot be read. *)
Definition no_balance : Network :=
  {| net_probe := fun _ _ => Ok tt;
     net_getFeeData := fun _ _ => sc_fee healthy;
     net_read := fun _ _ method _ =>
       if (method =? "decimals")%string then Ok 6
       else Err (External "call revert exception");
     net_send := fun _ _ _ _ _ => Err (External "no matching fragment");
     net_wait := fun _ _ => Err (External "timeout") |}.

(** What the node of a scenario answers to the submission recorded as
    event number [n], and the receipt of that transaction. *)
Definition response (n : Z) : txResponse :=
  {| tx_hash := ("0xhash" ++ show n)%string; tx_gasLimit := 21000;
     tx_maxFeePerGas := Some 12; tx_maxPriorityFeePerGas := Some 6 |}.

Definition mined (n : Z) : receipt :=
  {| rc_hash := tx_hash (response n); rc_status := Some 1;
     rc_gasUsed := 21000 |}.

Definition token_overrides (limit : Z) : txOverrides :=
  {| ov_value := None;
     ov_maxFeePerGas := JBigInt 12;
     ov_maxPriorityFeePerGas := JBigInt 6;
     ov_gasLimit := JNumber limit |}.

Definition approve_args : list arg :=
  [ArgAddr bridge_address; ArgBig 6000000].

Definition deposit_args : list arg :=
  [ArgAddr a_token; ArgBig 3000000; ArgNum 17000; ArgAddr sender;
   ArgAddr ZeroAddress].

Definition weth : contract :=
  {| ct_target := Own "0x7b79995e5f793A07Bc00c21412e50Ecae098E7f9";
     ct_abi := AbiERC20; ct_runner := a_wallet |}.

Definition someone : string := "0x70997970C51812dc3A010C7d01b50e0d17dc79C8".

Definition a_referrer : string := "0x3C44CdDdB6a900fa2b585dd299e03d12FA4293BC".

(** A native transfer of 1 to [someone], with [a_referrer] as referral. *)
Definition gift : request :=
  {| sourceChain := "SEPOLIA"; destChain := "HOLESKY"; asset := "native";
     amount := "1"; privateKey := Some key; gasSettings := no_overrides;
     recipient := Some someone; referral := Some a_referrer |}.

(** A transfer from a chain that has no bridge contract configured. *)
Definition from_holesky : request :=
  {| sourceChain := "HOLESKY"; destChain := "SEPOLIA"; asset := "native";
     amount := "1"; privateKey := Some key; gasSettings := no_overrides;
     recipient := None; referral := None |}.

(** A native transfer to a destination that is not a chain of the
    configuration but a name that every object inherits. *)
Definition to_constructor : request :=
  {| sourceChain := "SEPOLIA"; destChain := "constructor"; asset := "native";
     amount := "1"; privateKey := Some key; gasSettings := no_overrides;
     recipient := None; referral := None |}.

Definition holesky_provider : provider :=
  {| pv_url := public_endpoint; pv_chainId := Some 17000;
     pv_name := "holesky" |}.

End Demo.


(** * Proofs *)

(** ** Running the monad *)

Section Run.

Context {lib : Ethers} {net : Network} {cfg : Config}.

Lemma bind_inv {A B} (m : M A) (f : A -> M B) st r st' :
  bind m f st = (r, st') ->
  (exists a st1, m st = (Ok a, st1) /\ f a st1 = (r, st'))
  \/ (exists e, m st = (Err e, st') /\ r = Err e).
Proof.
  unfold bind. destruct (m st) as [[a|e] st1]; intros H.
  - left. eauto.
  - right. inversion H; subst. eauto.
Qed.

Lemma try_catch_inv {A} (m : M A) (h : error -> M A) st r st' :
  try_catch m h st = (r, st') ->
  (exists a, m st = (Ok a, st') /\ r = Ok a)
  \/ (exists e st1, m st = (Err e, st1) /\ h e st1 = (r, st')).
Proof.
  unfold try_catch. destruct (m st) as [[a|e] st1]; intros H.
  - left. inversion H; subst. eauto.
  - right. eauto.
Qed.

Lemma remote_inv {A} (ask : list event -> result A) record st r st' :
  remote ask record st = (r, st') ->
  ask (trace st) = r
  /\ providerCache st' = providerCache st
  /\ trace st' = trace st ++ [record r].
Proof. unfold remote. intros H. inversion H; subst. auto. Qed.

Lemma lift_inv {A} (x : result A) st r st' :
  lift x st = (r, st') -> x = r /\ st' = st.
Proof. unfold lift. intros H. inversion H; auto. Qed.

Lemma ret_inv {A} (a : A) st r st' :
  ret a st = (r, st') -> r = Ok a /\ st' = st.
Proof. unfold ret. intros H. inversion H; auto. Qed.

Lemma throw_inv {A} (e : error) st (r : result A) st' :
  throw e st = (r, st') -> r = Err e /\ st' = st.
Proof. unfold throw. intros H. inversion H; auto. Qed.

Lemma guard_inv (o : option error) st r st' :
  guard o st = (r, st') ->
  st' = st /\ match o with Some e => r = Err e | None => r = Ok tt end.
Proof.
  destruct o; simpl; intros H.
  - apply throw_inv in H. tauto.
  - apply ret_inv in H. tauto.
Qed.

Lemma events_since_app st st' E :
  trace st' = trace st ++ E -> events_since st st' = E.
Proof.
  intros H. unfold events_since. rewrite H. apply drop_app_length.
Qed.

Lemma events_since_refl st : events_since st st = [].
Proof. apply events_since_app. now rewrite app_nil_r. Qed.

Lemma debugLog_inv msg data st r st' :
  debugLog msg data st = (r, st') ->
  st' = st
  /\ r = if forallb serialisable data then Ok tt
         else Err (JsTypeError "Do not know how to serialize a BigInt").
Proof.
  unfold debugLog. destruct (forallb serialisable data); intros H.
  - apply ret_inv in H. tauto.
  - apply throw_inv in H. tauto.
Qed.

End Run.

(** One step of a run: split the first construct of some computation among
    the hypotheses. *)
Ltac run_step :=
  match goal with
  | H : bind _ _ _ = _ |- _ =>
      apply bind_inv in H; destruct H as [(? & ? & ? & H) | (? & H & ?)]
  | H : try_catch _ _ _ = _ |- _ =>
      apply try_catch_inv in H; destruct H as [(? & H & ?) | (? & ? & ? & H)]
  | H : remote _ _ _ = _ |- _ =>
      apply remote_inv in H; destruct H as (? & ? & ?)
  | H : lift _ _ = _ |- _ => apply lift_inv in H; destruct H as [? ?]
  | H : ret _ _ = _ |- _ => apply ret_inv in H; destruct H as [? ?]
  | H : throw _ _ = _ |- _ => apply throw_inv in H; destruct H as [? ?]
  | H : guard _ _ = _ |- _ => apply guard_inv in H; destruct H as [? ?]
  | H : debugLog _ _ _ = _ |- _ =>
      apply debugLog_inv in H; simpl in H; destruct H as [? ?]
  | H : (match ?x with _ => _ end) _ = (_, _) |- _ => destruct x eqn:?
  end; simplify_eq.

Ltac run := repeat run_step.

(** Write every intermediate trace in terms of the first one, and every
    answer of the network by its value. *)
Ltac settle :=
  repeat match goal with
    | H : trace ?s = _ |- _ => try rewrite H in *; clear H
    end;
  rewrite <- ?app_assoc in *; simpl app in *;
  repeat match goal with
    | H : _ = Ok _ |- _ => rewrite H
    | H : _ = Err _ |- _ => rewrite H
    end.

Section ExecutorRun.

Context {lib : Ethers} {net : Network} {cfg : Config}.

(** The shape of every run of [executeTransaction]: one submission, then at
    most one wait, and a receipt only behind a status of 1. *)
Lemma executeTransaction_run c method args ov op st r st' :
  executeTransaction c method args ov op st = (r, st') ->
  let sent := EvSend c method args ov (net_send (trace st) c method args ov) in
  providerCache st' = providerCache st
  /\ ((trace st' = trace st ++ [sent] /\ exists e, r = Err e)
      \/ (exists tx,
            net_send (trace st) c method args ov = Ok tx
            /\ let rw := net_wait (trace st ++ [sent]) tx in
               trace st' = trace st ++ [sent; EvWait tx rw]
               /\ match rw with
                  | Ok rc =>
                      if bool_decide (rc_status rc = Some 1) then r = Ok rc
                      else r = Err TransactionFailedOnChain
                  | Err e => r = Err e
                  end)).
Proof.
  intros H; cbv zeta. unfold executeTransaction, send, wait in H.
  run; (split; [congruence|]); settle.
  all: try (left; split; [reflexivity | eauto]; fail).
  all: right; eexists; split; [reflexivity|]; settle.
  all: split; [reflexivity|]; try reflexivity.
  all: match goal with H : bool_decide _ = _ |- _ => rewrite H end.
  all: reflexivity.
Qed.

End ExecutorRun.

(** ** [executeTransaction] and the on-chain status *)

Section ExecutorStatus.

Context {lib : Ethers} {net : Network} {cfg : Config}.

Lemma executeTransaction_success c method args ov op st rc st' :
  executeTransaction c method args ov op st = (Ok rc, st') ->
  rc_status rc = Some 1
  /\ exists tx, In (EvWait tx (Ok rc)) (events_since st st').
Proof.
  intros H. apply executeTransaction_run in H. cbv zeta in H.
  destruct H as [_ [[_ [e He]] | (tx & Hs & Ht & Hr)]]; [discriminate|].
  rewrite (events_since_app _ _ _ Ht).
  destruct (net_wait _ tx) as [rc'|e]; [|discriminate].
  destruct (bool_decide (rc_status rc' = Some 1)) eqn:Hb; [|discriminate].
  apply bool_decide_eq_true in Hb. simplify_eq.
  split; [assumption|]. exists tx. simpl. auto.
Qed.

(** C2. Whenever [executeTransaction] obtained a receipt whose status is
    not 1 (the transaction was mined and reverted), the call throws
    "Transaction failed on-chain" and returns no receipt. *)
Theorem executeTransaction_reverted_is_failure
    c method args ov op st r st' tx rc :
  executeTransaction c method args ov op st = (r, st') ->
  In (EvWait tx (Ok rc)) (events_since st st') ->
  rc_status rc <> Some 1 ->
  r = Err TransactionFailedOnChain /\ forall rc', r <> Ok rc'.
Proof.
  intros H Hin Hst. apply executeTransaction_run in H. cbv zeta in H.
  destruct H as [_ [[Ht _] | (tx' & Hs & Ht & Hr)]];
    rewrite (events_since_app _ _ _ Ht) in Hin; simpl in Hin.
  - destruct Hin as [Hin | []]. discriminate.
  - destruct Hin as [Hin | [Hin | []]]; [discriminate|].
    injection Hin as -> Hrw. rewrite Hrw in Hr.
    rewrite bool_decide_eq_false_2 in Hr by assumption.
    subst r. split; [reflexivity | discriminate].
Qed.

End ExecutorStatus.

Lemma executeTransaction_reverted_is_failure_witness :
  fst (@executeTransaction Demo.lib (Demo.net (Demo.with_status Demo.healthy 0))
         (Demo.bridge AbiBridgeNative) "depositNative" [ArgNum 17000]
         (spread (Some 1) default_gasParams None) "nativeDeposit"
         initial_state)
  = Err TransactionFailedOnChain.
Proof.
  refine (proj1 (@executeTransaction_reverted_is_failure
           Demo.lib (Demo.net (Demo.with_status Demo.healthy 0))
           (Demo.bridge AbiBridgeNative) "depositNative" [ArgNum 17000]
           (spread (Some 1) default_gasParams None) "nativeDeposit"
           initial_state _ _
           {| tx_hash := "0xhash0"; tx_gasLimit := 21000;
              tx_maxFeePerGas := Some 12; tx_maxPriorityFeePerGas := Some 6 |}
           {| rc_hash := "0xhash0"; rc_status := Some 0;
              rc_gasUsed := 21000 |} _ _ _)).
  - vm_compute. reflexivity.
  - vm_compute. right. left. reflexivity.
  - discriminate.
Defined.

(** ** [getGasParams] *)

Section FeeEstimator.

Context {lib : Ethers} {net : Network} {cfg : Config}.

(** Every run reads the fee data once, leaves the cache alone and returns
    parameters. *)
Lemma getGasParams_run p ov st r st' :
  getGasParams p ov st = (r, st') ->
  providerCache st' = providerCache st
  /\ trace st' = trace st ++ [EvFeeData p (net_getFeeData (trace st) p)]
  /\ exists g, r = Ok g.
Proof.
  intros H. unfold getGasParams, getFeeData in H.
  run; settle; (split; [congruence|]); (split; [reflexivity|]); eauto.
Qed.

(** The [try] block, when nothing in it throws. *)
Lemma getGasParams_calculated p ov st fd mf mp s1 s2 :
  net_getFeeData (trace st) p = Ok fd ->
  fee_or (o_maxFeePerGas ov) (fd_maxFeePerGas fd) (gwei 20) = Ok mf ->
  fee_or (o_maxPriorityFeePerGas ov) (fd_maxPriorityFeePerGas fd) (gwei 15)
    = Ok mp ->
  formatUnits (Some mf) gwei_unit = Ok s1 ->
  formatUnits (Some mp) gwei_unit = Ok s2 ->
  is_bigint (gasLimit_or (o_gasLimit ov)) = false ->
  fst (getGasParams p ov st)
  = Ok {| maxFeePerGas := mf; maxPriorityFeePerGas := mp;
          gasLimit := gasLimit_or (o_gasLimit ov) |}.
Proof.
  intros Hfd Hmf Hmp Hs1 Hs2 Hgl.
  unfold getGasParams, try_catch, bind, getFeeData, remote, lift.
  rewrite Hfd, Hmf, Hmp, Hs1, Hs2.
  destruct (gasLimit_or (o_gasLimit ov)); [reflexivity | discriminate].
Qed.

Lemma markup_nonzero v : v <> 0 -> Z.quot (v * 125) 100 <> 0.
Proof.
  intros Hv Hq. apply Z.quot_small_iff in Hq; [|lia]. lia.
Qed.

Lemma fee_or_live v fallback :
  v <> 0 -> fee_or None (Some v) fallback = Ok (JBigInt (Z.quot (v * 125) 100)).
Proof.
  intros Hv. unfold fee_or, markup, truthy.
  pose proof (markup_nonzero v Hv) as Hq.
  apply Z.eqb_neq in Hq. now rewrite Hq.
Qed.

Lemma fee_or_override v live fallback r :
  truthy v = true -> fee_or (Some v) live fallback = Ok r -> r = v.
Proof. unfold fee_or. intros ->. congruence. Qed.

(** C7, amended. When the fee data read returns live values that are not
    zero, no override is supplied and the two calculated values can be
    formatted for the log line, [getGasParams] returns each live value times
    125 divided by 100 and a gas limit of 500000; live values 10 and 5 give
    12 and 6. *)
Theorem getGasParams_markup p st live_max live_priority s1 s2 :
  net_getFeeData (trace st) p
  = Ok {| fd_maxFeePerGas := Some live_max;
          fd_maxPriorityFeePerGas := Some live_priority |} ->
  live_max <> 0 ->
  live_priority <> 0 ->
  formatUnits (Some (JBigInt (Z.quot (live_max * 125) 100))) gwei_unit = Ok s1 ->
  formatUnits (Some (JBigInt (Z.quot (live_priority * 125) 100))) gwei_unit
  = Ok s2 ->
  fst (getGasParams p no_overrides st)
  = Ok {| maxFeePerGas := JBigInt (Z.quot (live_max * 125) 100);
          maxPriorityFeePerGas := JBigInt (Z.quot (live_priority * 125) 100);
          gasLimit := JNumber 500000 |}
  /\ (live_max = 10 -> live_priority = 5 ->
      fst (getGasParams p no_overrides st)
      = Ok {| maxFeePerGas := JBigInt 12; maxPriorityFeePerGas := JBigInt 6;
              gasLimit := JNumber 500000 |}).
Proof.
  intros Hfd Hm Hp Hs1 Hs2.
  assert (Hrun : fst (getGasParams p no_overrides st)
                 = Ok {| maxFeePerGas := JBigInt (Z.quot (live_max * 125) 100);
                         maxPriorityFeePerGas :=
                           JBigInt (Z.quot (live_priority * 125) 100);
                         gasLimit := JNumber 500000 |}).
  { apply (getGasParams_calculated p no_overrides st _ _ _ s1 s2 Hfd);
      try assumption; try reflexivity; apply fee_or_live; assumption. }
  split; [exact Hrun|]. intros -> ->. exact Hrun.
Qed.

(** C8. [getGasParams] returns parameters on every input and in every
    state, and they are the fixed fallbacks (20 gwei, 15 gwei, 500000)
    when the fee data read throws. *)
Theorem getGasParams_never_fails p ov st :
  (exists g, fst (getGasParams p ov st) = Ok g)
  /\ (forall e,
        net_getFeeData (trace st) p = Err e ->
        fst (getGasParams p ov st)
        = Ok {| maxFeePerGas := JBigInt 20000000000;
                maxPriorityFeePerGas := JBigInt 15000000000;
                gasLimit := JNumber 500000 |}).
Proof.
  split.
  - destruct (getGasParams p ov st) as [r st'] eqn:H.
    apply getGasParams_run in H. destruct H as (_ & _ & g & ->). eauto.
  - intros e He.
    unfold getGasParams, try_catch, bind, getFeeData, remote.
    rewrite He. reflexivity.
Qed.

(** C9, amended. When the [try] block of [getGasParams] runs to its end
    (the fee data read succeeds, both fee expressions evaluate, both values
    can be formatted for the log line and the gas limit is not a BigInt),
    every override that is supplied and not zero is the corresponding
    component of the result. *)
Theorem getGasParams_overrides p ov st fd mf mp s1 s2 :
  net_getFeeData (trace st) p = Ok fd ->
  fee_or (o_maxFeePerGas ov) (fd_maxFeePerGas fd) (gwei 20) = Ok mf ->
  fee_or (o_maxPriorityFeePerGas ov) (fd_maxPriorityFeePerGas fd) (gwei 15)
    = Ok mp ->
  formatUnits (Some mf) gwei_unit = Ok s1 ->
  formatUnits (Some mp) gwei_unit = Ok s2 ->
  is_bigint (gasLimit_or (o_gasLimit ov)) = false ->
  exists g,
    fst (getGasParams p ov st) = Ok g
    /\ (forall v, o_maxFeePerGas ov = Some v -> truthy v = true ->
                  maxFeePerGas g = v)
    /\ (forall v, o_maxPriorityFeePerGas ov = Some v -> truthy v = true ->
                  maxPriorityFeePerGas g = v)
    /\ (forall v, o_gasLimit ov = Some v -> truthy v = true ->
                  gasLimit g = v).
Proof.
  intros Hfd Hmf Hmp Hs1 Hs2 Hgl.
  eexists. split.
  - exact (getGasParams_calculated p ov st fd mf mp s1 s2
             Hfd Hmf Hmp Hs1 Hs2 Hgl).
  - simpl. repeat split; intros v Hv Ht.
    + rewrite Hv in Hmf. eauto using fee_or_override.
    + rewrite Hv in Hmp. eauto using fee_or_override.
    + unfold gasLimit_or. now rewrite Hv, Ht.
Qed.

End FeeEstimator.

Lemma getGasParams_markup_witness :
  fst (@getGasParams Demo.lib (Demo.net Demo.healthy)
         Demo.a_provider no_overrides initial_state)
  = Ok {| maxFeePerGas := JBigInt 12; maxPriorityFeePerGas := JBigInt 6;
          gasLimit := JNumber 500000 |}.
Proof.
  refine (proj2 (@getGasParams_markup Demo.lib (Demo.net Demo.healthy)
                   Demo.a_provider initial_state 10 5
                   "0.000000012" "0.000000006" _ _ _ _ _) _ _).
  - reflexivity.
  - lia.
  - lia.
  - vm_compute. reflexivity.
  - vm_compute. reflexivity.
  - reflexivity.
  - reflexivity.
Defined.

(** C7 as stated fails when a live value is zero (nodes of some chains
    answer zero for the priority fee): the fee data is there, but
    [0n * 125n / 100n] is falsy and the fixed fallback is returned. *)
Lemma getGasParams_markup_counterexample :
  let live := Ok {| fd_maxFeePerGas := Some 10;
                    fd_maxPriorityFeePerGas := Some 0 |} in
  @net_getFeeData (Demo.net (Demo.with_fee Demo.healthy live))
    [] Demo.a_provider = live
  /\ fst (@getGasParams Demo.lib (Demo.net (Demo.with_fee Demo.healthy live))
            Demo.a_provider no_overrides initial_state)
     = Ok {| maxFeePerGas := JBigInt 12;
             maxPriorityFeePerGas := JBigInt 15000000000;
             gasLimit := JNumber 500000 |}
  /\ fst (@getGasParams Demo.lib (Demo.net (Demo.with_fee Demo.healthy live))
            Demo.a_provider no_overrides initial_state)
     <> Ok {| maxFeePerGas := JBigInt (Z.quot (10 * 125) 100);
              maxPriorityFeePerGas := JBigInt (Z.quot (0 * 125) 100);
              gasLimit := JNumber 500000 |}.
Proof.
  intros live. split; [reflexivity|]. split; [reflexivity|].
  vm_compute. discriminate.
Qed.

Lemma getGasParams_never_fails_witness :
  fst (@getGasParams Demo.lib
         (Demo.net (Demo.with_fee Demo.healthy (Err (External "timeout"))))
         Demo.a_provider no_overrides initial_state)
  = Ok {| maxFeePerGas := JBigInt 20000000000;
          maxPriorityFeePerGas := JBigInt 15000000000;
          gasLimit := JNumber 500000 |}.
Proof.
  apply (proj2 (@getGasParams_never_fails Demo.lib
                  (Demo.net (Demo.with_fee Demo.healthy (Err (External "timeout"))))
                  Demo.a_provider no_overrides initial_state)
           (External "timeout")).
  reflexivity.
Defined.

Lemma getGasParams_overrides_witness :
  exists g,
    fst (@getGasParams Demo.lib (Demo.net Demo.healthy) Demo.a_provider
           {| o_maxFeePerGas := Some (JBigInt 7);
              o_maxPriorityFeePerGas := None;
              o_gasLimit := Some (JNumber 300000) |} initial_state) = Ok g
    /\ maxFeePerGas g = JBigInt 7
    /\ gasLimit g = JNumber 300000.
Proof.
  destruct (@getGasParams_overrides Demo.lib (Demo.net Demo.healthy)
              Demo.a_provider
              {| o_maxFeePerGas := Some (JBigInt 7);
                 o_maxPriorityFeePerGas := None;
                 o_gasLimit := Some (JNumber 300000) |} initial_state
              {| fd_maxFeePerGas := Some 10; fd_maxPriorityFeePerGas := Some 5 |}
              (JBigInt 7) (JBigInt 6) "0.000000007" "0.000000006")
    as (g & Hg & Hmf & _ & Hgl).
  - reflexivity.
  - reflexivity.
  - reflexivity.
  - vm_compute. reflexivity.
  - vm_compute. reflexivity.
  - reflexivity.
  - exists g. split; [exact Hg|]. split.
    + apply Hmf; reflexivity.
    + apply Hgl; reflexivity.
Defined.

(** C9 as stated fails in three ways: when the fee data read throws the
    overrides are dropped with everything else; a BigInt gas limit makes the
    log line throw, with the same effect; an override of zero is falsy. *)
Lemma getGasParams_overrides_counterexample :
  (exists g,
     fst (@getGasParams Demo.lib
            (Demo.net (Demo.with_fee Demo.healthy (Err (External "timeout"))))
            Demo.a_provider
            {| o_maxFeePerGas := Some (JBigInt 7);
               o_maxPriorityFeePerGas := None; o_gasLimit := None |}
            initial_state) = Ok g
     /\ maxFeePerGas g <> JBigInt 7)
  /\ (exists g,
        fst (@getGasParams Demo.lib (Demo.net Demo.healthy) Demo.a_provider
               {| o_maxFeePerGas := None; o_maxPriorityFeePerGas := None;
                  o_gasLimit := Some (JBigInt 300000) |}
               initial_state) = Ok g
        /\ gasLimit g <> JBigInt 300000)
  /\ (exists g,
        fst (@getGasParams Demo.lib (Demo.net Demo.healthy) Demo.a_provider
               {| o_maxFeePerGas := Some (JBigInt 0);
                  o_maxPriorityFeePerGas := None; o_gasLimit := None |}
               initial_state) = Ok g
        /\ maxFeePerGas g <> JBigInt 0).
Proof.
  repeat split; eexists; (split; [vm_compute; reflexivity | discriminate]).
Qed.

(** ** [getProvider] *)

Section Resolver.

Context {lib : Ethers} {net : Network} {cfg : Config}.

Lemma failed_probe_is_probe E :
  Forall (fun e => is_failed_probe e = true) E ->
  Forall (fun e => is_probe e = true) E.
Proof.
  intros H. eapply Forall_impl; [exact H|].
  intros [p [|]| | | |]; simpl; congruence.
Qed.

(** One iteration of the loop that ends in the [catch]: nothing is cached,
    and the URL was probed exactly when a connection could be built. *)
Lemma getProvider_attempt_fails c url st e st1 :
  (provider <- JsonRpcProvider url (Number (get CHAINS c)) (toLowerCase c) ;;
   probe provider ;;
   debugLog "Connected to RPC" [("url", LStr); ("chainId", LStr)] ;;
   providerCache_set c provider ;;
   ret provider) st = (Err e, st1) ->
  providerCache st1 = providerCache st
  /\ exists tried,
      trace st1 = trace st ++ tried
      /\ Forall (fun e => is_failed_probe e = true) tried
      /\ omap probed_url tried = List.filter (constructible c) [url].
Proof.
  unfold JsonRpcProvider, probe, providerCache_set, constructible.
  intros H. run.
  - split; [assumption|].
    destruct (JsonRpcProvider_throws _ _ _) eqn:Hc; [discriminate|].
    eexists. split; [eassumption|]. split; [repeat constructor|].
    simpl. now rewrite Hc.
  - destruct (JsonRpcProvider_throws _ _ _) eqn:Hc; [|discriminate].
    split; [reflexivity|]. exists []. rewrite app_nil_r.
    split; [reflexivity|]. split; [constructor|].
    simpl. now rewrite Hc.
Qed.

Lemma getProvider_attempt_succeeds c url st p st1 :
  (provider <- JsonRpcProvider url (Number (get CHAINS c)) (toLowerCase c) ;;
   probe provider ;;
   debugLog "Connected to RPC" [("url", LStr); ("chainId", LStr)] ;;
   providerCache_set c provider ;;
   ret provider) st = (Ok p, st1) ->
  p = connection c url
  /\ constructible c url = true
  /\ providerCache st1 = <[c := p]> (providerCache st)
  /\ trace st1 = trace st ++ [EvProbe p (Ok tt)].
Proof.
  unfold JsonRpcProvider, probe, providerCache_set, constructible.
  intros H. run.
  destruct (JsonRpcProvider_throws _ _ _); [discriminate|]. simplify_eq.
  unfold providerCache_set in *. simplify_eq. simpl.
  repeat match goal with u : unit |- _ => destruct u end.
  repeat split; congruence.
Qed.

(** What the loop of [getProvider] does on a list of URLs. *)
Lemma getProvider_loop_run c urls : forall st r st',
  getProvider_loop c urls st = (r, st') ->
  match r with
  | Ok p =>
      exists failed url rest tried,
        urls = failed ++ url :: rest
        /\ p = connection c url
        /\ constructible c url = true
        /\ trace st' = trace st ++ tried ++ [EvProbe p (Ok tt)]
        /\ Forall (fun e => is_failed_probe e = true) tried
        /\ omap probed_url tried = List.filter (constructible c) failed
        /\ providerCache st' = <[c := p]> (providerCache st)
  | Err e =>
      e = AllRpcEndpointsFailed c
      /\ providerCache st' = providerCache st
      /\ exists tried,
          trace st' = trace st ++ tried
          /\ Forall (fun e => is_failed_probe e = true) tried
          /\ omap probed_url tried = List.filter (constructible c) urls
  end.
Proof.
  induction urls as [|url rest IH]; intros st r st' H.
  - simpl in H. run. split; [reflexivity|]. split; [reflexivity|].
    exists []. rewrite app_nil_r. repeat split. constructor.
  - cbn [getProvider_loop] in H.
    apply try_catch_inv in H.
    destruct H as [(p & H & ->) | (e & st1 & H1 & H)].
    + apply getProvider_attempt_succeeds in H.
      destruct H as (Hp & Hc & Hcache & Ht).
      exists [], url, rest, []. simpl. repeat split; auto.
    + apply getProvider_attempt_fails in H1.
      destruct H1 as (Hcache1 & tried1 & Ht1 & Hf1 & Hu1).
      run. apply IH in H.
      destruct r as [p|e'].
      * destruct H as (failed & url' & rest' & tried & -> & Hp & Hc & Ht & Hf
                       & Hu & Hcache).
        exists (url :: failed), url', rest', (tried1 ++ tried).
        repeat split; auto.
        -- rewrite Ht, Ht1. now rewrite <- !app_assoc.
        -- apply Forall_app; auto.
        -- rewrite omap_app, Hu1, Hu.
           change (url :: failed) with ([url] ++ failed).
           now rewrite List.filter_app.
        -- congruence.
      * destruct H as (-> & Hcache & tried & Ht & Hf & Hu).
        split; [reflexivity|]. split; [congruence|].
        exists (tried1 ++ tried). repeat split.
        -- rewrite Ht, Ht1. now rewrite <- !app_assoc.
        -- apply Forall_app; auto.
        -- rewrite omap_app, Hu1, Hu.
           change (url :: rest) with ([url] ++ rest).
           now rewrite List.filter_app.
Qed.

Lemma endpoints_error c e : endpoints c = Err e -> e = not_iterable.
Proof.
  unfold endpoints, candidates, fallbacks.
  destruct (get RPC_FALLBACKS c); simpl; congruence.
Qed.

(** An uncached call builds the list of endpoints, which may throw, and
    enters the loop with it. *)
Lemma getProvider_uncached c st r st' :
  providerCache st !! c = None ->
  getProvider c st = (r, st') ->
  (exists urls, endpoints c = Ok urls
                /\ getProvider_loop c urls st = (r, st'))
  \/ (endpoints c = Err not_iterable /\ r = Err not_iterable /\ st' = st).
Proof.
  unfold getProvider. intros -> H.
  unfold bind, lift in H.
  destruct (endpoints c) as [urls|e] eqn:He.
  - left. eauto.
  - right. apply endpoints_error in He. now simplify_eq.
Qed.

(** Every run of [getProvider]: probes only, and cached entries stay. *)
Lemma getProvider_run c st r st' :
  getProvider c st = (r, st') ->
  (exists E, trace st' = trace st ++ E
             /\ Forall (fun e => is_probe e = true) E)
  /\ (forall c' p, providerCache st !! c' = Some p ->
                   providerCache st' !! c' = Some p)
  /\ (cache_probed st -> cache_probed st').
Proof.
  intros H.
  destruct (providerCache st !! c) as [p|] eqn:Hc.
  - unfold getProvider in H. rewrite Hc in H.
    simplify_eq. split; [|auto]. exists []. now rewrite app_nil_r.
  - apply (getProvider_uncached _ _ _ _ Hc) in H.
    destruct H as [(urls & _ & H) | (_ & -> & ->)];
      [|split; [|auto]; exists []; now rewrite app_nil_r].
    apply getProvider_loop_run in H. destruct r as [p|e].
    + destruct H as (failed & url & rest & tried & _ & _ & _ & Ht & Hf & _
                     & Hcache).
      split; [|split].
      * eexists. split; [exact Ht|].
        apply Forall_app. split; [now apply failed_probe_is_probe|].
        repeat constructor.
      * intros c' p' Hc'. rewrite Hcache.
        destruct (decide (c = c')) as [->|Hne]; [congruence|].
        now rewrite lookup_insert_ne.
      * intros Hinv c' p'. rewrite Hcache, Ht.
        destruct (decide (c = c')) as [->|Hne].
        -- rewrite lookup_insert_eq. intros [= ->].
           rewrite !in_app_iff. right. right. now left.
        -- rewrite lookup_insert_ne by assumption. intros Hc'.
           rewrite in_app_iff. left. eauto.
    + destruct H as (_ & Hcache & tried & Ht & Hf & _).
      split; [|split].
      * eexists. split; [exact Ht|]. now apply failed_probe_is_probe.
      * intros c' p'. now rewrite Hcache.
      * intros Hinv c' p'. rewrite Hcache, Ht. intros Hc'.
        rewrite in_app_iff. left. eauto.
Qed.

End Resolver.

(** ** Reading the events of a run *)

Lemma Forall_In_contra (P : event -> bool) E x :
  Forall (fun e => P e = true) E -> In x E -> P x = false -> False.
Proof.
  intros HF Hin Hx. rewrite Forall_forall in HF.
  apply list_elem_of_In in Hin. apply HF in Hin. congruence.
Qed.

Section ExecutorEvents.

Context {lib : Ethers} {net : Network} {cfg : Config}.

(** The events of a run of [executeTransaction], answers left abstract. *)
Lemma executeTransaction_events c method args ov op st r st' :
  executeTransaction c method args ov op st = (r, st') ->
  providerCache st' = providerCache st
  /\ exists rs W,
      trace st' = trace st ++ EvSend c method args ov rs :: W
      /\ Forall (fun e => is_wait e = true) W.
Proof.
  intros H. apply executeTransaction_run in H. cbv zeta in H.
  destruct H as [Hc [[Ht _] | (tx & _ & Ht & _)]]; (split; [exact Hc|]).
  - eexists _, []. split; [exact Ht | constructor].
  - eexists _, [_]. split; [exact Ht | repeat constructor].
Qed.

End ExecutorEvents.

(** Case analysis on [In x l] for a list written with [++] and [::]. *)
Ltac split_in H :=
  lazymatch type of H with
  | In _ (_ ++ _) =>
      apply in_app_or in H; destruct H as [H|H]; split_in H
  | In _ (_ :: _) =>
      destruct H as [H|H]; [simplify_eq | split_in H]
  | In _ [] => destruct H
  | In _ _ =>
      try (exfalso; eapply Forall_In_contra with (2 := H);
           [eassumption | reflexivity])
  | _ => idtac
  end.

(** Replace each run of [executeTransaction] by its events. *)
Ltac exec_events :=
  repeat match goal with
    | H : executeTransaction _ _ _ _ _ _ = _ |- _ =>
        apply executeTransaction_events in H;
        destruct H as (? & ? & ? & ? & ?)
    end.

(** From [HE : trace st' = trace st ++ E] and the equations between the
    traces of the intermediate states, the list [E] itself. *)
Ltac name_events HE :=
  repeat match goal with
    | H : trace ?s = _ |- _ =>
        tryif constr_eq H HE then fail else rewrite H in HE
    end;
  rewrite <- ?app_assoc in HE;
  first [ apply app_inv_head in HE
        | match type of HE with
          | trace ?s = _ =>
              rewrite <- (app_nil_r (trace s)) in HE at 1;
              apply app_inv_head in HE
          end ];
  simpl app in HE; subst.

(** Solve [trace s = trace st ++ ?E] from the equations between traces. *)
Ltac chain_trace :=
  repeat match goal with
    | H : trace ?s = _ |- context [trace ?s] => rewrite H
    end;
  rewrite <- ?app_assoc;
  first [reflexivity | symmetry; apply app_nil_r].

Section Token.

Context {lib : Ethers} {net : Network} {cfg : Config}.

Lemma sendToken_erc20_insufficient
    rq w sa ra ba g isWETH ta st r st' E c args b rd p has :
  sendToken_erc20 rq w sa ra ba g isWETH ta st = (r, st') ->
  trace st' = trace st ++ E ->
  In (EvRead c "decimals" [] rd) E ->
  In (EvRead c "balanceOf" args (Ok b)) E ->
  parseUnits (amount rq) (decimals_or_18 rd) = Ok p ->
  b < p ->
  formatUnits (Some (JBigInt b)) (decimals_or_18 rd) = Ok has ->
  r = Err (InsufficientBalance (amount rq) has)
  /\ List.filter is_send E = [].
Proof.
  unfold sendToken_erc20, Contract, read. intros H HE Hd Hb Hp Hlt Hf.
  run; exec_events; name_events HE.
  all: split_in Hd; split_in Hb.
  all: simpl in Hp, Hf.
  all: try match goal with
         | H : parseUnits _ _ = Ok _ |- _ =>
             tryif constr_eq H Hp then fail
             else (rewrite H in Hp; injection Hp as <-)
         end.
  all: try match goal with
         | H : (_ <? _) = false |- _ => apply Z.ltb_ge in H; lia
         end.
  all: split; [congruence | reflexivity].
Qed.

End Token.

(** ** The steps of [sendToken] before the deposit *)

Section Orchestrator.

Context {lib : Ethers} {net : Network} {cfg : Config}.

Lemma cache_probed_extend st st' E :
  cache_probed st ->
  providerCache st' = providerCache st ->
  trace st' = trace st ++ E ->
  cache_probed st'.
Proof.
  intros Hinv Hc Ht c p. rewrite Hc, Ht. intros H.
  apply in_app_iff. left. eauto.
Qed.

(** The outer [try]/[catch] logs and throws the same error again. *)
Lemma sendToken_body_eq rq st : sendToken rq st = sendToken_body rq st.
Proof.
  unfold sendToken, try_catch.
  destruct (sendToken_body rq st) as [[h|e] st']; reflexivity.
Qed.

(** Every run of [sendToken] is a setup that asks for probes and fee data
    only, and then stops with an error or enters one of the two transfer
    branches. *)
Lemma sendToken_inv rq st r st' :
  sendToken rq st = (r, st') ->
  exists st0 E0,
    trace st0 = trace st ++ E0
    /\ Forall (fun e => is_setup e = true) E0
    /\ (forall c p, providerCache st !! c = Some p ->
                    providerCache st0 !! c = Some p)
    /\ (cache_probed st -> cache_probed st0)
    /\ ((st' = st0 /\ exists e, r = Err e)
        \/ (exists w ra ba g,
              sendToken_native rq w ra ba g st0 = (r, st'))
        \/ (exists w ra ba g isWETH ta,
              sendToken_erc20 rq w (wl_address w) ra ba g isWETH ta st0
              = (r, st'))).
Proof.
  rewrite sendToken_body_eq. unfold sendToken_body, Wallet. intros H.
  pose (final := st'). run.
  all: repeat match goal with
         | H : getProvider _ _ = _ |- _ =>
             apply getProvider_run in H;
             destruct H as ((? & ? & ?) & ? & ?)
         | H : getGasParams _ _ _ = _ |- _ =>
             apply getGasParams_run in H;
             destruct H as (? & ? & ? & ?)
         end.
  all: match goal with
       | H : sendToken_native _ _ _ _ _ ?s = _ |- _ => exists s
       | H : sendToken_erc20 _ _ _ _ _ _ _ _ ?s = _ |- _ => exists s
       | _ => exists final
       end.
  all: subst final; eexists; split; [chain_trace|].
  all: split;
    [ rewrite ?Forall_app; repeat split;
      try (eapply Forall_impl; [eassumption|];
           intros [] ?; simpl in *; congruence);
      repeat constructor |].
  all: split;
    [ intros c p Hc;
      repeat match goal with
        | H : providerCache _ = providerCache _ |- _ => rewrite H
        end; auto |].
  all: split;
    [ intros Hinv;
      repeat match goal with
        | H : cache_probed _ -> cache_probed _ |- _ => specialize (H Hinv)
        end;
      first [ assumption
            | match goal with
              | Hp : cache_probed ?a,
                Hc : providerCache ?b = providerCache ?a,
                Ht : trace ?b = trace ?a ++ _ |- cache_probed ?b =>
                  exact (cache_probed_extend a b _ Hp Hc Ht)
              end ] |].
  all: first [ left; split; [reflexivity | eauto]; fail
             | right; left; eauto 10; fail
             | right; right; do 6 eexists; eassumption ].
Qed.

End Orchestrator.

(** ** Validation *)

Lemma all_hex_Forall s :
  all_hex s = true
  <-> Forall (fun c => is_hex_digit c = true) (list_ascii_of_string s).
Proof.
  induction s as [|c s IH]; simpl.
  - split; [constructor | reflexivity].
  - rewrite andb_true_iff, Forall_cons, IH. reflexivity.
Qed.

Lemma length_list_ascii_of_string s :
  length (list_ascii_of_string s) = String.length s.
Proof. induction s; simpl; congruence. Qed.

(** The test of the source is the pattern of the spec. *)
Lemma matches_key_pattern_spec s : matches_key_pattern s = true <-> hex_key s.
Proof.
  split.
  - intros H. destruct s as [|a [|b digits]]; try discriminate.
    + destruct a as [[] [] [] [] [] [] [] []]; discriminate.
    + destruct a as [[] [] [] [] [] [] [] []]; try discriminate.
      destruct b as [[] [] [] [] [] [] [] []]; try discriminate.
      simpl in H. apply andb_true_iff in H. destruct H as [Hl Hh].
      exists (list_ascii_of_string digits).
      rewrite string_of_list_ascii_of_string, length_list_ascii_of_string.
      split; [reflexivity|]. split.
      * now apply Nat.eqb_eq in Hl.
      * now apply all_hex_Forall.
  - intros (digits & -> & Hl & Hh). simpl.
    apply andb_true_iff. split.
    + apply Nat.eqb_eq.
      now rewrite <- length_list_ascii_of_string,
        list_ascii_of_string_of_list_ascii.
    + apply all_hex_Forall. now rewrite list_ascii_of_string_of_list_ascii.
Qed.

Section Validation.

Context {lib : Ethers} {net : Network} {cfg : Config}.

(** The chain check lets through exactly the identifiers at which the
    read of [CHAINS] finds something truthy: an entry other than 0, or a
    name that every object inherits. *)
Lemma chain_ok_get c :
  chain_ok (get CHAINS c)
  = match CHAINS !! c with
    | Some n => negb (n =? 0)
    | None => bool_decide (c ∈ Object_prototype)
    end.
Proof.
  unfold get. destruct (CHAINS !! c); [reflexivity|].
  destruct (bool_decide _); reflexivity.
Qed.

End Validation.

(** C3. The chain check does not refuse every identifier that is missing
    from [CHAINS]: it reads [CHAINS[destChain]] and takes whatever it finds
    for a chain, the inherited member at a name such as ["constructor"]
    included.  On the example configuration a transfer to ["constructor"],
    signed with a well-formed key, is not stopped by the validation: the
    endpoint of the source chain is probed, the fee data is read and the
    deposit is submitted, and the error of the run is the node's. *)
Theorem sendToken_validation_inherited_chain :
  let run := @sendToken Demo.lib (Demo.net Demo.rejecting) Demo.cfg
               Demo.to_constructor initial_state in
  @CHAINS Demo.cfg !! destChain Demo.to_constructor = None
  /\ hex_key Demo.key
  /\ fst run = Err (External "no matching fragment")
  /\ ~ is_validation_error (External "no matching fragment")
  /\ exists rs rest,
      events_since initial_state (snd run)
      = EvProbe Demo.a_provider (Ok tt)
        :: EvFeeData Demo.a_provider (Demo.sc_fee Demo.rejecting)
        :: EvSend (Demo.bridge AbiBridgeNative) "depositNative"
             [ArgInherited "constructor"; ArgAddr Demo.sender;
              ArgAddr ZeroAddress]
             Demo.native_overrides rs
        :: rest.
Proof.
  intros run. split; [vm_compute; reflexivity|].
  split; [apply matches_key_pattern_spec; vm_compute; reflexivity|].
  split; [vm_compute; reflexivity|].
  split; [intros []|].
  eexists _, _. vm_compute. reflexivity.
Qed.

(** ** The two transfer branches *)

Lemma filter_nil_Forall (Q : event -> bool) E :
  Forall (fun e => Q e = false) E -> List.filter Q E = [].
Proof.
  induction 1 as [|e E He _ IH]; [reflexivity|]. simpl. now rewrite He.
Qed.

(** [Forall] of a decidable class over a list written with [++] and [::]
    whose unknown parts are covered by a [Forall] among the hypotheses. *)
Ltac forall_events :=
  repeat first
    [ apply List.Forall_nil
    | apply List.Forall_cons; [reflexivity|]
    | apply Forall_app; split
    | eapply Forall_impl;
      [eassumption | intros [] ?; simpl in *; congruence] ].

Ltac filter_nil := apply filter_nil_Forall; forall_events.

Section Branches.

Context {lib : Ethers} {net : Network} {cfg : Config}.

Lemma sendToken_native_run rq w ra ba g st r st' :
  sendToken_native rq w ra ba g st = (r, st') ->
  providerCache st' = providerCache st
  /\ exists E, trace st' = trace st ++ E
               /\ Forall (fun e => is_tx e = true) E.
Proof.
  unfold sendToken_native, Contract. intros H.
  run; exec_events; (split; [congruence|]).
  all: eexists; split; [chain_trace | forall_events].
Qed.

Lemma sendToken_erc20_run rq w sa ra ba g isWETH ta st r st' :
  sendToken_erc20 rq w sa ra ba g isWETH ta st = (r, st') ->
  providerCache st' = providerCache st
  /\ exists E, trace st' = trace st ++ E.
Proof.
  unfold sendToken_erc20, Contract, read. intros H.
  run; exec_events; (split; [congruence|]).
  all: eexists; chain_trace.
Qed.

(** Every run of [sendToken] only appends to the history and only adds to
    the cache. *)
Lemma sendToken_run rq st r st' :
  sendToken rq st = (r, st') ->
  (exists E, trace st' = trace st ++ E)
  /\ (forall c p, providerCache st !! c = Some p ->
                  providerCache st' !! c = Some p)
  /\ (cache_probed st -> cache_probed st').
Proof.
  intros H. apply sendToken_inv in H.
  destruct H as (st0 & E0 & Ht0 & _ & Hmono & Hinv & Hcase).
  assert (Hrest : providerCache st' = providerCache st0
                  /\ exists E, trace st' = trace st0 ++ E).
  { destruct Hcase as [[-> _] | [(w & ra & ba & g & H)
                                | (w & ra & ba & g & isWETH & ta & H)]].
    - split; [reflexivity|]. exists []. now rewrite app_nil_r.
    - apply sendToken_native_run in H.
      destruct H as (Hc & E & Ht & _). eauto.
    - apply sendToken_erc20_run in H. exact H. }
  destruct Hrest as (Hc & E & Ht).
  split; [|split].
  - exists (E0 ++ E). now rewrite Ht, Ht0, <- app_assoc.
  - intros c p Hcp. rewrite Hc. auto.
  - intros Hp. exact (cache_probed_extend st0 st' E (Hinv Hp) Hc Ht).
Qed.

(** C5. Whenever a run of [sendToken] read a token balance that is below
    the amount of the request in base units (the amount parsed with the
    decimals that the run read, or 18), it throws "Insufficient balance"
    with the amount of the request as given and the balance formatted with
    the same decimals, and the run submitted no transaction. *)
Theorem sendToken_insufficient_balance rq st r st' c args b rd p has :
  sendToken rq st = (r, st') ->
  In (EvRead c "decimals" [] rd) (events_since st st') ->
  In (EvRead c "balanceOf" args (Ok b)) (events_since st st') ->
  parseUnits (amount rq) (decimals_or_18 rd) = Ok p ->
  b < p ->
  formatUnits (Some (JBigInt b)) (decimals_or_18 rd) = Ok has ->
  r = Err (InsufficientBalance (amount rq) has)
  /\ message (InsufficientBalance (amount rq) has)
     = ("Insufficient balance. Need " ++ amount rq ++ ", has " ++ has)%string
  /\ List.filter is_send (events_since st st') = [].
Proof.
  intros H Hd Hb Hp Hlt Hf. apply sendToken_inv in H.
  destruct H as (st0 & E0 & Ht0 & Hs0 & _ & _ & Hcase).
  destruct Hcase as [[-> _] | [(w & ra & ba & g & H)
                              | (w & ra & ba & g & isWETH & ta & H)]].
  - rewrite (events_since_app _ _ _ Ht0) in Hb. split_in Hb.
  - apply sendToken_native_run in H. destruct H as (_ & E & Ht & HE).
    rewrite Ht0, <- app_assoc in Ht.
    rewrite (events_since_app _ _ _ Ht) in Hb. split_in Hb.
  - pose proof (sendToken_erc20_run _ _ _ _ _ _ _ _ _ _ _ H) as (_ & E & Ht).
    assert (Hall : trace st' = trace st ++ E0 ++ E)
      by (now rewrite Ht, Ht0, <- app_assoc).
    rewrite (events_since_app _ _ _ Hall) in *.
    apply in_app_or in Hd. destruct Hd as [Hd|Hd]; [split_in Hd|].
    apply in_app_or in Hb. destruct Hb as [Hb|Hb]; [split_in Hb|].
    destruct (sendToken_erc20_insufficient _ _ _ _ _ _ _ _ _ _ _ _ _ _ _ _ _ _
                H Ht Hd Hb Hp Hlt Hf) as [-> Hsend].
    split; [reflexivity|]. split; [reflexivity|].
    rewrite List.filter_app, Hsend, app_nil_r. filter_nil.
Qed.

Lemma sendToken_erc20_approval
    rq w sa ra ba g isWETH ta st r st' E c owner spender a rd p :
  sendToken_erc20 rq w sa ra ba g isWETH ta st = (r, st') ->
  trace st' = trace st ++ E ->
  In (EvRead c "decimals" [] rd) E ->
  In (EvRead c "allowance" [owner; spender] (Ok a)) E ->
  parseUnits (amount rq) (decimals_or_18 rd) = Ok p ->
  (p <= a -> List.filter is_approval E = [])
  /\ (a < p ->
      exists pre ov rs post,
        E = pre ++ EvSend c "approve" [spender; ArgBig (p * 2)] ov rs
                   :: post
        /\ List.filter is_send pre = []
        /\ List.filter is_approval post = []).
Proof.
  unfold sendToken_erc20, Contract, read. intros H HE Hd Ha Hp.
  run; exec_events; name_events HE.
  all: split_in Hd; split_in Ha.
  all: simpl in Hp.
  all: try match goal with
         | H : parseUnits _ _ = Ok _ |- _ =>
             tryif constr_eq H Hp then fail
             else (rewrite H in Hp; injection Hp as <-)
         end.
  all: match goal with
       | H : (_ <? _) = true |- _ => apply Z.ltb_lt in H
       | H : (_ <? _) = false |- _ => apply Z.ltb_ge in H
       end.
  all: split; intros Hcmp; try lia.
  all: try (filter_nil; fail).
  all: eexists [_; _; _], _, _, _; split; [reflexivity|].
  all: split; [reflexivity | filter_nil].
Qed.

(** As [exec_events], keeping the runs themselves. *)
Ltac exec_events_keep :=
  repeat match goal with
    | H : executeTransaction _ _ _ _ _ _ = _ |- _ =>
        let H' := fresh in
        pose proof (executeTransaction_events _ _ _ _ _ _ _ _ H) as H';
        destruct H' as (? & ? & ? & ? & ?);
        revert H
    end;
  intros.

Lemma sendToken_erc20_fallback
    rq w sa ra ba g isWETH ta st r st' E c method args ov rs :
  sendToken_erc20 rq w sa ra ba g isWETH ta st = (r, st') ->
  trace st' = trace st ++ E ->
  In (EvSend c method args ov rs) E ->
  with_referral method args = true ->
  exists op s1 s2 r1,
    executeTransaction c method args ov op s1 = (r1, s2)
    /\ (exists Epre, trace s1 = trace st ++ Epre
                     /\ List.filter is_deposit Epre = [])
    /\ match r1 with
       | Ok rc => r = Ok (rc_hash rc) /\ s2 = st'
       | Err _ =>
           exists r2,
             executeTransaction c method (removelast args) ov op s2 = (r2, st')
             /\ r = hash_of r2
             /\ exists rs2 W,
                 events_since s2 st'
                 = EvSend c method (removelast args) ov rs2 :: W
                 /\ List.filter is_send W = []
       end.
Proof.
  unfold sendToken_erc20, Contract, read. intros H HE Hin Href.
  run; exec_events_keep; name_events HE.
  all: split_in Hin; try (cbv in Href; discriminate).
  all: eexists _, _, _, _; split; [eassumption|].
  all: split; [eexists; split; [chain_trace | filter_nil] |].
  all: cbv beta iota; try (split; reflexivity).
  all: eexists; split; [cbv [removelast]; eassumption|].
  all: split; [reflexivity|].
  all: eexists _, _; split; [apply events_since_app; eassumption | filter_nil].
Qed.

Lemma sendToken_native_fallback
    rq w ra ba g st r st' E c method args ov rs :
  sendToken_native rq w ra ba g st = (r, st') ->
  trace st' = trace st ++ E ->
  In (EvSend c method args ov rs) E ->
  with_referral method args = true ->
  exists op s1 s2 r1,
    executeTransaction c method args ov op s1 = (r1, s2)
    /\ (exists Epre, trace s1 = trace st ++ Epre
                     /\ List.filter is_deposit Epre = [])
    /\ match r1 with
       | Ok rc => r = Ok (rc_hash rc) /\ s2 = st'
       | Err _ =>
           exists r2,
             executeTransaction c method (removelast args) ov op s2 = (r2, st')
             /\ r = hash_of r2
             /\ exists rs2 W,
                 events_since s2 st'
                 = EvSend c method (removelast args) ov rs2 :: W
                 /\ List.filter is_send W = []
       end.
Proof.
  unfold sendToken_native, Contract. intros H HE Hin Href.
  run; exec_events_keep; name_events HE.
  all: repeat match goal with
         | H1 : parseEther ?a = Ok ?x, H2 : parseEther ?a = Ok ?y |- _ =>
             rewrite H1 in H2; injection H2 as <-
         end.
  all: try match goal with
         | H1 : parseEther ?a = Ok _, H2 : parseEther ?a = Err _ |- _ =>
             rewrite H1 in H2; discriminate
         end.
  all: split_in Hin; try (cbv in Href; discriminate).
  all: eexists _, _, _, _; split; [eassumption|].
  all: split; [eexists; split; [chain_trace | filter_nil] |].
  all: cbv beta iota; try (split; reflexivity).
  all: eexists; split; [cbv [removelast]; eassumption|].
  all: split; [reflexivity|].
  all: eexists _, _; split; [apply events_since_app; eassumption | filter_nil].
Qed.

End Branches.

(** ** The deposit fallback and the approval *)

Section Transfer.

Context {lib : Ethers} {net : Network} {cfg : Config}.

Lemma setup_no_send E :
  Forall (fun e => is_setup e = true) E -> List.filter is_send E = [].
Proof. intros H. filter_nil. Qed.

Lemma setup_no_deposit E :
  Forall (fun e => is_setup e = true) E -> List.filter is_deposit E = [].
Proof. intros H. filter_nil. Qed.

Lemma setup_no_approval E :
  Forall (fun e => is_setup e = true) E -> List.filter is_approval E = [].
Proof. intros H. filter_nil. Qed.

(** C1. Whenever a run of [sendToken] submitted the deposit call with the
    referral argument ([depositNative] with three arguments or
    [depositERC20] with five), that call is one run of
    [executeTransaction], before which no deposit was submitted.  If it
    returns a receipt, [sendToken] returns its hash and does nothing more.
    If it throws, for whatever reason, the rest of the run is exactly one
    more run of [executeTransaction], on the same contract and method with
    the same overrides and the argument list without its last element (the
    referral), which submits one transaction; [sendToken] returns the hash
    of its receipt if it succeeds and throws its error if it fails. *)
Theorem sendToken_referral_fallback rq st r st' c method args ov rs :
  sendToken rq st = (r, st') ->
  In (EvSend c method args ov rs) (events_since st st') ->
  with_referral method args = true ->
  exists op s1 s2 r1,
    executeTransaction c method args ov op s1 = (r1, s2)
    /\ (exists Epre, trace s1 = trace st ++ Epre
                     /\ List.filter is_deposit Epre = [])
    /\ match r1 with
       | Ok rc => r = Ok (rc_hash rc) /\ s2 = st'
       | Err _ =>
           exists r2,
             executeTransaction c method (removelast args) ov op s2 = (r2, st')
             /\ match r2 with
                | Ok rc2 => r = Ok (rc_hash rc2)
                | Err e2 => r = Err e2
                end
             /\ exists rs2 W,
                 events_since s2 st'
                 = EvSend c method (removelast args) ov rs2 :: W
                 /\ List.filter is_send W = []
       end.
Proof.
  intros H Hin Href. apply sendToken_inv in H.
  destruct H as (st0 & E0 & Ht0 & Hs0 & _ & _ & Hcase).
  assert (Hbranch :
    exists E, trace st' = trace st0 ++ E /\ In (EvSend c method args ov rs) E
    /\ exists op s1 s2 r1,
        executeTransaction c method args ov op s1 = (r1, s2)
        /\ (exists Epre, trace s1 = trace st0 ++ Epre
                         /\ List.filter is_deposit Epre = [])
        /\ match r1 with
           | Ok rc => r = Ok (rc_hash rc) /\ s2 = st'
           | Err _ =>
               exists r2,
                 executeTransaction c method (removelast args) ov op s2
                 = (r2, st')
                 /\ r = hash_of r2
                 /\ exists rs2 W,
                     events_since s2 st'
                     = EvSend c method (removelast args) ov rs2 :: W
                     /\ List.filter is_send W = []
           end).
  { destruct Hcase as [[-> _] | [(w & ra & ba & g & H)
                                | (w & ra & ba & g & isWETH & ta & H)]].
    - rewrite (events_since_app _ _ _ Ht0) in Hin. split_in Hin.
    - pose proof (sendToken_native_run _ _ _ _ _ _ _ _ H) as (_ & E & Ht & _).
      assert (Hall : trace st' = trace st ++ E0 ++ E)
        by (now rewrite Ht, Ht0, <- app_assoc).
      rewrite (events_since_app _ _ _ Hall) in Hin.
      apply in_app_or in Hin. destruct Hin as [Hin|Hin]; [split_in Hin|].
      exists E. split; [exact Ht|]. split; [exact Hin|].
      exact (sendToken_native_fallback _ _ _ _ _ _ _ _ _ _ _ _ _ _
               H Ht Hin Href).
    - pose proof (sendToken_erc20_run _ _ _ _ _ _ _ _ _ _ _ H) as (_ & E & Ht).
      assert (Hall : trace st' = trace st ++ E0 ++ E)
        by (now rewrite Ht, Ht0, <- app_assoc).
      rewrite (events_since_app _ _ _ Hall) in Hin.
      apply in_app_or in Hin. destruct Hin as [Hin|Hin]; [split_in Hin|].
      exists E. split; [exact Ht|]. split; [exact Hin|].
      exact (sendToken_erc20_fallback _ _ _ _ _ _ _ _ _ _ _ _ _ _ _ _ _
               H Ht Hin Href). }
  destruct Hbranch as (E & Ht & _ & op & s1 & s2 & r1 & Hrun & Hpre & Hr1).
  exists op, s1, s2, r1. split; [exact Hrun|]. split.
  - destruct Hpre as (Epre & Hs1 & Hnone). exists (E0 ++ Epre). split.
    + now rewrite Hs1, Ht0, <- app_assoc.
    + now rewrite List.filter_app, (setup_no_deposit _ Hs0), Hnone.
  - destruct r1 as [rc|e1]; [exact Hr1|].
    destruct Hr1 as (r2 & Hrun2 & -> & Hev). exists r2.
    split; [exact Hrun2|]. split; [destruct r2; reflexivity | exact Hev].
Qed.

(** C4. Whenever a run of [sendToken] read the allowance of the bridge
    contract: if it is at least the amount in base units, the run submits no
    [approve] call at all; if it is less, the run submits one [approve]
    call, for the bridge contract and twice the amount in base units, after
    which no other [approve] follows and before which nothing was
    submitted, so that it precedes every deposit call. *)
Theorem sendToken_approval rq st r st' c owner spender a rd p :
  sendToken rq st = (r, st') ->
  In (EvRead c "decimals" [] rd) (events_since st st') ->
  In (EvRead c "allowance" [owner; spender] (Ok a))
     (events_since st st') ->
  parseUnits (amount rq) (decimals_or_18 rd) = Ok p ->
  (p <= a -> List.filter is_approval (events_since st st') = [])
  /\ (a < p ->
      exists pre ov rs post,
        events_since st st'
        = pre ++ EvSend c "approve" [spender; ArgBig (p * 2)] ov rs
              :: post
        /\ List.filter is_send pre = []
        /\ List.filter is_approval post = []).
Proof.
  intros H Hd Ha Hp. apply sendToken_inv in H.
  destruct H as (st0 & E0 & Ht0 & Hs0 & _ & _ & Hcase).
  destruct Hcase as [[-> _] | [(w & ra & ba & g & H)
                              | (w & ra & ba & g & isWETH & ta & H)]].
  - rewrite (events_since_app _ _ _ Ht0) in Ha. split_in Ha.
  - apply sendToken_native_run in H. destruct H as (_ & E & Ht & HE).
    rewrite Ht0, <- app_assoc in Ht.
    rewrite (events_since_app _ _ _ Ht) in Ha. split_in Ha.
  - pose proof (sendToken_erc20_run _ _ _ _ _ _ _ _ _ _ _ H) as (_ & E & Ht).
    assert (Hall : trace st' = trace st ++ E0 ++ E)
      by (now rewrite Ht, Ht0, <- app_assoc).
    rewrite (events_since_app _ _ _ Hall) in *.
    apply in_app_or in Hd. destruct Hd as [Hd|Hd]; [split_in Hd|].
    apply in_app_or in Ha. destruct Ha as [Ha|Ha]; [split_in Ha|].
    destruct (sendToken_erc20_approval _ _ _ _ _ _ _ _ _ _ _ _ _ _ _ _ _ _
                H Ht Hd Ha Hp) as [Hge Hlt].
    split.
    + intros Hcmp.
      now rewrite List.filter_app, (setup_no_approval _ Hs0), (Hge Hcmp).
    + intros Hcmp.
      destruct (Hlt Hcmp) as (pre & ov & rs & post & -> & Hpre & Hpost).
      exists (E0 ++ pre), ov, rs, post. split; [|split].
      * now rewrite <- app_assoc.
      * now rewrite List.filter_app, (setup_no_send _ Hs0), Hpre.
      * exact Hpost.
Qed.

End Transfer.

(** ** The connection cache over the life of the process *)

Section Cache.

Context {lib : Ethers} {net : Network} {cfg : Config}.

Lemma cache_probed_initial : cache_probed initial_state.
Proof. intros c p H. simpl in H. now rewrite lookup_empty in H. Qed.

(** No exported function removes or replaces a cached connection. *)
Lemma run_calls_keeps calls : forall st c p,
  providerCache st !! c = Some p ->
  providerCache (run_calls calls st) !! c = Some p.
Proof.
  induction calls as [|[c'|rq] calls IH]; intros st c p H; simpl.
  - exact H.
  - apply IH. destruct (getProvider c' st) as [r st'] eqn:Hg.
    apply getProvider_run in Hg. destruct Hg as (_ & Hk & _). auto.
  - apply IH. destruct (sendToken rq st) as [r st'] eqn:Hs.
    apply sendToken_run in Hs. destruct Hs as (_ & Hk & _). auto.
Qed.

Lemma run_calls_probed calls : forall st,
  cache_probed st -> cache_probed (run_calls calls st).
Proof.
  induction calls as [|[c'|rq] calls IH]; intros st H; simpl.
  - exact H.
  - apply IH. destruct (getProvider c' st) as [r st'] eqn:Hg.
    apply getProvider_run in Hg. destruct Hg as (_ & _ & Hp). auto.
  - apply IH. destruct (sendToken rq st) as [r st'] eqn:Hs.
    apply sendToken_run in Hs. destruct Hs as (_ & _ & Hp). auto.
Qed.

Lemma filter_Boolean_app l1 l2 :
  filter_Boolean (l1 ++ l2) = filter_Boolean l1 ++ filter_Boolean l2.
Proof.
  induction l1 as [|v l1 IH]; simpl; [reflexivity|].
  destruct (truthy_ref v); simpl; congruence.
Qed.

(** The hardcoded public endpoint is always a candidate. *)
Lemma endpoints_nonempty c urls : endpoints c = Ok urls -> urls <> [].
Proof.
  unfold endpoints, candidates.
  destruct (fallbacks c) as [fb|e]; [|discriminate].
  intros [= <-].
  change (filter_Boolean ([get RPC_URLS c] ++ map Own fb ++ [public_endpoint])
          <> []).
  rewrite !filter_Boolean_app.
  intros H. apply app_eq_nil in H. destruct H as [_ H].
  apply app_eq_nil in H. destruct H as [_ H]. cbv in H. discriminate.
Qed.

(** A call that finds the chain identifier absent from the cache builds
    the list of endpoints and walks it from its first element: the URLs it
    probes are the endpoints up to the first that answers (all of them when
    none does), less those the constructor refuses.  When the list cannot
    be built, the call throws before anything is asked. *)
Lemma getProvider_miss c st r st2 :
  providerCache st !! c = None ->
  getProvider c st = (r, st2) ->
  (exists urls tried_urls rest,
     endpoints c = Ok urls
     /\ urls = tried_urls ++ rest
     /\ tried_urls <> []
     /\ omap probed_url (events_since st st2)
        = List.filter (constructible c) tried_urls
     /\ match r with
        | Ok p => exists failed, tried_urls = failed ++ [pv_url p]
        | Err _ => rest = []
        end)
  \/ (endpoints c = Err not_iterable /\ r = Err not_iterable /\ st2 = st).
Proof.
  intros Hc H. apply (getProvider_uncached _ _ _ _ Hc) in H.
  destruct H as [(urls & Hurls & H) | H]; [left | right; exact H].
  exists urls.
  apply getProvider_loop_run in H. destruct r as [p|e].
  - destruct H as (failed & url & rest & tried & He & -> & Hcon & Ht & _ & Hu
                   & _).
    exists (failed ++ [url]), rest. split; [exact Hurls|].
    split; [now rewrite <- app_assoc|].
    split; [intros Hn; apply app_eq_nil in Hn; destruct Hn; discriminate|].
    split; [|exists failed; reflexivity].
    rewrite (events_since_app _ _ _ Ht), omap_app, Hu, List.filter_app.
    simpl. now rewrite Hcon.
  - destruct H as (_ & _ & tried & Ht & _ & Hu).
    exists urls, []. rewrite app_nil_r.
    split; [exact Hurls|]. split; [reflexivity|].
    split; [exact (endpoints_nonempty _ _ Hurls)|].
    split; [|reflexivity].
    now rewrite (events_since_app _ _ _ Ht).
Qed.

(** C6. The call of [getProvider] that finds a chain identifier absent
    from the cache and succeeds has walked the candidate list (primary
    endpoint, configured fallbacks, the hardcoded public endpoint, empty
    entries dropped) in order: every probe before the last one failed, the
    last one answered, and its connection is what is returned and cached.
    After that, whatever calls of the two exported functions come in
    between, [getProvider] on the same identifier returns that connection
    and leaves the state as it is: no probe, no change of the cache. *)
Theorem getProvider_resolves_once c st p st1 :
  providerCache st !! c = None ->
  getProvider c st = (Ok p, st1) ->
  (exists configured urls,
     fallbacks c = Ok configured
     /\ endpoints c = Ok urls
     /\ urls
        = filter_Boolean
            ([get RPC_URLS c] ++ map Own configured
             ++ [Own "https://ethereum-sepolia.publicnode.com"])
     /\ exists failed url rest tried,
         urls = failed ++ url :: rest
         /\ p = connection c url
         /\ events_since st st1 = tried ++ [EvProbe p (Ok tt)]
         /\ Forall (fun e => is_failed_probe e = true) tried
         /\ omap probed_url tried = List.filter (constructible c) failed
         /\ providerCache st1 = <[c := p]> (providerCache st))
  /\ (forall calls,
        getProvider c (run_calls calls st1) = (Ok p, run_calls calls st1)).
Proof.
  intros Hc H. apply (getProvider_uncached _ _ _ _ Hc) in H.
  destruct H as [(urls & Hurls & H) | (_ & [=] & _)].
  apply getProvider_loop_run in H.
  destruct H as (failed & url & rest & tried & He & Hp & _ & Ht & Hf & Hu
                 & Hcache).
  split.
  - pose proof Hurls as Hdef. unfold endpoints, candidates in Hdef.
    destruct (fallbacks c) as [configured|e]; [|discriminate].
    injection Hdef as Hdef.
    exists configured, urls. split; [reflexivity|]. split; [exact Hurls|].
    split; [now symmetry|].
    exists failed, url, rest, tried.
    rewrite (events_since_app _ _ _ Ht). auto 10.
  - intros calls. unfold getProvider.
    rewrite (run_calls_keeps calls st1 c p); [reflexivity|].
    rewrite Hcache. apply lookup_insert_eq.
Qed.

(** C10. When [getProvider] throws "All RPC endpoints failed" for a chain
    identifier, the cache is what it was and has no entry for the
    identifier, and the next call of [getProvider] on it walks the list of
    endpoints from its first element again.  The only other way for
    [getProvider] to throw is while it builds that list, before anything is
    asked; the state is then untouched altogether.  From the start of the
    process on, whatever the exported functions are called with, every
    cached connection has answered a probe. *)
Theorem getProvider_failure_keeps_cache c st e st1 :
  getProvider c st = (Err e, st1) ->
  ((e = AllRpcEndpointsFailed c
    /\ exists urls,
        endpoints c = Ok urls
        /\ forall r st2,
            getProvider c st1 = (r, st2) ->
            exists tried_urls rest,
              urls = tried_urls ++ rest
              /\ tried_urls <> []
              /\ omap probed_url (events_since st1 st2)
                 = List.filter (constructible c) tried_urls
              /\ match r with
                 | Ok p => exists failed, tried_urls = failed ++ [pv_url p]
                 | Err _ => rest = []
                 end)
   \/ (e = not_iterable /\ endpoints c = Err not_iterable /\ st1 = st))
  /\ providerCache st1 = providerCache st
  /\ providerCache st1 !! c = None
  /\ (forall calls, cache_probed (run_calls calls initial_state)).
Proof.
  intros H.
  assert (Hmiss : providerCache st !! c = None).
  { unfold getProvider in H. destruct (providerCache st !! c); [|reflexivity].
    discriminate. }
  apply (getProvider_uncached _ _ _ _ Hmiss) in H.
  destruct H as [(urls & Hurls & H) | (He & [= ->] & ->)].
  - apply getProvider_loop_run in H. destruct H as (-> & Hcache & _).
    assert (Hmiss1 : providerCache st1 !! c = None) by (now rewrite Hcache).
    split; [|split; [exact Hcache|split; [exact Hmiss1|]]].
    + left. split; [reflexivity|]. exists urls. split; [exact Hurls|].
      intros r st2 Hnext.
      destruct (getProvider_miss _ _ _ _ Hmiss1 Hnext)
        as [(urls' & tried_urls & rest & Hurls' & Hsplit & Hrest)
           | (Herr & _)]; [|congruence].
      rewrite Hurls in Hurls'. injection Hurls' as <-.
      exists tried_urls, rest. split; [exact Hsplit | exact Hrest].
    + intros calls. apply run_calls_probed, cache_probed_initial.
  - split; [right; auto|]. split; [reflexivity|]. split; [exact Hmiss|].
    intros calls. apply run_calls_probed, cache_probed_initial.
Qed.

End Cache.

(** ** The transfer and the resolver on examples *)

Lemma sendToken_referral_fallback_witness :
  let run := @sendToken Demo.lib (Demo.net Demo.legacy) Demo.cfg
               (Demo.transfer "native" "1") initial_state in
  exists op s1 s2 r1,
    @executeTransaction Demo.lib (Demo.net Demo.legacy)
      (Demo.bridge AbiBridgeNative) "depositNative" Demo.native_args
      Demo.native_overrides op s1 = (r1, s2)
    /\ (exists Epre, trace s1 = trace initial_state ++ Epre
                     /\ List.filter is_deposit Epre = [])
    /\ match r1 with
       | Ok rc => fst run = Ok (rc_hash rc) /\ s2 = snd run
       | Err _ =>
           exists r2,
             @executeTransaction Demo.lib (Demo.net Demo.legacy)
               (Demo.bridge AbiBridgeNative) "depositNative"
               (removelast Demo.native_args) Demo.native_overrides op s2
             = (r2, snd run)
             /\ match r2 with
                | Ok rc2 => fst run = Ok (rc_hash rc2)
                | Err e2 => fst run = Err e2
                end
             /\ exists rs2 W,
                 events_since s2 (snd run)
                 = EvSend (Demo.bridge AbiBridgeNative) "depositNative"
                     (removelast Demo.native_args) Demo.native_overrides rs2
                   :: W
                 /\ List.filter is_send W = []
       end.
Proof.
  intros run.
  apply (@sendToken_referral_fallback Demo.lib (Demo.net Demo.legacy) Demo.cfg
           (Demo.transfer "native" "1") initial_state (fst run) (snd run)
           (Demo.bridge AbiBridgeNative) "depositNative" Demo.native_args
           Demo.native_overrides (Err (External "no matching fragment"))).
  - vm_compute. reflexivity.
  - vm_compute. right. right. left. reflexivity.
  - reflexivity.
Defined.

Lemma sendToken_approval_witness :
  let run := @sendToken Demo.lib (Demo.net Demo.healthy) Demo.cfg
               (Demo.transfer Demo.a_token "3") initial_state in
  exists pre ov rs post,
    events_since initial_state (snd run)
    = pre ++ EvSend Demo.erc20 "approve"
               [ArgAddr Demo.bridge_address; ArgBig (3000000 * 2)] ov rs
          :: post
    /\ List.filter is_send pre = []
    /\ List.filter is_approval post = [].
Proof.
  intros run.
  refine (proj2 (@sendToken_approval Demo.lib (Demo.net Demo.healthy) Demo.cfg
                   (Demo.transfer Demo.a_token "3") initial_state
                   (fst run) (snd run) Demo.erc20 (ArgAddr Demo.sender)
                   (ArgAddr Demo.bridge_address) 0 (Ok 6) 3000000 _ _ _ _) _).
  - vm_compute. reflexivity.
  - vm_compute. right. right. left. reflexivity.
  - vm_compute. right. right. right. right. left. reflexivity.
  - vm_compute. reflexivity.
  - lia.
Defined.

Lemma sendToken_insufficient_balance_witness :
  let run := @sendToken Demo.lib (Demo.net Demo.healthy) Demo.cfg
               (Demo.transfer Demo.a_token "7") initial_state in
  fst run = Err (InsufficientBalance "7" "5.0")
  /\ message (InsufficientBalance "7" "5.0")
     = "Insufficient balance. Need 7, has 5.0"
  /\ List.filter is_send (events_since initial_state (snd run)) = [].
Proof.
  intros run.
  apply (@sendToken_insufficient_balance Demo.lib (Demo.net Demo.healthy)
           Demo.cfg (Demo.transfer Demo.a_token "7") initial_state
           (fst run) (snd run) Demo.erc20 [ArgAddr Demo.sender]
           5000000 (Ok 6) 7000000 "5.0").
  - vm_compute. reflexivity.
  - vm_compute. right. right. left. reflexivity.
  - vm_compute. right. right. right. left. reflexivity.
  - vm_compute. reflexivity.
  - lia.
  - vm_compute. reflexivity.
Defined.

Lemma getProvider_resolves_once_witness :
  let st1 := snd (@getProvider Demo.lib (Demo.net Demo.primary_down) Demo.cfg
                    "SEPOLIA" initial_state) in
  let later :=
    @run_calls Demo.lib (Demo.net Demo.primary_down) Demo.cfg
      [CallSendToken (Demo.transfer "native" "1"); CallGetProvider "HOLESKY"]
      st1 in
  @getProvider Demo.lib (Demo.net Demo.primary_down) Demo.cfg "SEPOLIA" later
  = (Ok (Demo.provider_at "https://fallback.example"), later).
Proof.
  intros st1 later.
  refine (proj2 (@getProvider_resolves_once Demo.lib
                   (Demo.net Demo.primary_down) Demo.cfg
                   "SEPOLIA" initial_state
                   (Demo.provider_at "https://fallback.example") st1
                   _ _) _).
  - reflexivity.
  - vm_compute. reflexivity.
Defined.

Lemma getProvider_failure_keeps_cache_witness :
  let st1 := snd (@getProvider Demo.lib (Demo.net Demo.all_down) Demo.cfg
                    "SEPOLIA" initial_state) in
  providerCache st1 = providerCache initial_state
  /\ providerCache st1 !! "SEPOLIA" = None.
Proof.
  intros st1.
  destruct (@getProvider_failure_keeps_cache Demo.lib (Demo.net Demo.all_down)
              Demo.cfg "SEPOLIA" initial_state
              (AllRpcEndpointsFailed "SEPOLIA") st1)
    as (_ & Hsame & Hnone & _).
  - vm_compute. reflexivity.
  - split; [exact Hsame | exact Hnone].
Defined.

(** * Further properties

    ** [getGasParams]: what makes it fall back *)

Section FeeEstimatorEdges.

Context {lib : Ethers} {net : Network} {cfg : Config}.

Lemma fee_or_unsupplied o live fallback :
  supplied o = false ->
  fee_or o live fallback
  = match markup live with
    | Ok m => Ok (JBigInt (bigint_or m fallback))
    | Err e => Err e
    end.
Proof.
  unfold fee_or, supplied, bigint_or, truthy. intros H.
  destruct o as [v|]; [rewrite H|]; destruct (markup live) as [m|e];
    try reflexivity; destruct (m =? 0); reflexivity.
Qed.

Lemma fee_or_supplied o live fallback :
  supplied o = true -> exists v, o = Some v /\ fee_or o live fallback = Ok v.
Proof.
  unfold fee_or, supplied. destruct o as [v|]; [|discriminate].
  intros ->. eauto.
Qed.

(** X1. A live fee value of [null] (a chain without EIP-1559 fees) whose
    override is absent or zero makes the fee expression throw inside the
    [try]: the call returns the three fixed fallbacks, and drops every
    override with them, the gas limit and the other fee included. *)
Theorem getGasParams_null_live_fee p ov st fd :
  net_getFeeData (trace st) p = Ok fd ->
  (supplied (o_maxFeePerGas ov) = false /\ fd_maxFeePerGas fd = None)
  \/ (supplied (o_maxPriorityFeePerGas ov) = false
      /\ fd_maxPriorityFeePerGas fd = None) ->
  fst (getGasParams p ov st) = Ok default_gasParams.
Proof.
  intros Hfd H.
  unfold getGasParams, try_catch, bind, getFeeData, remote, lift.
  rewrite Hfd.
  destruct H as [[Hs Hn] | [Hs Hn]].
  - rewrite (fee_or_unsupplied _ _ _ Hs), Hn. reflexivity.
  - rewrite (fee_or_unsupplied (o_maxPriorityFeePerGas ov) _ _ Hs), Hn.
    simpl. destruct (fee_or _ _ _); reflexivity.
Qed.

(** X2. A gas limit override given as a non-zero BigInt never reaches the
    result: the log line of the [try] block cannot be serialised, so the
    call returns the three fixed fallbacks whatever the network answers
    and whatever the other overrides are. *)
Theorem getGasParams_bigint_gasLimit p ov st n :
  o_gasLimit ov = Some (JBigInt n) ->
  n <> 0 ->
  fst (getGasParams p ov st) = Ok default_gasParams.
Proof.
  intros Hgl Hn.
  unfold getGasParams, try_catch, bind, getFeeData, remote, lift, debugLog,
    gasLimit_or, truthy.
  rewrite Hgl. apply Z.eqb_neq in Hn. rewrite Hn. simpl.
  destruct (net_getFeeData _ _); [|reflexivity].
  destruct (fee_or _ _ _); [|reflexivity].
  destruct (fee_or _ _ _); [|reflexivity].
  destruct (formatUnits _ _); [|reflexivity].
  destruct (formatUnits _ _); reflexivity.
Qed.

(** X3. An override of zero (or any falsy entry) is the same as no
    override: the call behaves exactly as on the overrides object with its
    falsy entries removed, result and state alike. *)
Theorem getGasParams_falsy_override p ov st :
  getGasParams p ov st = getGasParams p (drop_falsy ov) st.
Proof.
  assert (Hfee : forall o live fb,
             fee_or (if supplied o then o else None) live fb
             = fee_or o live fb).
  { intros o live fb. destruct (supplied o) eqn:Hs; [reflexivity|].
    rewrite (fee_or_unsupplied o _ _ Hs). now apply fee_or_unsupplied. }
  assert (Hgl : forall o,
             gasLimit_or (if supplied o then o else None) = gasLimit_or o).
  { intros [v|]; simpl; [|reflexivity].
    destruct (truthy v) eqn:Hv; simpl; rewrite ?Hv; reflexivity. }
  unfold getGasParams, try_catch, bind, getFeeData, remote, lift.
  unfold drop_falsy. cbn [o_maxFeePerGas o_maxPriorityFeePerGas o_gasLimit].
  rewrite Hgl.
  destruct (net_getFeeData _ _) as [fd|e]; [|reflexivity].
  now rewrite !Hfee.
Qed.

(** X4. Without overrides and with both live values present, each fee is
    settled on its own: the live value times 125 over 100 when that is not
    zero, the fixed fallback (20 gwei, 15 gwei) when it is.  One component
    falling back does not touch the other. *)
Theorem getGasParams_fallback_per_component
    p st live_max live_priority s1 s2 :
  let mf := bigint_or (Z.quot (live_max * 125) 100) 20000000000 in
  let mp := bigint_or (Z.quot (live_priority * 125) 100) 15000000000 in
  net_getFeeData (trace st) p
  = Ok {| fd_maxFeePerGas := Some live_max;
          fd_maxPriorityFeePerGas := Some live_priority |} ->
  formatUnits (Some (JBigInt mf)) gwei_unit = Ok s1 ->
  formatUnits (Some (JBigInt mp)) gwei_unit = Ok s2 ->
  fst (getGasParams p no_overrides st)
  = Ok {| maxFeePerGas := JBigInt mf; maxPriorityFeePerGas := JBigInt mp;
          gasLimit := JNumber 500000 |}.
Proof.
  intros mf mp Hfd Hs1 Hs2.
  apply (getGasParams_calculated p no_overrides st _ _ _ s1 s2 Hfd);
    try assumption; try reflexivity.
  - now rewrite fee_or_unsupplied.
  - now rewrite fee_or_unsupplied.
Qed.

End FeeEstimatorEdges.

(** ** [executeTransaction]: errors and confirmation *)

Section ExecutorEdges.

Context {lib : Ethers} {net : Network} {cfg : Config}.

(** X5. An error of the network, whether the submission is rejected or the
    wait for the receipt fails, is thrown again as it is; after a rejected
    submission nothing else is asked. *)
Theorem executeTransaction_network_error
    c method args ov op st r st' :
  executeTransaction c method args ov op st = (r, st') ->
  (forall e, In (EvSend c method args ov (Err e)) (events_since st st') ->
             r = Err e
             /\ events_since st st' = [EvSend c method args ov (Err e)])
  /\ (forall tx e, In (EvWait tx (Err e)) (events_since st st') ->
                   r = Err e).
Proof.
  intros H. unfold executeTransaction, send, wait in H.
  run.
  all: match goal with
       | |- context [events_since ?a ?b] =>
           let E := fresh "E" in
           evar (E : list event);
           assert (HE : trace b = trace a ++ E) by (subst E; chain_trace);
           subst E; rewrite (events_since_app _ _ _ HE); clear HE
       end.
  all: split; [intros e Hin | intros tx e Hin]; simpl in Hin.
  all: repeat match goal with
         | H : _ \/ _ |- _ => destruct H
         | H : False |- _ => destruct H
         end; simplify_eq; auto.
Qed.

(** X6. When the node accepted the transaction but one of the two fee
    fields of the response cannot be formatted for the log line, the call
    throws that error and does not wait for the receipt, although the
    transaction is already out. *)
Theorem executeTransaction_log_failure
    c method args ov op st tx e :
  net_send (trace st) c method args ov = Ok tx ->
  formatUnits (option_map JBigInt (tx_maxFeePerGas tx)) gwei_unit = Err e
  \/ ((exists s, formatUnits (option_map JBigInt (tx_maxFeePerGas tx))
                   gwei_unit = Ok s)
      /\ formatUnits (option_map JBigInt (tx_maxPriorityFeePerGas tx))
           gwei_unit = Err e) ->
  fst (executeTransaction c method args ov op st) = Err e
  /\ events_since st (snd (executeTransaction c method args ov op st))
     = [EvSend c method args ov (Ok tx)].
Proof.
  intros Hs H.
  unfold executeTransaction, send, wait, bind, remote, lift.
  rewrite Hs.
  destruct H as [H | [[s H1] H2]].
  - rewrite H. simpl. split; [reflexivity|].
    now apply events_since_app.
  - rewrite H1, H2. simpl. split; [reflexivity|].
    now apply events_since_app.
Qed.

(** X7. When the call returns a receipt, the run consisted of exactly two
    remote calls, the accepted submission and the wait that produced this
    receipt, the status of the receipt is 1, and the cache was not
    touched. *)
Theorem executeTransaction_confirmed c method args ov op st rc st' :
  executeTransaction c method args ov op st = (Ok rc, st') ->
  rc_status rc = Some 1
  /\ providerCache st' = providerCache st
  /\ exists tx,
      events_since st st'
      = [EvSend c method args ov (Ok tx); EvWait tx (Ok rc)].
Proof.
  intros H. apply executeTransaction_run in H. cbv zeta in H.
  destruct H as [Hc [[_ [e He]] | (tx & Hs & Ht & Hr)]]; [discriminate|].
  rewrite (events_since_app _ _ _ Ht). rewrite Hs in *.
  destruct (net_wait _ tx) as [rc'|e]; [|discriminate].
  destruct (bool_decide (rc_status rc' = Some 1)) eqn:Hb; [|discriminate].
  apply bool_decide_eq_true in Hb. simplify_eq. eauto.
Qed.

End ExecutorEdges.

(** ** [getProvider]: which endpoints, which cache entries *)

Section ResolverEdges.

Context {lib : Ethers} {net : Network} {cfg : Config}.

Lemma failed_probes_without_url tried :
  Forall (fun e => is_failed_probe e = true) tried ->
  omap probed_url tried = [] ->
  tried = [].
Proof.
  intros HF. destruct HF as [|e tried He _]; [reflexivity|].
  destruct e as [p [|]| | | |]; try discriminate.
Qed.

Lemma filter_all_false {A} (f : A -> bool) l :
  (forall x, In x l -> f x = false) -> List.filter f l = [].
Proof.
  induction l as [|u l IH]; intros H; [reflexivity|]. simpl.
  rewrite H by now left. apply IH. intros x Hx. apply H. now right.
Qed.

Lemma state_eq st st' :
  providerCache st' = providerCache st -> trace st' = trace st -> st' = st.
Proof. destruct st, st'. simpl. congruence. Qed.

(** The events of the loop: probes of connections built for the chain
    identifier on URLs of the list. *)
Lemma getProvider_loop_events c urls : forall st r st',
  getProvider_loop c urls st = (r, st') ->
  exists E,
    trace st' = trace st ++ E
    /\ Forall (fun e => exists url res,
                 In url urls /\ e = EvProbe (connection c url) res) E.
Proof.
  induction urls as [|url rest IH]; intros st r st' H.
  - simpl in H. run. exists []. rewrite app_nil_r. auto.
  - cbn [getProvider_loop] in H.
    unfold JsonRpcProvider, probe, providerCache_set in H.
    run.
    all: try match goal with
           | H : getProvider_loop _ _ _ = _ |- _ =>
               apply IH in H; destruct H as (E & Ht & HE)
           end.
    all: eexists; split; [chain_trace|].
    all: repeat first
           [ apply List.Forall_nil
           | apply List.Forall_cons;
             [exists url; eexists; split; [now left | reflexivity]|]
           | apply Forall_app; split
           | eapply Forall_impl;
             [eassumption
             | intros ? (u & res & ? & ?); exists u, res;
               split; [now right | assumption]] ].
Qed.

(** X8. A call of [getProvider] changes the cache at most at the chain
    identifier it was called with: the entry of every other identifier is
    what it was. *)
Theorem getProvider_other_chains c st r st' c' :
  getProvider c st = (r, st') ->
  c' <> c ->
  providerCache st' !! c' = providerCache st !! c'.
Proof.
  intros H Hne.
  destruct (providerCache st !! c) as [p|] eqn:Hc.
  - unfold getProvider in H. rewrite Hc in H. now simplify_eq.
  - apply (getProvider_uncached _ _ _ _ Hc) in H.
    destruct H as [(urls & _ & H) | (_ & _ & ->)]; [|reflexivity].
    apply getProvider_loop_run in H. destruct r as [p|e].
    + destruct H as (_ & _ & _ & _ & _ & _ & _ & _ & _ & _ & Hcache).
      rewrite Hcache. apply lookup_insert_ne. congruence.
    + destruct H as (_ & Hcache & _). now rewrite Hcache.
Qed.

(** X9. Every remote call of [getProvider] is a liveness probe of a
    connection built on one of the endpoints of the chain identifier,
    with [Number(CHAINS[chainId])] as its chain number: no other URL is
    contacted, nothing else is asked. *)
Theorem getProvider_probes_candidates_only c st r st' e :
  getProvider c st = (r, st') ->
  In e (events_since st st') ->
  exists urls url res,
    endpoints c = Ok urls
    /\ In url urls
    /\ e = EvProbe {| pv_url := url; pv_chainId := Number (get CHAINS c);
                      pv_name := toLowerCase c |} res.
Proof.
  intros H Hin.
  destruct (providerCache st !! c) as [p|] eqn:Hc.
  - unfold getProvider in H. rewrite Hc in H.
    simplify_eq. rewrite events_since_refl in Hin. destruct Hin.
  - apply (getProvider_uncached _ _ _ _ Hc) in H.
    destruct H as [(urls & Hurls & H) | (_ & _ & ->)];
      [|rewrite events_since_refl in Hin; destruct Hin].
    apply getProvider_loop_events in H. destruct H as (E & Ht & HE).
    rewrite (events_since_app _ _ _ Ht) in Hin.
    rewrite Forall_forall in HE. apply list_elem_of_In in Hin.
    destruct (HE e Hin) as (url & res & Hurl & He).
    exists urls, url, res. auto.
Qed.

(** X10. For a chain identifier at which the reads of [RPC_URLS] and of
    [RPC_FALLBACKS] both give [undefined] (no entry, and not a name that
    every object inherits), the only endpoint is the hardcoded public
    Sepolia one: an uncached call probes that URL at most once and returns
    the connection on it or throws "All RPC endpoints failed". *)
Theorem getProvider_unconfigured_chain c st r st' :
  get RPC_URLS c = Undefined ->
  get RPC_FALLBACKS c = Undefined ->
  providerCache st !! c = None ->
  getProvider c st = (r, st') ->
  endpoints c = Ok [public_endpoint]
  /\ omap probed_url (events_since st st')
     = List.filter (constructible c) [public_endpoint]
  /\ match r with
     | Ok p => p = connection c public_endpoint
     | Err e => e = AllRpcEndpointsFailed c
     end.
Proof.
  intros Hu Hf Hc H.
  assert (He : endpoints c = Ok [public_endpoint]).
  { unfold endpoints, candidates, fallbacks. rewrite Hu, Hf. reflexivity. }
  split; [exact He|].
  apply (getProvider_uncached _ _ _ _ Hc) in H.
  destruct H as [(urls & Hurls & H) | (Herr & _)]; [|congruence].
  rewrite He in Hurls. injection Hurls as <-.
  apply getProvider_loop_run in H. destruct r as [p|e].
  - destruct H as (failed & url & rest & tried & Hl & -> & Hcon & Ht & Hfp
                   & Hom & _).
    destruct failed as [|u failed].
    + simpl in Hl. injection Hl as <- <-.
      simpl in Hom. apply failed_probes_without_url in Hom; [|exact Hfp].
      subst tried. rewrite (events_since_app _ _ _ Ht).
      simpl. rewrite Hcon. auto.
    + destruct failed; discriminate.
  - destruct H as (-> & _ & tried & Ht & _ & Hom).
    rewrite (events_since_app _ _ _ Ht). auto.
Qed.

(** X11. When the connection constructor refuses every endpoint of the
    chain identifier (as for an identifier whose chain number is not a
    number), an uncached call throws without a single remote call and
    leaves the state as it was; the error is "All RPC endpoints failed",
    or that of building the list of endpoints when that already throws. *)
Theorem getProvider_nothing_constructible c st :
  providerCache st !! c = None ->
  (forall urls url,
     endpoints c = Ok urls -> In url urls -> constructible c url = false) ->
  getProvider c st
  = (Err (match endpoints c with
          | Ok _ => AllRpcEndpointsFailed c
          | Err e => e
          end), st).
Proof.
  intros Hc Hall.
  destruct (getProvider c st) as [r st'] eqn:H.
  apply (getProvider_uncached _ _ _ _ Hc) in H.
  destruct H as [(urls & Hurls & H) | (Herr & -> & ->)];
    [|now rewrite Herr].
  rewrite Hurls.
  apply getProvider_loop_run in H. destruct r as [p|e].
  - destruct H as (failed & url & rest & _ & Hl & _ & Hcon & _).
    rewrite (Hall urls url Hurls) in Hcon; [discriminate|].
    rewrite Hl. apply in_app_iff. right. now left.
  - destruct H as (-> & Hcache & tried & Ht & Hfp & Hom).
    assert (Hnone : List.filter (constructible c) urls = []).
    { apply filter_all_false. intros url Hin. exact (Hall urls url Hurls Hin). }
    rewrite Hnone in Hom. apply failed_probes_without_url in Hom; [|exact Hfp].
    subst tried. rewrite app_nil_r in Ht.
    now rewrite (state_eq st st' Hcache Ht).
Qed.

(** X29. At a chain identifier that every object inherits and that has no
    entry of its own in [RPC_FALLBACKS], the read of [RPC_FALLBACKS] finds
    a member of [Object.prototype], which cannot be spread: an uncached
    call throws while it builds the list of endpoints, nothing is asked
    and the state is as it was. *)
Theorem getProvider_inherited_name c st :
  c ∈ Object_prototype ->
  RPC_FALLBACKS !! c = None ->
  providerCache st !! c = None ->
  getProvider c st = (Err not_iterable, st).
Proof.
  intros Hin Hf Hc. unfold getProvider. rewrite Hc.
  unfold bind, lift, endpoints, candidates, fallbacks, get.
  rewrite Hf. now rewrite bool_decide_eq_true_2.
Qed.

End ResolverEdges.

(** ** [sendToken]: from the request to the branch *)

(** The events between two states of a run, from the trace equations. *)
Ltac since_events :=
  match goal with
  | |- context [events_since ?a ?b] =>
      let E := fresh "E" in
      evar (E : list event);
      let HE := fresh "HE" in
      assert (HE : trace b = trace a ++ E) by (subst E; chain_trace);
      subst E; rewrite (events_since_app _ _ _ HE); clear HE
  end.

(** The trace equations of the runs of [getProvider] and [getGasParams]
    among the hypotheses, the runs themselves kept. *)
Ltac setup_events :=
  repeat match goal with
    | H : getProvider _ _ = _ |- _ =>
        let H' := fresh in
        pose proof (getProvider_run _ _ _ _ H) as H';
        destruct H' as ((? & ? & ?) & _ & _);
        revert H
    | H : getGasParams _ _ _ = _ |- _ =>
        let H' := fresh in
        let Hres := fresh in
        pose proof (getGasParams_run _ _ _ _ _ H) as H';
        destruct H' as (_ & ? & ? & Hres);
        try discriminate Hres; simplify_eq;
        revert H
    end;
  intros.

Section Dispatch.

Context {lib : Ethers} {net : Network} {cfg : Config}.

(** Every run of [sendToken] either stops during the setup, having asked
    for probes and at most one fee data read, or enters the branch that the
    asset selects, with the wallet, recipient, fee parameters and bridge
    address that the setup computed.  Once the fee data is read, the only
    way to stop in the setup is the missing bridge address. *)
Lemma sendToken_dispatch rq st r st' :
  sendToken rq st = (r, st') ->
  (exists e Ep F,
     r = Err e
     /\ events_since st st' = Ep ++ F
     /\ Forall (fun e => is_probe e = true) Ep
     /\ (F = []
         \/ exists p rf,
             F = [EvFeeData p rf]
             /\ e = MissingBridgeAddress (sourceChain rq)))
  \/ exists key p st_p sa ra g st0 ba,
      privateKey rq = Some key
      /\ getProvider (sourceChain rq) st = (Ok p, st_p)
      /\ Wallet_address key = Ok sa
      /\ recipientAddress rq sa = Ok ra
      /\ getGasParams p (gasSettings rq) st_p = (Ok g, st0)
      /\ get UNION_CONTRACT (sourceChain rq) = ba
      /\ truthy_ref ba = true
      /\ (exists Ep rf,
            trace st0 = trace st ++ Ep ++ [EvFeeData p rf]
            /\ Forall (fun e => is_probe e = true) Ep)
      /\ let w := {| wl_privateKey := key; wl_provider := p;
                     wl_address := sa |} in
         if isNative (asset rq)
         then sendToken_native rq w ra ba g st0 = (r, st')
         else sendToken_erc20 rq w sa ra ba g (asset rq =? "WETH")%string
                (tokenAddress rq) st0 = (r, st').
Proof.
  rewrite sendToken_body_eq. unfold sendToken_body, Wallet. intros H.
  run; setup_events.
  all: try (left; eexists;
            match goal with
            | Hp : Forall (fun e => is_probe e = true) ?E1,
              Hf : trace _ = trace _ ++ [EvFeeData _ _] |- _ =>
                exists E1; eexists;
                split; [reflexivity|];
                split; [since_events; reflexivity|];
                split; [assumption|];
                right; do 2 eexists; split; reflexivity
            | Hp : Forall (fun e => is_probe e = true) ?E1 |- _ =>
                exists E1, [];
                split; [reflexivity|];
                split; [since_events; rewrite ?app_nil_r; reflexivity|];
                split; [assumption | left; reflexivity]
            | _ =>
                exists [], [];
                split; [reflexivity|];
                split; [since_events; reflexivity|];
                split; [constructor | left; reflexivity]
            end; fail).
  all: right; unfold recipientAddress, tokenAddress, isNative.
  all: repeat match goal with
         | H : recipient _ = _ |- _ => rewrite H
         | H : (_ || _)%bool = _ |- _ => rewrite H
         | H : truthy_str _ = _ |- _ => rewrite H
         end.
  all: do 8 eexists; repeat (split; [eassumption || reflexivity|]).
  all: split;
    [ do 2 eexists; split; [|eassumption];
      match goal with
      | |- trace ?b = trace ?a ++ _ =>
          let E := fresh "E" in
          evar (E : list event);
          let HE := fresh "HE" in
          assert (HE : trace b = trace a ++ E) by (subst E; chain_trace);
          subst E; exact HE
      end |].
  all: cbv zeta; eassumption.
Qed.

End Dispatch.

(** ** The two branches, event by event *)

Section BranchShapes.

Context {lib : Ethers} {net : Network} {cfg : Config}.

(** Every transaction of the native branch. *)
Lemma sendToken_native_sends
    rq w ra ba g st r st' E c method args ov rs :
  sendToken_native rq w ra ba g st = (r, st') ->
  trace st' = trace st ++ E ->
  In (EvSend c method args ov rs) E ->
  c = {| ct_target := ba; ct_abi := AbiBridgeNative; ct_runner := w |}
  /\ method = "depositNative"
  /\ (exists v, parseEther (amount rq) = Ok v
                /\ ov = spread (Some v) g None)
  /\ (args = [arg_of_num (get CHAINS (destChain rq)); ArgAddr ra;
              ArgAddr (referral_or_zero (referral rq))]
      \/ args = [arg_of_num (get CHAINS (destChain rq)); ArgAddr ra]).
Proof.
  unfold sendToken_native, Contract. intros H HE Hin.
  run; exec_events; name_events HE.
  all: split_in Hin.
  all: repeat split; eauto.
Qed.

(** Every transaction of the ERC20 branch. *)
Lemma sendToken_erc20_sends
    rq w sa ra ba g isWETH ta st r st' E c method args ov rs :
  sendToken_erc20 rq w sa ra ba g isWETH ta st = (r, st') ->
  trace st' = trace st ++ E ->
  In (EvSend c method args ov rs) E ->
  exists rd parsedAmount,
    In (EvRead {| ct_target := ta; ct_abi := AbiERC20; ct_runner := w |}
          "decimals" [] rd) E
    /\ parseUnits (amount rq) (decimals_or_18 rd) = Ok parsedAmount
    /\ ((c = {| ct_target := ta; ct_abi := AbiERC20; ct_runner := w |}
         /\ method = "approve"
         /\ args = [arg_of_addr ba; ArgBig (parsedAmount * 2)]
         /\ ov = spread None g
                   (Some (JNumber (if isWETH then 200000 else 100000))))
        \/ (c = {| ct_target := ba; ct_abi := AbiBridgeERC20;
                   ct_runner := w |}
            /\ method = "depositERC20"
            /\ (args = [arg_of_addr ta; ArgBig parsedAmount;
                        arg_of_num (get CHAINS (destChain rq)); ArgAddr ra;
                        ArgAddr (referral_or_zero (referral rq))]
                \/ args = [arg_of_addr ta; ArgBig parsedAmount;
                           arg_of_num (get CHAINS (destChain rq)); ArgAddr ra])
            /\ ov = spread None g
                      (Some (JNumber (if isWETH then 350000 else 300000))))).
Proof.
  unfold sendToken_erc20, Contract, read. intros H HE Hin.
  run; exec_events; name_events HE.
  all: split_in Hin.
  all: eexists _, _; split; [simpl; left; reflexivity|].
  all: split; [simpl; eassumption|].
  all: first [ left; repeat split; reflexivity
             | right; repeat split; auto ].
Qed.

(** The ERC20 branch asks for contract reads and transactions only. *)
Lemma sendToken_erc20_events rq w sa ra ba g isWETH ta st r st' :
  sendToken_erc20 rq w sa ra ba g isWETH ta st = (r, st') ->
  providerCache st' = providerCache st
  /\ exists E, trace st' = trace st ++ E
               /\ Forall (fun e => is_setup e = false) E.
Proof.
  unfold sendToken_erc20, Contract, read. intros H.
  run; exec_events; (split; [congruence|]).
  all: eexists; split; [chain_trace | forall_events].
Qed.

End BranchShapes.

(** ** [sendToken]: what every submitted transaction carries *)

Section Submissions.

Context {lib : Ethers} {net : Network} {cfg : Config}.

(** The events of a run that entered a branch: the setup, then the
    branch. *)
Lemma sendToken_branch_events rq st r st' :
  sendToken rq st = (r, st') ->
  (exists e Ep F,
     r = Err e
     /\ events_since st st' = Ep ++ F
     /\ Forall (fun e => is_probe e = true) Ep
     /\ (F = []
         \/ exists p rf,
             F = [EvFeeData p rf]
             /\ e = MissingBridgeAddress (sourceChain rq)))
  \/ exists key p st_p sa ra g st0 ba Ep rf Eb,
      privateKey rq = Some key
      /\ getProvider (sourceChain rq) st = (Ok p, st_p)
      /\ Wallet_address key = Ok sa
      /\ recipientAddress rq sa = Ok ra
      /\ getGasParams p (gasSettings rq) st_p = (Ok g, st0)
      /\ get UNION_CONTRACT (sourceChain rq) = ba
      /\ truthy_ref ba = true
      /\ Forall (fun e => is_probe e = true) Ep
      /\ events_since st st' = Ep ++ [EvFeeData p rf] ++ Eb
      /\ trace st' = trace st0 ++ Eb
      /\ providerCache st' = providerCache st0
      /\ Forall (fun e => is_setup e = false) Eb
      /\ let w := {| wl_privateKey := key; wl_provider := p;
                     wl_address := sa |} in
         if isNative (asset rq)
         then sendToken_native rq w ra ba g st0 = (r, st')
         else sendToken_erc20 rq w sa ra ba g (asset rq =? "WETH")%string
                (tokenAddress rq) st0 = (r, st').
Proof.
  intros H. apply sendToken_dispatch in H.
  destruct H as [H | (key & p & st_p & sa & ra & g & st0 & ba & Hk & Hp & Hw
                      & Hr & Hg & Hb & Hbt & (Ep & rf & Ht0 & HEp) & H)];
    [left; exact H | right].
  cbv zeta in H.
  assert (Hbr : providerCache st' = providerCache st0
                /\ exists Eb, trace st' = trace st0 ++ Eb
                              /\ Forall (fun e => is_setup e = false) Eb).
  { destruct (isNative (asset rq)).
    - apply sendToken_native_run in H. destruct H as (Hc & Eb & Ht & HF).
      split; [exact Hc|]. exists Eb. split; [exact Ht|].
      eapply Forall_impl; [exact HF|]. intros [] ?; simpl in *; congruence.
    - now apply sendToken_erc20_events in H. }
  destruct Hbr as (Hc & Eb & Ht & HEb).
  exists key, p, st_p, sa, ra, g, st0, ba, Ep, rf, Eb.
  repeat (split; [assumption|]).
  split; [|auto].
  apply events_since_app. rewrite Ht, Ht0. now rewrite <- !app_assoc.
Qed.

(** Every transaction of a run, in terms of the request. *)
Lemma sendToken_send_shape rq st r st' c method args ov rs :
  sendToken rq st = (r, st') ->
  In (EvSend c method args ov rs) (events_since st st') ->
  exists key p st_p sa ra g st0 ba,
    privateKey rq = Some key
    /\ getProvider (sourceChain rq) st = (Ok p, st_p)
    /\ Wallet_address key = Ok sa
    /\ recipientAddress rq sa = Ok ra
    /\ getGasParams p (gasSettings rq) st_p = (Ok g, st0)
    /\ get UNION_CONTRACT (sourceChain rq) = ba
    /\ let w := {| wl_privateKey := key; wl_provider := p;
                   wl_address := sa |} in
       (isNative (asset rq) = true
        /\ c = {| ct_target := ba; ct_abi := AbiBridgeNative;
                  ct_runner := w |}
        /\ method = "depositNative"
        /\ (exists v, parseEther (amount rq) = Ok v
                      /\ ov = spread (Some v) g None)
        /\ (args = [arg_of_num (get CHAINS (destChain rq)); ArgAddr ra;
                    ArgAddr (referral_or_zero (referral rq))]
            \/ args = [arg_of_num (get CHAINS (destChain rq)); ArgAddr ra]))
       \/ (isNative (asset rq) = false
           /\ exists parsedAmount,
               (c = {| ct_target := tokenAddress rq; ct_abi := AbiERC20;
                       ct_runner := w |}
                /\ method = "approve"
                /\ args = [arg_of_addr ba; ArgBig (parsedAmount * 2)]
                /\ ov = spread None g
                          (Some (JNumber
                                   (if (asset rq =? "WETH")%string
                                    then 200000 else 100000))))
               \/ (c = {| ct_target := ba; ct_abi := AbiBridgeERC20;
                          ct_runner := w |}
                   /\ method = "depositERC20"
                   /\ (args = [arg_of_addr (tokenAddress rq);
                               ArgBig parsedAmount;
                               arg_of_num (get CHAINS (destChain rq));
                               ArgAddr ra;
                               ArgAddr (referral_or_zero (referral rq))]
                       \/ args = [arg_of_addr (tokenAddress rq);
                                  ArgBig parsedAmount;
                                  arg_of_num (get CHAINS (destChain rq));
                                  ArgAddr ra])
                   /\ ov = spread None g
                             (Some (JNumber
                                      (if (asset rq =? "WETH")%string
                                       then 350000 else 300000))))).
Proof.
  intros H Hin. apply sendToken_branch_events in H.
  destruct H as [(e & Ep & F & _ & HE & HEp & HF)
                | (key & p & st_p & sa & ra & g & st0 & ba & Ep & rf & Eb
                   & Hk & Hp & Hw & Hr & Hg & Hb & _ & HEp & HE & Ht & _ & _
                   & H)].
  - rewrite HE in Hin. destruct HF as [-> | (p & rf & -> & _)];
      split_in Hin.
  - rewrite HE in Hin. split_in Hin.
    exists key, p, st_p, sa, ra, g, st0, ba.
    repeat (split; [assumption|]).
    cbv zeta in *. destruct (isNative (asset rq)).
    + left. split; [reflexivity|].
      exact (sendToken_native_sends _ _ _ _ _ _ _ _ _ _ _ _ _ _ H Ht Hin).
    + right. split; [reflexivity|].
      destruct (sendToken_erc20_sends _ _ _ _ _ _ _ _ _ _ _ _ _ _ _ _ _
                  H Ht Hin) as (rd & pa & _ & _ & Hshape).
      exists pa. exact Hshape.
Qed.

(** X12. Native value goes with the native deposit and with nothing else:
    every [depositNative] call of a run carries [parseEther(amount)] as
    its value, and every other transaction of a run (approval, ERC20
    deposit) carries no value. *)
Theorem sendToken_value rq st r st' c method args ov rs :
  sendToken rq st = (r, st') ->
  In (EvSend c method args ov rs) (events_since st st') ->
  (method = "depositNative"
   /\ exists v, parseEther (amount rq) = Ok v /\ ov_value ov = Some v)
  \/ (method <> "depositNative" /\ ov_value ov = None).
Proof.
  intros H Hin.
  destruct (sendToken_send_shape _ _ _ _ _ _ _ _ _ H Hin)
    as (key & p & st_p & sa & ra & g & st0 & ba & _ & _ & _ & _ & _ & _
        & Hshape).
  cbv zeta in Hshape.
  destruct Hshape as [(_ & _ & -> & (v & Hv & ->) & _)
                     | (_ & pa & [(_ & -> & _ & ->) | (_ & -> & _ & ->)])].
  - left. split; [reflexivity|]. exists v. auto.
  - right. split; [discriminate | reflexivity].
  - right. split; [discriminate | reflexivity].
Qed.

(** X13. On the token path the gas limit of the caller never reaches a
    transaction: every approval goes out with a gas limit of 200000 for
    WETH and 100000 otherwise, every ERC20 deposit with 350000 for WETH and
    300000 otherwise, whatever [gasSettings.gasLimit] is. *)
Theorem sendToken_token_gasLimit rq st r st' c method args ov rs :
  sendToken rq st = (r, st') ->
  In (EvSend c method args ov rs) (events_since st st') ->
  isNative (asset rq) = false ->
  (method = "approve"
   /\ ov_gasLimit ov
      = JNumber (if (asset rq =? "WETH")%string then 200000 else 100000))
  \/ (method = "depositERC20"
      /\ ov_gasLimit ov
         = JNumber (if (asset rq =? "WETH")%string then 350000 else 300000)).
Proof.
  intros H Hin Hnat.
  destruct (sendToken_send_shape _ _ _ _ _ _ _ _ _ H Hin)
    as (key & p & st_p & sa & ra & g & st0 & ba & _ & _ & _ & _ & _ & _
        & Hshape).
  cbv zeta in Hshape.
  destruct Hshape as [(Hn & _)
                     | (_ & pa & [(_ & -> & _ & ->) | (_ & -> & _ & ->)])].
  - congruence.
  - left. split; reflexivity.
  - right. split; reflexivity.
Qed.

(** X14. The recipient of every deposit call of a run is the checksummed
    [recipient] of the request when one is given, and the address of the
    signing key when it is [null] or empty. *)
Theorem sendToken_recipient rq st r st' c method args ov rs :
  sendToken rq st = (r, st') ->
  In (EvSend c method args ov rs) (events_since st st') ->
  is_deposit (EvSend c method args ov rs) = true ->
  exists key sa ra,
    privateKey rq = Some key
    /\ Wallet_address key = Ok sa
    /\ (if truthy_str (recipient rq)
        then exists given, recipient rq = Some given /\ getAddress given = Ok ra
        else ra = sa)
    /\ nth_error args (if isNative (asset rq) then 1 else 3)%nat
       = Some (ArgAddr ra).
Proof.
  intros H Hin Hdep.
  destruct (sendToken_send_shape _ _ _ _ _ _ _ _ _ H Hin)
    as (key & p & st_p & sa & ra & g & st0 & ba & Hk & _ & Hw & Hr & _ & _
        & Hshape).
  exists key, sa, ra. split; [exact Hk|]. split; [exact Hw|]. split.
  - unfold recipientAddress in Hr. destruct (recipient rq) as [given|]; simpl.
    + destruct (negb (given =? "")%string) eqn:Hg; simpl in Hr.
      * rewrite Hg in Hr. eauto.
      * rewrite Hg in Hr. congruence.
    + congruence.
  - cbv zeta in Hshape.
    destruct Hshape as [(-> & _ & _ & _ & [-> | ->])
                       | (-> & pa & [(_ & -> & _) | (_ & _ & [-> | ->] & _)])];
      try reflexivity.
    discriminate.
Qed.

(** X15. The last argument of every deposit call that has the referral
    argument is the [referral] of the request, and the zero address when it
    is [null] or empty. *)
Theorem sendToken_referral_argument rq st r st' c method args ov rs :
  sendToken rq st = (r, st') ->
  In (EvSend c method args ov rs) (events_since st st') ->
  with_referral method args = true ->
  List.last args ArgUndefined
  = ArgAddr (if truthy_str (referral rq)
             then default ZeroAddress (referral rq)
             else "0x0000000000000000000000000000000000000000").
Proof.
  intros H Hin Href.
  assert (Hz : referral_or_zero (referral rq)
               = if truthy_str (referral rq)
                 then default ZeroAddress (referral rq)
                 else "0x0000000000000000000000000000000000000000").
  { unfold referral_or_zero. destruct (referral rq) as [x|]; simpl;
      [destruct (negb (x =? "")%string)|]; reflexivity. }
  rewrite <- Hz.
  destruct (sendToken_send_shape _ _ _ _ _ _ _ _ _ H Hin)
    as (key & p & st_p & sa & ra & g & st0 & ba & _ & _ & _ & _ & _ & _
        & Hshape).
  cbv zeta in Hshape.
  destruct Hshape as [(_ & _ & -> & _ & [-> | ->])
                     | (_ & pa & [(_ & -> & -> & _)
                                 | (_ & -> & [-> | ->] & _)])];
    try reflexivity; discriminate.
Qed.

(** X16. Approvals are sent to the token contract (the address of
    [TOKENS.WETH] for the source chain when the asset is WETH, the asset
    string itself otherwise) and name the bridge contract of the source
    chain as spender; deposits are sent to that bridge contract.  Both are
    signed with the key of the request. *)
Theorem sendToken_targets rq st r st' c method args ov rs :
  sendToken rq st = (r, st') ->
  In (EvSend c method args ov rs) (events_since st st') ->
  privateKey rq = Some (wl_privateKey (ct_runner c))
  /\ exists ba,
      get UNION_CONTRACT (sourceChain rq) = ba
      /\ truthy_ref ba = true
      /\ if (method =? "approve")%string
         then ct_target c
              = (if (asset rq =? "WETH")%string
                 then get TOKENS_WETH (sourceChain rq)
                 else Own (asset rq))
              /\ nth_error args 0 = Some (arg_of_addr ba)
         else ct_target c = ba.
Proof.
  intros H Hin.
  assert (Hbt : truthy_ref (get UNION_CONTRACT (sourceChain rq)) = true).
  { destruct (sendToken_dispatch _ _ _ _ H)
      as [(e & Ep & F & _ & HE & HEp & HF)
         | (key & p & st_p & sa & ra & g & st0 & ba & _ & _ & _ & _ & _
            & <- & Hbt & _)]; [|exact Hbt].
    rewrite HE in Hin. destruct HF as [-> | (p & rf & -> & _)];
      split_in Hin. }
  destruct (sendToken_send_shape _ _ _ _ _ _ _ _ _ H Hin)
    as (key & p & st_p & sa & ra & g & st0 & ba & Hk & _ & _ & _ & _ & Hb
        & Hshape).
  cbv zeta in Hshape. rewrite Hb in Hbt.
  destruct Hshape as [(_ & -> & -> & _)
                     | (Hn & pa & [(-> & -> & -> & _) | (-> & -> & _)])];
    (split; [exact Hk|]); exists ba; (split; [exact Hb|]);
    (split; [exact Hbt|]); simpl; auto.
  split; [|reflexivity]. unfold tokenAddress. now rewrite Hn.
Qed.

(** X17. A native transfer never reads a token contract and never
    approves: every contract call of the run is a [depositNative]
    transaction. *)
Theorem sendToken_native_no_token_calls rq st r st' :
  sendToken rq st = (r, st') ->
  isNative (asset rq) = true ->
  List.filter is_read (events_since st st') = []
  /\ forall c method args ov rs,
       In (EvSend c method args ov rs) (events_since st st') ->
       method = "depositNative".
Proof.
  intros H Hnat. split.
  - apply sendToken_branch_events in H.
    destruct H as [(e & Ep & F & _ & HE & HEp & HF)
                  | (key & p & st_p & sa & ra & g & st0 & ba & Ep & rf & Eb
                     & _ & _ & _ & _ & _ & _ & _ & HEp & HE & Ht & _ & _
                     & H)].
    + rewrite HE. destruct HF as [-> | (p & rf & -> & _)]; filter_nil.
    + cbv zeta in H. rewrite Hnat in H.
      apply sendToken_native_run in H. destruct H as (_ & E' & Ht' & HE').
      rewrite Ht in Ht'. apply app_inv_head in Ht'. subst E'.
      rewrite HE. filter_nil.
  - intros c method args ov rs Hin.
    destruct (sendToken_send_shape _ _ _ _ _ _ _ _ _ H Hin)
      as (key & p & st_p & sa & ra & g & st0 & ba & _ & _ & _ & _ & _ & _
          & Hshape).
    cbv zeta in Hshape.
    destruct Hshape as [(_ & _ & -> & _) | (Hn & _)]; [reflexivity|].
    congruence.
Qed.

(** X18. Without a bridge address for the source chain in
    [UNION_CONTRACT] (no entry, or an empty one) the call throws, and no
    contract is read or called; the connection has been resolved and the
    fee data read by then, and once the fee data is read the error is
    "Missing bridge address". *)
Theorem sendToken_missing_bridge rq st r st' :
  sendToken rq st = (r, st') ->
  truthy_ref (get UNION_CONTRACT (sourceChain rq)) = false ->
  (exists e, r = Err e)
  /\ Forall (fun e => is_setup e = true) (events_since st st')
  /\ (forall p rf,
        In (EvFeeData p rf) (events_since st st') ->
        r = Err (MissingBridgeAddress (sourceChain rq))).
Proof.
  intros H Hb. apply sendToken_dispatch in H.
  destruct H as [(e & Ep & F & -> & HE & HEp & HF)
                | (key & p & st_p & sa & ra & g & st0 & ba & _ & _ & _ & _ & _
                   & Hba & Hbt & _)].
  - split; [eauto|]. rewrite HE. split.
    + destruct HF as [-> | (p & rf & -> & _)]; forall_events.
    + intros p rf Hin.
      destruct HF as [-> | (p' & rf' & -> & ->)]; [|reflexivity].
      split_in Hin.
  - rewrite Hba in Hb. congruence.
Qed.

End Submissions.

Section ExecutorOk.

Context {lib : Ethers} {net : Network} {cfg : Config}.

(** The run behind a returned receipt. *)
Lemma executeTransaction_ok c method args ov op st rc st' :
  executeTransaction c method args ov op st = (Ok rc, st') ->
  providerCache st' = providerCache st
  /\ rc_status rc = Some 1
  /\ exists tx,
      trace st' = trace st ++ [EvSend c method args ov (Ok tx); EvWait tx (Ok rc)].
Proof.
  intros H. apply executeTransaction_run in H. cbv zeta in H.
  destruct H as [Hc [[_ [e He]] | (tx & Hs & Ht & Hr)]]; [discriminate|].
  rewrite Hs in *.
  destruct (net_wait _ tx) as [rc'|e]; [|discriminate].
  destruct (bool_decide (rc_status rc' = Some 1)) eqn:Hb; [|discriminate].
  apply bool_decide_eq_true in Hb. simplify_eq. eauto.
Qed.

End ExecutorOk.

(** ** [sendToken]: how many transactions, in which order *)

(** [List.filter] over a list written with [++] and [::] whose unknown
    parts are waits. *)
Ltac count_events :=
  repeat first [rewrite List.filter_app | progress simpl List.filter];
  repeat match goal with
    | H : Forall (fun e => is_wait e = true) ?W
      |- context [List.filter ?P ?W] =>
        rewrite (filter_nil_Forall P W)
          by (eapply Forall_impl;
              [exact H | intros [] ?; simpl in *; congruence])
    end;
  simpl.

(** Replace each run of [executeTransaction] by its events; for a run that
    returned a receipt these are the accepted submission and the wait that
    produced the receipt. *)
Ltac exec_events_ok :=
  repeat match goal with
    | H : executeTransaction _ _ _ _ _ _ = (Ok _, _) |- _ =>
        apply executeTransaction_ok in H;
        destruct H as (? & ? & ? & ?)
    | H : executeTransaction _ _ _ _ _ _ = _ |- _ =>
        apply executeTransaction_events in H;
        destruct H as (? & ? & ? & ? & ?)
    end.

Ltac find_in := repeat first [left; reflexivity | right].

Section Order.

Context {lib : Ethers} {net : Network} {cfg : Config}.

Lemma trace_snoc st s st' E L :
  trace s = trace st ++ E ->
  trace st' = trace s ++ L ->
  trace st' = trace st ++ E ++ L.
Proof. intros Hs Ht. now rewrite Ht, Hs, <- app_assoc. Qed.

Lemma sendToken_native_counts rq w ra ba g st r st' E :
  sendToken_native rq w ra ba g st = (r, st') ->
  trace st' = trace st ++ E ->
  List.filter is_approval E = []
  /\ (length (List.filter is_deposit E) <= 2)%nat
  /\ (length (List.filter is_send E) <= 2)%nat.
Proof.
  unfold sendToken_native, Contract. intros H HE.
  run; exec_events; name_events HE.
  all: repeat split; count_events; try reflexivity; lia.
Qed.

Lemma sendToken_erc20_counts rq w sa ra ba g isWETH ta st r st' E :
  sendToken_erc20 rq w sa ra ba g isWETH ta st = (r, st') ->
  trace st' = trace st ++ E ->
  (length (List.filter is_approval E) <= 1)%nat
  /\ (length (List.filter is_deposit E) <= 2)%nat
  /\ (length (List.filter is_send E) <= 3)%nat.
Proof.
  unfold sendToken_erc20, Contract, read. intros H HE.
  run; exec_events; name_events HE.
  all: repeat split; count_events; lia.
Qed.

Lemma sendToken_native_success rq w ra ba g st h st' :
  sendToken_native rq w ra ba g st = (Ok h, st') ->
  exists Epre c method args ov tx rc,
    trace st' = trace st ++ Epre
                ++ [EvSend c method args ov (Ok tx); EvWait tx (Ok rc)]
    /\ is_deposit (EvSend c method args ov (Ok tx)) = true
    /\ rc_status rc = Some 1
    /\ h = rc_hash rc.
Proof.
  unfold sendToken_native, Contract. intros H.
  run; exec_events_ok.
  all: match goal with
       | Hl : trace ?b = trace ?s ++ [EvSend _ _ _ _ (Ok _); EvWait _ (Ok ?rc)]
         |- context [rc_hash ?rc] =>
           do 7 eexists;
           split; [eapply trace_snoc; [|exact Hl]; clear Hl; chain_trace|]
       end.
  all: repeat split; (reflexivity || assumption).
Qed.

Lemma sendToken_erc20_success rq w sa ra ba g isWETH ta st h st' :
  sendToken_erc20 rq w sa ra ba g isWETH ta st = (Ok h, st') ->
  exists Epre c method args ov tx rc,
    trace st' = trace st ++ Epre
                ++ [EvSend c method args ov (Ok tx); EvWait tx (Ok rc)]
    /\ is_deposit (EvSend c method args ov (Ok tx)) = true
    /\ rc_status rc = Some 1
    /\ h = rc_hash rc.
Proof.
  unfold sendToken_erc20, Contract, read. intros H.
  run; exec_events_ok.
  all: match goal with
       | Hl : trace ?b = trace ?s ++ [EvSend _ _ _ _ (Ok _); EvWait _ (Ok ?rc)]
         |- context [rc_hash ?rc] =>
           do 7 eexists;
           split; [eapply trace_snoc; [|exact Hl]; clear Hl; chain_trace|]
       end.
  all: repeat split; (reflexivity || assumption).
Qed.

(** The events of a run: what the setup asked, then what the branch
    asked.  A run that did not enter a branch threw. *)
Lemma sendToken_setup_then_branch rq st r st' :
  sendToken rq st = (r, st') ->
  exists S Eb,
    events_since st st' = S ++ Eb
    /\ Forall (fun e => is_setup e = true) S
    /\ Forall (fun e => is_setup e = false) Eb
    /\ ((Eb = [] /\ exists e, r = Err e)
        \/ exists w sa ra ba g st0,
            trace st' = trace st0 ++ Eb
            /\ if isNative (asset rq)
               then sendToken_native rq w ra ba g st0 = (r, st')
               else sendToken_erc20 rq w sa ra ba g (asset rq =? "WETH")%string
                      (tokenAddress rq) st0 = (r, st')).
Proof.
  intros H. apply sendToken_branch_events in H.
  destruct H as [(e & Ep & F & -> & HE & HEp & HF)
                | (key & p & st_p & sa & ra & g & st0 & ba & Ep & rf & Eb
                   & _ & _ & _ & _ & _ & _ & _ & HEp & HE & Ht & _ & HEb
                   & H)].
  - exists (Ep ++ F), []. rewrite app_nil_r.
    split; [exact HE|]. split.
    + destruct HF as [-> | (p & rf & -> & _)]; forall_events.
    + split; [constructor|]. left. eauto.
  - exists (Ep ++ [EvFeeData p rf]), Eb. rewrite <- app_assoc.
    split; [exact HE|]. split; [forall_events|]. split; [exact HEb|].
    right. cbv zeta in H. eauto 10.
Qed.

Lemma filter_after_setup (Q : event -> bool) S Eb :
  Forall (fun e => is_setup e = true) S ->
  (forall e, is_setup e = true -> Q e = false) ->
  List.filter Q (S ++ Eb) = List.filter Q Eb.
Proof.
  intros HS HQ. rewrite List.filter_app, (filter_nil_Forall Q S); [reflexivity|].
  eapply Forall_impl; [exact HS|]. exact HQ.
Qed.

Lemma in_after_setup e S Eb :
  Forall (fun e => is_setup e = true) S ->
  is_setup e = false ->
  In e (S ++ Eb) -> In e Eb.
Proof.
  intros HS He Hin. apply in_app_or in Hin. destruct Hin as [Hin|Hin]; [|exact Hin].
  exfalso. exact (Forall_In_contra _ _ _ HS Hin He).
Qed.

(** X19. A run submits at most three transactions: at most one approval
    and at most two deposit calls (the call with the referral and its
    retry without); a native transfer submits at most two. *)
Theorem sendToken_transaction_count rq st r st' :
  sendToken rq st = (r, st') ->
  (length (List.filter is_approval (events_since st st')) <= 1)%nat
  /\ (length (List.filter is_deposit (events_since st st')) <= 2)%nat
  /\ (length (List.filter is_send (events_since st st')) <= 3)%nat
  /\ (isNative (asset rq) = true ->
      (length (List.filter is_send (events_since st st')) <= 2)%nat).
Proof.
  intros H. apply sendToken_setup_then_branch in H.
  destruct H as (S & Eb & -> & HS & _ & H).
  rewrite !(filter_after_setup _ S Eb HS)
    by (intros [] ?; simpl in *; congruence).
  destruct H as [[-> _] | (w & sa & ra & ba & g & st0 & Ht & H)].
  - simpl. repeat split; intros; lia.
  - destruct (isNative (asset rq)).
    + destruct (sendToken_native_counts _ _ _ _ _ _ _ _ _ H Ht)
        as (Ha & Hd & Hs).
      rewrite Ha. simpl. repeat split; intros; lia.
    + destruct (sendToken_erc20_counts _ _ _ _ _ _ _ _ _ _ _ _ H Ht)
        as (Ha & Hd & Hs).
      repeat split; intros; (lia || discriminate).
Qed.

(** X20. The hash that a run returns is the hash of the receipt of a
    deposit call that the node accepted and that was mined with status 1,
    and waiting for that receipt is the last thing the run did. *)
Theorem sendToken_returns_confirmed_deposit rq st h st' :
  sendToken rq st = (Ok h, st') ->
  exists Epre c method args ov tx rc,
    events_since st st'
    = Epre ++ [EvSend c method args ov (Ok tx); EvWait tx (Ok rc)]
    /\ is_deposit (EvSend c method args ov (Ok tx)) = true
    /\ rc_status rc = Some 1
    /\ h = rc_hash rc.
Proof.
  intros H. apply sendToken_setup_then_branch in H.
  destruct H as (S & Eb & HE & _ & _ & H).
  destruct H as [[_ [e He]] | (w & sa & ra & ba & g & st0 & Ht & H)];
    [discriminate|].
  assert (Hok : exists Epre c method args ov tx rc,
             trace st' = trace st0 ++ Epre
                         ++ [EvSend c method args ov (Ok tx); EvWait tx (Ok rc)]
             /\ is_deposit (EvSend c method args ov (Ok tx)) = true
             /\ rc_status rc = Some 1
             /\ h = rc_hash rc).
  { destruct (isNative (asset rq)).
    - exact (sendToken_native_success _ _ _ _ _ _ _ _ H).
    - exact (sendToken_erc20_success _ _ _ _ _ _ _ _ _ _ _ H). }
  destruct Hok as (Epre & c & method & args & ov & tx & rc & Ht' & Hd & Hs & Hh).
  rewrite Ht in Ht'. apply app_inv_head in Ht'. subst Eb.
  exists (S ++ Epre), c, method, args, ov, tx, rc.
  rewrite <- app_assoc. auto.
Qed.

(** X21. The remote calls of a run come in three stages: liveness probes
    of the source chain's endpoints, then at most one fee data read, then
    contract reads and transactions.  No contract is read or called before
    the fee data was asked for. *)
Theorem sendToken_call_order rq st r st' :
  sendToken rq st = (r, st') ->
  exists Ep F Eb,
    events_since st st' = Ep ++ F ++ Eb
    /\ Forall (fun e => is_probe e = true) Ep
    /\ (F = [] \/ exists p rf, F = [EvFeeData p rf])
    /\ Forall (fun e => is_setup e = false) Eb
    /\ (F = [] -> Eb = []).
Proof.
  intros H. apply sendToken_branch_events in H.
  destruct H as [(e & Ep & F & _ & HE & HEp & HF)
                | (key & p & st_p & sa & ra & g & st0 & ba & Ep & rf & Eb
                   & _ & _ & _ & _ & _ & _ & _ & HEp & HE & _ & _ & HEb
                   & _)].
  - exists Ep, F, []. rewrite app_nil_r.
    split; [exact HE|]. split; [exact HEp|]. split.
    + destruct HF as [-> | (p & rf & -> & _)]; eauto.
    + split; [constructor | reflexivity].
  - exists Ep, [EvFeeData p rf], Eb.
    split; [exact HE|]. split; [exact HEp|]. split; [eauto|].
    split; [exact HEb | discriminate].
Qed.

(** X22. The two fee values of every transaction of a run are those that
    the one call of [getGasParams] returned for the [gasSettings] of the
    request: the approval, the deposit and the retry of the deposit all
    carry the same fees. *)
Theorem sendToken_fees_fixed_once rq st r st' c method args ov rs :
  sendToken rq st = (r, st') ->
  In (EvSend c method args ov rs) (events_since st st') ->
  exists p st_p g st0,
    getProvider (sourceChain rq) st = (Ok p, st_p)
    /\ getGasParams p (gasSettings rq) st_p = (Ok g, st0)
    /\ forall c' method' args' ov' rs',
         In (EvSend c' method' args' ov' rs') (events_since st st') ->
         ov_maxFeePerGas ov' = maxFeePerGas g
         /\ ov_maxPriorityFeePerGas ov' = maxPriorityFeePerGas g.
Proof.
  intros H Hin.
  destruct (sendToken_send_shape _ _ _ _ _ _ _ _ _ H Hin)
    as (key & p & st_p & sa & ra & g & st0 & ba & _ & Hp & _ & _ & Hg & _).
  exists p, st_p, g, st0. split; [exact Hp|]. split; [exact Hg|].
  intros c' method' args' ov' rs' Hin'.
  destruct (sendToken_send_shape _ _ _ _ _ _ _ _ _ H Hin')
    as (key' & p' & st_p' & sa' & ra' & g' & st0' & ba' & _ & Hp' & _ & _
        & Hg' & _ & Hshape).
  rewrite Hp in Hp'. simplify_eq. rewrite Hg in Hg'. simplify_eq.
  cbv zeta in Hshape.
  destruct Hshape as [(_ & _ & _ & (v & _ & ->) & _)
                     | (_ & pa & [(_ & _ & _ & ->) | (_ & _ & _ & ->)])];
    split; reflexivity.
Qed.

End Order.

(** ** [sendToken]: the token path, step by step *)

Section TokenPath.

Context {lib : Ethers} {net : Network} {cfg : Config}.

(** One parsed amount serves every transaction of the ERC20 branch. *)
Lemma sendToken_erc20_amounts rq w sa ra ba g isWETH ta st r st' E :
  sendToken_erc20 rq w sa ra ba g isWETH ta st = (r, st') ->
  trace st' = trace st ++ E ->
  exists pa,
    forall c method args ov rs,
      In (EvSend c method args ov rs) E ->
      (method = "approve" /\ args = [arg_of_addr ba; ArgBig (pa * 2)])
      \/ (method = "depositERC20"
          /\ exists rest, args = arg_of_addr ta :: ArgBig pa :: rest).
Proof.
  unfold sendToken_erc20, Contract, read. intros H HE.
  run; exec_events; name_events HE.
  all: first [ match goal with
               | Hp : parseUnits _ _ = Ok ?pa |- _ => exists pa
               end
             | exists 0 ].
  all: intros c method args ov rs Hin; split_in Hin.
  all: first [ left; split; reflexivity
             | right; split; [reflexivity | eexists; reflexivity] ].
Qed.

(** A deposit of the ERC20 branch comes after the approval, if there is
    one, was mined with status 1. *)
Lemma sendToken_erc20_approval_confirmed
    rq w sa ra ba g isWETH ta st r st' E c args ov rs d :
  sendToken_erc20 rq w sa ra ba g isWETH ta st = (r, st') ->
  trace st' = trace st ++ E ->
  In (EvSend c "approve" args ov rs) E ->
  In d E ->
  is_deposit d = true ->
  exists pre tx rc post,
    rs = Ok tx
    /\ E = pre ++ EvSend c "approve" args ov (Ok tx) :: EvWait tx (Ok rc)
                  :: post
    /\ rc_status rc = Some 1
    /\ List.filter is_send pre = []
    /\ In d post.
Proof.
  unfold sendToken_erc20, Contract, read. intros H HE Hin Hd Hdep.
  run; exec_events_ok; name_events HE.
  all: split_in Hin.
  all: split_in Hd; try discriminate Hdep.
  all: try (exfalso;
            match goal with
            | Hw : Forall (fun e => is_wait e = true) ?W, Hx : In ?x ?W |- _ =>
                rewrite Forall_forall in Hw; apply list_elem_of_In in Hx;
                apply Hw in Hx; destruct x; simpl in *; congruence
            end).
  all: eexists [_; _; _], _, _, _.
  all: split; [reflexivity|].
  all: split; [reflexivity|].
  all: split; [assumption|].
  all: split; [reflexivity|].
  all: simpl; auto 10 using in_or_app, in_eq.
Qed.

(** A failed read of the balance or of the allowance ends the ERC20
    branch. *)
Lemma sendToken_erc20_failed_read
    rq w sa ra ba g isWETH ta st r st' E c method args e :
  sendToken_erc20 rq w sa ra ba g isWETH ta st = (r, st') ->
  trace st' = trace st ++ E ->
  In (EvRead c method args (Err e)) E ->
  method <> "decimals" ->
  r = Err e /\ List.filter is_send E = [].
Proof.
  unfold sendToken_erc20, Contract, read. intros H HE Hin Hne.
  run; exec_events; name_events HE.
  all: split_in Hin; try congruence.
  all: split; [reflexivity | filter_nil].
Qed.

(** X23. The allowance asked for is twice the amount deposited: in every
    run, the amount of an [approve] call is two times the amount of any
    [depositERC20] call. *)
Theorem sendToken_approve_twice_deposit
    rq st r st' c1 spender a ov1 rs1 c2 token d rest ov2 rs2 :
  sendToken rq st = (r, st') ->
  In (EvSend c1 "approve" [spender; ArgBig a] ov1 rs1) (events_since st st') ->
  In (EvSend c2 "depositERC20" (token :: ArgBig d :: rest) ov2 rs2)
     (events_since st st') ->
  a = d * 2.
Proof.
  intros H Ha Hd. apply sendToken_setup_then_branch in H.
  destruct H as (S & Eb & HE & HS & _ & H). rewrite HE in Ha, Hd.
  apply (in_after_setup (EvSend _ _ _ _ _) _ _ HS eq_refl) in Ha.
  apply (in_after_setup (EvSend _ _ _ _ _) _ _ HS eq_refl) in Hd.
  destruct H as [[-> _] | (w & sa & ra & ba & g & st0 & Ht & H)];
    [destruct Ha|].
  destruct (isNative (asset rq)).
  - destruct (sendToken_native_sends _ _ _ _ _ _ _ _ _ _ _ _ _ _ H Ht Ha)
      as (_ & Hm & _). discriminate.
  - destruct (sendToken_erc20_amounts _ _ _ _ _ _ _ _ _ _ _ _ H Ht)
      as (pa & Hall).
    destruct (Hall _ _ _ _ _ Ha) as [(_ & Hargs) | (Hm & _)];
      [|discriminate].
    destruct (Hall _ _ _ _ _ Hd) as [(Hm & _) | (_ & rest' & Hargs')];
      [discriminate|].
    congruence.
Qed.

(** X24. No deposit without a confirmed approval: when a run asked for an
    approval and also submitted a deposit call, the approval was accepted
    by the node and mined with status 1 before the deposit call went out,
    and the approval was the first transaction of the run. *)
Theorem sendToken_deposit_after_confirmed_approval
    rq st r st' c args ov rs d :
  sendToken rq st = (r, st') ->
  In (EvSend c "approve" args ov rs) (events_since st st') ->
  In d (events_since st st') ->
  is_deposit d = true ->
  exists pre tx rc post,
    rs = Ok tx
    /\ events_since st st'
       = pre ++ EvSend c "approve" args ov (Ok tx) :: EvWait tx (Ok rc)
             :: post
    /\ rc_status rc = Some 1
    /\ List.filter is_send pre = []
    /\ In d post.
Proof.
  intros H Ha Hd Hdep. apply sendToken_setup_then_branch in H.
  destruct H as (S & Eb & HE & HS & _ & H). rewrite HE in Ha, Hd. rewrite HE.
  apply (in_after_setup (EvSend _ _ _ _ _) _ _ HS eq_refl) in Ha.
  assert (Hns : is_setup d = false) by (destruct d; simpl in *; congruence).
  apply (in_after_setup _ _ _ HS Hns) in Hd.
  destruct H as [[-> _] | (w & sa & ra & ba & g & st0 & Ht & H)];
    [destruct Ha|].
  destruct (isNative (asset rq)).
  - destruct (sendToken_native_sends _ _ _ _ _ _ _ _ _ _ _ _ _ _ H Ht Ha)
      as (_ & Hm & _). discriminate.
  - destruct (sendToken_erc20_approval_confirmed
                _ _ _ _ _ _ _ _ _ _ _ _ _ _ _ _ _ H Ht Ha Hd Hdep)
      as (pre & tx & rc & post & -> & -> & Hst & Hpre & Hpost).
    exists (S ++ pre), tx, rc, post. rewrite <- app_assoc.
    repeat split; try assumption.
    rewrite (filter_after_setup _ S pre HS)
      by (intros [] ?; simpl in *; congruence).
    exact Hpre.
Qed.

(** X25. When the read of the balance or of the allowance fails, the run
    throws the error of that read and submits no transaction.  (A failed
    read of the decimals is not an error: the amount is then parsed with
    18 decimals.) *)
Theorem sendToken_failed_read rq st r st' c method args e :
  sendToken rq st = (r, st') ->
  In (EvRead c method args (Err e)) (events_since st st') ->
  method <> "decimals" ->
  r = Err e /\ List.filter is_send (events_since st st') = [].
Proof.
  intros H Hin Hne. apply sendToken_setup_then_branch in H.
  destruct H as (S & Eb & HE & HS & _ & H). rewrite HE in *.
  apply (in_after_setup (EvRead _ _ _ _) _ _ HS eq_refl) in Hin.
  rewrite (filter_after_setup _ S Eb HS)
    by (intros [] ?; simpl in *; congruence).
  destruct H as [[-> _] | (w & sa & ra & ba & g & st0 & Ht & H)];
    [destruct Hin|].
  destruct (isNative (asset rq)).
  - apply sendToken_native_run in H. destruct H as (_ & E' & Ht' & HE').
    rewrite Ht in Ht'. apply app_inv_head in Ht'. subst E'.
    exfalso. exact (Forall_In_contra _ _ _ HE' Hin eq_refl).
  - exact (sendToken_erc20_failed_read _ _ _ _ _ _ _ _ _ _ _ _ _ _ _ _
             H Ht Hin Hne).
Qed.

End TokenPath.

(** ** [sendToken]: the cache, and the order of the checks *)

Section TransferAndCache.

Context {lib : Ethers} {net : Network} {cfg : Config}.

(** What a call of [getProvider] does to the cache. *)
Lemma getProvider_cache c st r st' :
  getProvider c st = (r, st') ->
  (forall c', c' <> c -> providerCache st' !! c' = providerCache st !! c')
  /\ (forall p, r = Ok p -> providerCache st' !! c = Some p).
Proof.
  intros H.
  destruct (providerCache st !! c) as [p|] eqn:Hc.
  - unfold getProvider in H. rewrite Hc in H.
    simplify_eq. split; [reflexivity|]. intros p' [= <-]. exact Hc.
  - apply (getProvider_uncached _ _ _ _ Hc) in H.
    destruct H as [(urls & _ & H) | (_ & -> & ->)];
      [|split; [reflexivity | discriminate]].
    apply getProvider_loop_run in H. destruct r as [p|e].
    + destruct H as (_ & _ & _ & _ & _ & _ & _ & _ & _ & _ & Hcache).
      rewrite Hcache. split.
      * intros c' Hne. apply lookup_insert_ne. congruence.
      * intros p' [= <-]. apply lookup_insert_eq.
    + destruct H as (_ & Hcache & _). rewrite Hcache.
      split; [reflexivity | discriminate].
Qed.

(** The cache after a run is the cache before it or the cache after the
    run's call of [getProvider]. *)
Lemma sendToken_cache_of_provider rq st r st' :
  sendToken rq st = (r, st') ->
  providerCache st' = providerCache st
  \/ providerCache st'
     = providerCache (snd (getProvider (sourceChain rq) st)).
Proof.
  rewrite sendToken_body_eq. unfold sendToken_body, Wallet. intros H.
  run.
  all: repeat match goal with
         | H : getGasParams _ _ _ = _ |- _ =>
             apply getGasParams_run in H; destruct H as (? & _ & _)
         | H : sendToken_native _ _ _ _ _ _ = _ |- _ =>
             apply sendToken_native_run in H; destruct H as (? & _)
         | H : sendToken_erc20 _ _ _ _ _ _ _ _ _ = _ |- _ =>
             apply sendToken_erc20_run in H; destruct H as (? & _)
         end.
  all: first [ left; reflexivity
             | right;
               match goal with
               | H : getProvider _ _ = _ |- _ => rewrite H
               end; simpl; congruence ].
Qed.

(** X26. A transfer changes the cache at most at its source chain: the
    entry of every other chain identifier, the destination chain
    included, is what it was before the call. *)
Theorem sendToken_cache_other_chains rq st r st' c :
  sendToken rq st = (r, st') ->
  c <> sourceChain rq ->
  providerCache st' !! c = providerCache st !! c.
Proof.
  intros H Hne. apply sendToken_cache_of_provider in H.
  destruct H as [-> | ->]; [reflexivity|].
  destruct (getProvider (sourceChain rq) st) as [rp st_p] eqn:Hp.
  exact (proj1 (getProvider_cache _ _ _ _ Hp) c Hne).
Qed.

(** X27. Once a run has reached a contract (a read or a transaction), the
    connection of its source chain is in the cache when the run ends,
    whether it returns or throws: the next call of [getProvider] for that
    chain returns it without a probe, and it is the connection that every
    transaction of the run was signed for. *)
Theorem sendToken_connection_cached rq st r st' e :
  sendToken rq st = (r, st') ->
  In e (events_since st st') ->
  is_setup e = false ->
  exists p,
    getProvider (sourceChain rq) st' = (Ok p, st')
    /\ forall c method args ov rs,
         In (EvSend c method args ov rs) (events_since st st') ->
         wl_provider (ct_runner c) = p.
Proof.
  intros H Hin Hns.
  pose proof (sendToken_branch_events _ _ _ _ H) as Hb.
  destruct Hb as [(e' & Ep & F & _ & HE & HEp & HF)
                 | (key & p & st_p & sa & ra & g & st0 & ba & Ep & rf & Eb
                    & _ & Hp & _ & _ & Hg & _ & _ & _ & _ & _ & Hc & _ & _)].
  - exfalso. rewrite HE in Hin.
    assert (HS : Forall (fun e => is_setup e = true) (Ep ++ F))
      by (destruct HF as [-> | (p & rf & -> & _)]; forall_events).
    exact (Forall_In_contra _ _ _ HS Hin Hns).
  - exists p. split.
    + unfold getProvider. rewrite Hc.
      apply getGasParams_run in Hg. destruct Hg as (-> & _).
      now rewrite (proj2 (getProvider_cache _ _ _ _ Hp) p eq_refl).
    + intros c method args ov rs Hs.
      destruct (sendToken_send_shape _ _ _ _ _ _ _ _ _ H Hs)
        as (key' & p' & st_p' & sa' & ra' & g' & st0' & ba' & _ & Hp' & _ & _
            & _ & _ & Hshape).
      rewrite Hp in Hp'. simplify_eq. cbv zeta in Hshape.
      destruct Hshape as [(_ & -> & _)
                         | (_ & pa & [(-> & _) | (-> & _)])]; reflexivity.
Qed.

(** X28. The chains are checked before the signing key.  A source or
    destination chain whose entry in [CHAINS] is missing or is the number
    0 gives "Invalid chain configuration" with both identifiers in the
    message, whatever the key is; with both chains accepted, a missing or
    malformed key gives "Invalid private key format".  Neither touches the
    state. *)
Theorem sendToken_validation_order rq st :
  (chain_ok (get CHAINS (sourceChain rq))
   && chain_ok (get CHAINS (destChain rq))
   = false ->
   sendToken rq st
   = (Err (InvalidChainConfiguration (sourceChain rq) (destChain rq)), st))
  /\ (chain_ok (get CHAINS (sourceChain rq))
   && chain_ok (get CHAINS (destChain rq))
      = true ->
      from_option matches_key_pattern false (privateKey rq) = false ->
      sendToken rq st = (Err InvalidPrivateKeyFormat, st)).
Proof.
  rewrite sendToken_body_eq.
  unfold sendToken_body, bind, debugLog, throw, ret. simpl forallb. cbv iota.
  split.
  - intros Hc. apply andb_false_iff in Hc.
    destruct Hc as [-> | ->]; simpl; rewrite ?orb_true_r; reflexivity.
  - intros Hc Hk. apply andb_true_iff in Hc. destruct Hc as [-> ->]. simpl.
    destruct (privateKey rq) as [k|]; simpl in Hk; [|reflexivity].
    now rewrite Hk.
Qed.

End TransferAndCache.

(** ** The further properties on examples *)

Lemma getGasParams_null_live_fee_witness :
  fst (@getGasParams Demo.lib (Demo.net Demo.pre_1559) Demo.a_provider
         {| o_maxFeePerGas := None;
            o_maxPriorityFeePerGas := Some (JBigInt 3);
            o_gasLimit := Some (JNumber 21000) |} initial_state)
  = Ok default_gasParams.
Proof.
  apply (@getGasParams_null_live_fee Demo.lib (Demo.net Demo.pre_1559))
    with (fd := {| fd_maxFeePerGas := None;
                   fd_maxPriorityFeePerGas := Some 5 |}).
  - reflexivity.
  - left. split; reflexivity.
Defined.

Lemma getGasParams_bigint_gasLimit_witness :
  fst (@getGasParams Demo.lib (Demo.net Demo.healthy) Demo.a_provider
         {| o_maxFeePerGas := Some (JBigInt 7);
            o_maxPriorityFeePerGas := None;
            o_gasLimit := Some (JBigInt 300000) |} initial_state)
  = Ok default_gasParams.
Proof.
  apply (@getGasParams_bigint_gasLimit Demo.lib (Demo.net Demo.healthy))
    with (n := 300000).
  - reflexivity.
  - lia.
Defined.

Lemma getGasParams_fallback_per_component_witness :
  fst (@getGasParams Demo.lib (Demo.net Demo.no_tip) Demo.a_provider
         no_overrides initial_state)
  = Ok {| maxFeePerGas := JBigInt 12;
          maxPriorityFeePerGas := JBigInt 15000000000;
          gasLimit := JNumber 500000 |}.
Proof.
  apply (@getGasParams_fallback_per_component Demo.lib (Demo.net Demo.no_tip)
           Demo.a_provider initial_state 10 0 "0.000000012" "15.0").
  - reflexivity.
  - vm_compute. reflexivity.
  - vm_compute. reflexivity.
Defined.

Lemma executeTransaction_network_error_witness :
  let run := @executeTransaction Demo.lib (Demo.net Demo.rejecting)
               (Demo.bridge AbiBridgeNative) "depositNative" Demo.native_args
               Demo.native_overrides "nativeDeposit" initial_state in
  fst run = Err (External "no matching fragment")
  /\ events_since initial_state (snd run)
     = [EvSend (Demo.bridge AbiBridgeNative) "depositNative" Demo.native_args
          Demo.native_overrides (Err (External "no matching fragment"))].
Proof.
  intros run.
  apply (proj1 (@executeTransaction_network_error Demo.lib
                  (Demo.net Demo.rejecting)
                  (Demo.bridge AbiBridgeNative) "depositNative"
                  Demo.native_args Demo.native_overrides "nativeDeposit"
                  initial_state (fst run) (snd run) eq_refl)).
  vm_compute. left. reflexivity.
Defined.

Lemma executeTransaction_log_failure_witness :
  let run := @executeTransaction Demo.lib Demo.legacy_node
               (Demo.bridge AbiBridgeNative) "depositNative" Demo.native_args
               Demo.native_overrides "nativeDeposit" initial_state in
  fst run = Err (External "invalid BigNumberish value")
  /\ events_since initial_state (snd run)
     = [EvSend (Demo.bridge AbiBridgeNative) "depositNative" Demo.native_args
          Demo.native_overrides
          (Ok {| tx_hash := "0xhash"; tx_gasLimit := 21000;
                 tx_maxFeePerGas := None;
                 tx_maxPriorityFeePerGas := None |})].
Proof.
  intros run.
  apply (@executeTransaction_log_failure Demo.lib Demo.legacy_node).
  - reflexivity.
  - left. reflexivity.
Defined.

Lemma executeTransaction_confirmed_witness :
  let run := @executeTransaction Demo.lib (Demo.net Demo.healthy)
               (Demo.bridge AbiBridgeNative) "depositNative" Demo.native_args
               Demo.native_overrides "nativeDeposit" initial_state in
  rc_status (Demo.mined 0) = Some 1
  /\ providerCache (snd run) = providerCache initial_state
  /\ exists tx,
      events_since initial_state (snd run)
      = [EvSend (Demo.bridge AbiBridgeNative) "depositNative"
           Demo.native_args Demo.native_overrides (Ok tx);
         EvWait tx (Ok (Demo.mined 0))].
Proof.
  intros run.
  apply (@executeTransaction_confirmed Demo.lib (Demo.net Demo.healthy)
           (Demo.bridge AbiBridgeNative) "depositNative" Demo.native_args
           Demo.native_overrides "nativeDeposit" initial_state (Demo.mined 0)
           (snd run)).
  vm_compute. reflexivity.
Defined.

Lemma getProvider_other_chains_witness :
  let run := @getProvider Demo.lib (Demo.net Demo.primary_down) Demo.cfg
               "SEPOLIA" initial_state in
  providerCache (snd run) !! "HOLESKY"
  = providerCache initial_state !! "HOLESKY".
Proof.
  intros run.
  apply (@getProvider_other_chains Demo.lib (Demo.net Demo.primary_down)
           Demo.cfg "SEPOLIA" initial_state (fst run) (snd run) "HOLESKY").
  - reflexivity.
  - discriminate.
Defined.

Lemma getProvider_probes_candidates_only_witness :
  exists urls url res,
    @endpoints Demo.cfg "SEPOLIA" = Ok urls
    /\ In url urls
    /\ EvProbe (Demo.provider_at "https://fallback.example") (Ok tt)
       = EvProbe {| pv_url := url;
                    pv_chainId := Number (get (@CHAINS Demo.cfg) "SEPOLIA");
                    pv_name := @toLowerCase Demo.lib "SEPOLIA" |} res.
Proof.
  pose (run := @getProvider Demo.lib (Demo.net Demo.primary_down) Demo.cfg
                 "SEPOLIA" initial_state).
  apply (@getProvider_probes_candidates_only Demo.lib
           (Demo.net Demo.primary_down) Demo.cfg "SEPOLIA" initial_state
           (fst run) (snd run)).
  - reflexivity.
  - vm_compute. right. left. reflexivity.
Defined.

Lemma getProvider_unconfigured_chain_witness :
  let run := @getProvider Demo.lib (Demo.net Demo.healthy) Demo.cfg
               "HOLESKY" initial_state in
  @endpoints Demo.cfg "HOLESKY" = Ok [public_endpoint]
  /\ omap probed_url (events_since initial_state (snd run))
     = List.filter (@constructible Demo.lib Demo.cfg "HOLESKY")
         [public_endpoint]
  /\ match fst run with
     | Ok p => p = @connection Demo.lib Demo.cfg "HOLESKY" public_endpoint
     | Err e => e = AllRpcEndpointsFailed "HOLESKY"
     end.
Proof.
  intros run.
  apply (@getProvider_unconfigured_chain Demo.lib (Demo.net Demo.healthy)
           Demo.cfg "HOLESKY" initial_state (fst run) (snd run)).
  - vm_compute. reflexivity.
  - vm_compute. reflexivity.
  - vm_compute. reflexivity.
  - reflexivity.
Defined.

Lemma getProvider_nothing_constructible_witness :
  @getProvider Demo.lib (Demo.net Demo.healthy) Demo.cfg "MARS" initial_state
  = (Err (AllRpcEndpointsFailed "MARS"), initial_state).
Proof.
  apply (@getProvider_nothing_constructible Demo.lib (Demo.net Demo.healthy)
           Demo.cfg "MARS" initial_state).
  - vm_compute. reflexivity.
  - intros urls url Hurls Hin. vm_compute in Hurls. injection Hurls as <-.
    destruct Hin as [<- | []]. vm_compute. reflexivity.
Defined.

Lemma getProvider_inherited_name_witness :
  @getProvider Demo.lib (Demo.net Demo.healthy) Demo.cfg "constructor"
    initial_state
  = (Err not_iterable, initial_state).
Proof.
  apply (@getProvider_inherited_name Demo.lib (Demo.net Demo.healthy)
           Demo.cfg "constructor" initial_state).
  - apply (bool_decide_unpack _). vm_compute. exact I.
  - vm_compute. reflexivity.
  - vm_compute. reflexivity.
Defined.

Lemma sendToken_value_witness :
  ("depositNative" = "depositNative"
   /\ exists v, @parseEther Demo.lib "1" = Ok v
                /\ ov_value Demo.native_overrides = Some v)
  \/ ("depositNative" <> "depositNative"
      /\ ov_value Demo.native_overrides = None).
Proof.
  pose (run := @sendToken Demo.lib (Demo.net Demo.healthy) Demo.cfg
                 (Demo.transfer "native" "1") initial_state).
  apply (@sendToken_value Demo.lib (Demo.net Demo.healthy) Demo.cfg
           (Demo.transfer "native" "1") initial_state (fst run) (snd run)
           (Demo.bridge AbiBridgeNative) "depositNative" Demo.native_args
           Demo.native_overrides (Ok (Demo.response 2))).
  - reflexivity.
  - vm_compute. right. right. left. reflexivity.
Defined.

Lemma sendToken_token_gasLimit_witness :
  ("approve" = "approve"
   /\ ov_gasLimit (Demo.token_overrides 200000) = JNumber 200000)
  \/ ("approve" = "depositERC20"
      /\ ov_gasLimit (Demo.token_overrides 200000) = JNumber 350000).
Proof.
  pose (run := @sendToken Demo.lib (Demo.net Demo.healthy) Demo.cfg
                 (Demo.transfer "WETH" "3") initial_state).
  apply (@sendToken_token_gasLimit Demo.lib (Demo.net Demo.healthy) Demo.cfg
           (Demo.transfer "WETH" "3") initial_state (fst run) (snd run)
           Demo.weth "approve" Demo.approve_args
           (Demo.token_overrides 200000) (Ok (Demo.response 5))).
  - reflexivity.
  - vm_compute. do 5 right. left. reflexivity.
  - reflexivity.
Defined.

Lemma sendToken_recipient_witness :
  exists key sa ra,
    privateKey Demo.gift = Some key
    /\ @Wallet_address Demo.lib key = Ok sa
    /\ (if truthy_str (recipient Demo.gift)
        then exists given,
            recipient Demo.gift = Some given
            /\ @getAddress Demo.lib given = Ok ra
        else ra = sa)
    /\ nth_error [ArgNum 17000; ArgAddr Demo.someone;
                  ArgAddr Demo.a_referrer]
         (if isNative (asset Demo.gift) then 1 else 3)%nat
       = Some (ArgAddr ra).
Proof.
  pose (run := @sendToken Demo.lib (Demo.net Demo.healthy) Demo.cfg
                 Demo.gift initial_state).
  apply (@sendToken_recipient Demo.lib (Demo.net Demo.healthy) Demo.cfg
           Demo.gift initial_state (fst run) (snd run)
           (Demo.bridge AbiBridgeNative) "depositNative"
           [ArgNum 17000; ArgAddr Demo.someone; ArgAddr Demo.a_referrer]
           Demo.native_overrides (Ok (Demo.response 2))).
  - reflexivity.
  - vm_compute. right. right. left. reflexivity.
  - reflexivity.
Defined.

Lemma sendToken_referral_argument_witness :
  List.last [ArgNum 17000; ArgAddr Demo.someone; ArgAddr Demo.a_referrer]
    ArgUndefined
  = ArgAddr (if truthy_str (referral Demo.gift)
             then default ZeroAddress (referral Demo.gift)
             else "0x0000000000000000000000000000000000000000").
Proof.
  pose (run := @sendToken Demo.lib (Demo.net Demo.healthy) Demo.cfg
                 Demo.gift initial_state).
  apply (@sendToken_referral_argument Demo.lib (Demo.net Demo.healthy)
           Demo.cfg Demo.gift initial_state (fst run) (snd run)
           (Demo.bridge AbiBridgeNative) "depositNative"
           [ArgNum 17000; ArgAddr Demo.someone; ArgAddr Demo.a_referrer]
           Demo.native_overrides (Ok (Demo.response 2))).
  - reflexivity.
  - vm_compute. right. right. left. reflexivity.
  - reflexivity.
Defined.

Lemma sendToken_targets_witness :
  privateKey (Demo.transfer "WETH" "3")
  = Some (wl_privateKey (ct_runner Demo.weth))
  /\ exists ba,
      get (@UNION_CONTRACT Demo.cfg) "SEPOLIA" = ba
      /\ truthy_ref ba = true
      /\ ct_target Demo.weth = get (@TOKENS_WETH Demo.cfg) "SEPOLIA"
      /\ nth_error Demo.approve_args 0 = Some (arg_of_addr ba).
Proof.
  pose (run := @sendToken Demo.lib (Demo.net Demo.healthy) Demo.cfg
                 (Demo.transfer "WETH" "3") initial_state).
  apply (@sendToken_targets Demo.lib (Demo.net Demo.healthy) Demo.cfg
           (Demo.transfer "WETH" "3") initial_state (fst run) (snd run)
           Demo.weth "approve" Demo.approve_args
           (Demo.token_overrides 200000) (Ok (Demo.response 5))).
  - reflexivity.
  - vm_compute. do 5 right. left. reflexivity.
Defined.

Lemma sendToken_native_no_token_calls_witness :
  let run := @sendToken Demo.lib (Demo.net Demo.legacy) Demo.cfg
               (Demo.transfer "native" "1") initial_state in
  List.filter is_read (events_since initial_state (snd run)) = []
  /\ forall c method args ov rs,
       In (EvSend c method args ov rs) (events_since initial_state (snd run)) ->
       method = "depositNative".
Proof.
  intros run.
  apply (@sendToken_native_no_token_calls Demo.lib (Demo.net Demo.legacy)
           Demo.cfg (Demo.transfer "native" "1") initial_state (fst run)).
  - reflexivity.
  - reflexivity.
Defined.

Lemma sendToken_missing_bridge_witness :
  let run := @sendToken Demo.lib (Demo.net Demo.healthy) Demo.cfg
               Demo.from_holesky initial_state in
  (exists e, fst run = Err e)
  /\ Forall (fun e => is_setup e = true) (events_since initial_state (snd run))
  /\ (forall p rf,
        In (EvFeeData p rf) (events_since initial_state (snd run)) ->
        fst run = Err (MissingBridgeAddress "HOLESKY")).
Proof.
  intros run.
  apply (@sendToken_missing_bridge Demo.lib (Demo.net Demo.healthy) Demo.cfg
           Demo.from_holesky initial_state (fst run) (snd run)).
  - reflexivity.
  - vm_compute. reflexivity.
Defined.

Lemma sendToken_transaction_count_witness :
  let run := @sendToken Demo.lib (Demo.net Demo.legacy) Demo.cfg
               (Demo.transfer Demo.a_token "3") initial_state in
  (length (List.filter is_approval (events_since initial_state (snd run)))
   <= 1)%nat
  /\ (length (List.filter is_deposit (events_since initial_state (snd run)))
      <= 2)%nat
  /\ (length (List.filter is_send (events_since initial_state (snd run)))
      <= 3)%nat
  /\ (isNative Demo.a_token = true ->
      (length (List.filter is_send (events_since initial_state (snd run)))
       <= 2)%nat).
Proof.
  intros run.
  apply (@sendToken_transaction_count Demo.lib (Demo.net Demo.legacy) Demo.cfg
           (Demo.transfer Demo.a_token "3") initial_state (fst run)).
  reflexivity.
Defined.

Lemma sendToken_returns_confirmed_deposit_witness :
  let run := @sendToken Demo.lib (Demo.net Demo.healthy) Demo.cfg
               (Demo.transfer Demo.a_token "3") initial_state in
  exists Epre c method args ov tx rc,
    events_since initial_state (snd run)
    = Epre ++ [EvSend c method args ov (Ok tx); EvWait tx (Ok rc)]
    /\ is_deposit (EvSend c method args ov (Ok tx)) = true
    /\ rc_status rc = Some 1
    /\ "0xhash7" = rc_hash rc.
Proof.
  intros run.
  apply (@sendToken_returns_confirmed_deposit Demo.lib (Demo.net Demo.healthy)
           Demo.cfg (Demo.transfer Demo.a_token "3") initial_state).
  vm_compute. reflexivity.
Defined.

Lemma sendToken_call_order_witness :
  let run := @sendToken Demo.lib (Demo.net Demo.primary_down) Demo.cfg
               (Demo.transfer Demo.a_token "3") initial_state in
  exists Ep F Eb,
    events_since initial_state (snd run) = Ep ++ F ++ Eb
    /\ Forall (fun e => is_probe e = true) Ep
    /\ (F = [] \/ exists p rf, F = [EvFeeData p rf])
    /\ Forall (fun e => is_setup e = false) Eb
    /\ (F = [] -> Eb = []).
Proof.
  intros run.
  apply (@sendToken_call_order Demo.lib (Demo.net Demo.primary_down) Demo.cfg
           (Demo.transfer Demo.a_token "3") initial_state (fst run)).
  reflexivity.
Defined.

Lemma sendToken_fees_fixed_once_witness :
  let run := @sendToken Demo.lib (Demo.net Demo.legacy) Demo.cfg
               (Demo.transfer Demo.a_token "3") initial_state in
  exists p st_p g st0,
    @getProvider Demo.lib (Demo.net Demo.legacy) Demo.cfg "SEPOLIA"
      initial_state = (Ok p, st_p)
    /\ @getGasParams Demo.lib (Demo.net Demo.legacy) p no_overrides st_p
       = (Ok g, st0)
    /\ forall c' method' args' ov' rs',
         In (EvSend c' method' args' ov' rs')
            (events_since initial_state (snd run)) ->
         ov_maxFeePerGas ov' = maxFeePerGas g
         /\ ov_maxPriorityFeePerGas ov' = maxPriorityFeePerGas g.
Proof.
  intros run.
  apply (@sendToken_fees_fixed_once Demo.lib (Demo.net Demo.legacy) Demo.cfg
           (Demo.transfer Demo.a_token "3") initial_state (fst run) (snd run)
           Demo.erc20 "approve" Demo.approve_args
           (Demo.token_overrides 100000) (Ok (Demo.response 5))).
  - reflexivity.
  - vm_compute. do 5 right. left. reflexivity.
Defined.

Lemma sendToken_approve_twice_deposit_witness : 6000000 = 3000000 * 2.
Proof.
  pose (run := @sendToken Demo.lib (Demo.net Demo.healthy) Demo.cfg
                 (Demo.transfer Demo.a_token "3") initial_state).
  apply (@sendToken_approve_twice_deposit Demo.lib (Demo.net Demo.healthy)
           Demo.cfg (Demo.transfer Demo.a_token "3") initial_state
           (fst run) (snd run)
           Demo.erc20 (ArgAddr Demo.bridge_address) 6000000
           (Demo.token_overrides 100000) (Ok (Demo.response 5))
           (Demo.bridge AbiBridgeERC20) (ArgAddr Demo.a_token) 3000000
           [ArgNum 17000; ArgAddr Demo.sender; ArgAddr ZeroAddress]
           (Demo.token_overrides 300000) (Ok (Demo.response 7))).
  - reflexivity.
  - vm_compute. do 5 right. left. reflexivity.
  - vm_compute. do 7 right. left. reflexivity.
Defined.

Lemma sendToken_deposit_after_confirmed_approval_witness :
  let run := @sendToken Demo.lib (Demo.net Demo.healthy) Demo.cfg
               (Demo.transfer Demo.a_token "3") initial_state in
  let deposit := EvSend (Demo.bridge AbiBridgeERC20) "depositERC20"
                   Demo.deposit_args (Demo.token_overrides 300000)
                   (Ok (Demo.response 7)) in
  exists pre tx rc post,
    Ok (Demo.response 5) = Ok tx
    /\ events_since initial_state (snd run)
       = pre ++ EvSend Demo.erc20 "approve" Demo.approve_args
                  (Demo.token_overrides 100000) (Ok tx)
             :: EvWait tx (Ok rc) :: post
    /\ rc_status rc = Some 1
    /\ List.filter is_send pre = []
    /\ In deposit post.
Proof.
  intros run deposit.
  apply (@sendToken_deposit_after_confirmed_approval Demo.lib
           (Demo.net Demo.healthy) Demo.cfg
           (Demo.transfer Demo.a_token "3") initial_state (fst run)).
  - reflexivity.
  - vm_compute. do 5 right. left. reflexivity.
  - vm_compute. do 7 right. left. reflexivity.
  - reflexivity.
Defined.

Lemma sendToken_failed_read_witness :
  let run := @sendToken Demo.lib Demo.no_balance Demo.cfg
               (Demo.transfer Demo.a_token "3") initial_state in
  fst run = Err (External "call revert exception")
  /\ List.filter is_send (events_since initial_state (snd run)) = [].
Proof.
  intros run.
  apply (@sendToken_failed_read Demo.lib Demo.no_balance Demo.cfg
           (Demo.transfer Demo.a_token "3") initial_state (fst run) (snd run)
           Demo.erc20 "balanceOf" [ArgAddr Demo.sender]).
  - reflexivity.
  - vm_compute. do 3 right. left. reflexivity.
  - discriminate.
Defined.

Lemma sendToken_cache_other_chains_witness :
  let run := @sendToken Demo.lib (Demo.net Demo.healthy) Demo.cfg
               (Demo.transfer "native" "1") initial_state in
  providerCache (snd run) !! "HOLESKY"
  = providerCache initial_state !! "HOLESKY".
Proof.
  intros run.
  apply (@sendToken_cache_other_chains Demo.lib (Demo.net Demo.healthy)
           Demo.cfg (Demo.transfer "native" "1") initial_state (fst run)).
  - reflexivity.
  - discriminate.
Defined.

Lemma sendToken_connection_cached_witness :
  let run := @sendToken Demo.lib (Demo.net Demo.rejecting) Demo.cfg
               (Demo.transfer "native" "1") initial_state in
  exists p,
    @getProvider Demo.lib (Demo.net Demo.rejecting) Demo.cfg "SEPOLIA"
      (snd run) = (Ok p, snd run)
    /\ forall c method args ov rs,
         In (EvSend c method args ov rs)
            (events_since initial_state (snd run)) ->
         wl_provider (ct_runner c) = p.
Proof.
  intros run.
  apply (@sendToken_connection_cached Demo.lib (Demo.net Demo.rejecting)
           Demo.cfg (Demo.transfer "native" "1") initial_state (fst run)
           (snd run)
           (EvSend (Demo.bridge AbiBridgeNative) "depositNative"
              Demo.native_args Demo.native_overrides
              (Err (External "no matching fragment")))).
  - reflexivity.
  - vm_compute. right. right. left. reflexivity.
  - reflexivity.
Defined.

Lemma sendToken_validation_order_witness :
  @sendToken Demo.lib (Demo.net Demo.healthy) Demo.cfg
    {| sourceChain := "SEPOLIA"; destChain := "MARS"; asset := "native";
       amount := "1"; privateKey := None; gasSettings := no_overrides;
       recipient := None; referral := None |} initial_state
  = (Err (InvalidChainConfiguration "SEPOLIA" "MARS"), initial_state)
  /\ @sendToken Demo.lib (Demo.net Demo.healthy) Demo.cfg
       {| sourceChain := "SEPOLIA"; destChain := "HOLESKY";
          asset := "native"; amount := "1"; privateKey := Some "0x1234";
          gasSettings := no_overrides; recipient := None;
          referral := None |} initial_state
     = (Err InvalidPrivateKeyFormat, initial_state).
Proof.
  split.
  - apply (proj1 (@sendToken_validation_order Demo.lib (Demo.net Demo.healthy)
                    Demo.cfg
                    {| sourceChain := "SEPOLIA"; destChain := "MARS";
                       asset := "native"; amount := "1"; privateKey := None;
                       gasSettings := no_overrides; recipient := None;
                       referral := None |} initial_state)).
    vm_compute. reflexivity.
  - apply (proj2 (@sendToken_validation_order Demo.lib (Demo.net Demo.healthy)
                    Demo.cfg
                    {| sourceChain := "SEPOLIA"; destChain := "HOLESKY";
                       asset := "native"; amount := "1";
                       privateKey := Some "0x1234";
                       gasSettings := no_overrides; recipient := None;
                       referral := None |} initial_state)).
    + vm_compute. reflexivity.
    + vm_compute. reflexivity.
Defined.
